(** * tic-knowledge-system: the chat orchestration core, the unified AI
      orchestrator and the knowledge retrieval service, embedded in Rocq.

    The Go services of [internal/services] are translated function by
    function.  Database tables are ordered lists of rows, the remote
    services (chat completion, embedding, vector index) are oracles of an
    environment record, and every call that can fail returns a [Result]. *)

From Stdlib Require Import List Bool Arith ZArith NArith Lia String Ascii.
From Stdlib Require Import DecimalString Sorted.
Import ListNotations.

(* ===================================================================== *)
(** * Go strings                                                          *)
(* ===================================================================== *)

Module GoStr.

Local Open Scope Z_scope.

(** A Go string is read by [strings.Fields], [strings.TrimSpace] and
    [range] as the sequence of its UTF-8 decoded runes; a rune is kept as
    its code point.  (The texts handled here come out of JSON bodies and
    PostgreSQL text columns, which hold valid UTF-8.) *)
Definition rune := N.
Definition gostring := list rune.

(** [unicode.IsSpace]: '\t' '\n' '\v' '\f' '\r' ' ', U+0085, U+00A0 and the
    space separators of the Unicode table. *)
Definition IsSpace (r : rune) : bool :=
  ((9 <=? r) && (r <=? 13))%N
  || (r =? 32)%N || (r =? 133)%N || (r =? 160)%N || (r =? 5760)%N
  || ((8192 <=? r) && (r <=? 8202))%N
  || (r =? 8232)%N || (r =? 8233)%N || (r =? 8239)%N || (r =? 8287)%N
  || (r =? 12288)%N.

(** [utf8.RuneLen]: the number of bytes of the encoding of a rune. *)
Definition RuneLen (r : rune) : Z :=
  if (r <? 128)%N then 1
  else if (r <? 2048)%N then 2
  else if (r <? 65536)%N then 3
  else 4.

(** [len(s)], [strings.Builder.Len]: the length in bytes. *)
Fixpoint Len (s : gostring) : Z :=
  match s with
  | [] => 0
  | r :: s' => RuneLen r + Len s'
  end.

Definition space : rune := 32%N.
Definition newline : rune := 10%N.

(** String literals of the source, as rune sequences. *)
Definition lit (s : string) : gostring :=
  map N_of_ascii (list_ascii_of_string s).

Definition isEmpty (s : gostring) : bool :=
  match s with [] => true | _ => false end.

(** The maximal runs between white space runes, empty runs included. *)
Fixpoint splitSpace (s : gostring) : list gostring :=
  match s with
  | [] => [[]]
  | r :: s' =>
      if IsSpace r then [] :: splitSpace s'
      else match splitSpace s' with
           | w :: ws => (r :: w) :: ws
           | [] => [[r]]
           end
  end.

(** [strings.Fields]: the non-empty runs between white space. *)
Definition Fields (s : gostring) : list gostring :=
  filter (fun w => negb (isEmpty w)) (splitSpace s).

Fixpoint dropSpace (s : gostring) : gostring :=
  match s with
  | [] => []
  | r :: s' => if IsSpace r then dropSpace s' else s
  end.

(** [strings.TrimSpace]: leading and trailing white space removed. *)
Definition TrimSpace (s : gostring) : gostring :=
  rev (dropSpace (rev (dropSpace s))).

Definition gostring_eqb (a b : gostring) : bool :=
  if list_eq_dec N.eq_dec a b then true else false.

(** A word: a non-empty run without white space. *)
Definition isWord (w : gostring) : Prop :=
  w <> [] /\ forallb (fun r => negb (IsSpace r)) w = true.

End GoStr.

(* ===================================================================== *)
(** * OpenAIService.ChunkText                                             *)
(* ===================================================================== *)

Module Chunker.
Import GoStr.
Local Open Scope Z_scope.

(** The loop state: the chunks emitted so far and the [strings.Builder]. *)
Definition chunk_state := (list gostring * gostring)%type.

(** One iteration of [for _, word := range words]. *)
Definition chunk_step (maxChunkSize : Z) (st : chunk_state) (word : gostring)
  : chunk_state :=
  let '(chunks, currentChunk) := st in
  let '(chunks, currentChunk) :=
    if (0 <? Len currentChunk)
       && (maxChunkSize <? Len currentChunk + Len word + 1)
    then (chunks ++ [TrimSpace currentChunk], [])
    else (chunks, currentChunk) in
  let currentChunk :=
    if 0 <? Len currentChunk then currentChunk ++ [space] else currentChunk in
  (chunks, currentChunk ++ word).

Definition ChunkText (text : gostring) (maxChunkSize : Z) : list gostring :=
  let maxChunkSize := if maxChunkSize <=? 0 then 1000 else maxChunkSize in
  let words := Fields text in
  match words with
  | [] => []
  | _ =>
      let '(chunks, currentChunk) :=
        fold_left (chunk_step maxChunkSize) words ([], []) in
      if 0 <? Len currentChunk
      then chunks ++ [TrimSpace currentChunk]
      else chunks
  end.

(** The loop invariant: the words of the emitted chunks followed by the
    words in the builder are the words consumed, no emitted chunk is
    empty, and a non-empty builder holds a word. *)
Definition chunk_inv (seen : list gostring) (st : chunk_state) : Prop :=
  let '(chunks, currentChunk) := st in
  List.concat (map Fields chunks) ++ Fields currentChunk = seen
  /\ Forall (fun c => c <> []) chunks
  /\ (currentChunk <> [] -> Fields currentChunk <> []).

End Chunker.

(* ===================================================================== *)
(** * Results, rows, the database and the outside world                   *)
(* ===================================================================== *)

Module Base.
Import GoStr.
Local Open Scope list_scope.

(** What a Go call yields: a value, a returned [error] (its message), or a
    run-time panic that unwinds the callers. *)
Inductive Result (A : Type) : Type :=
| Ok (a : A)
| Err (msg : string)
| Panic (msg : string).
Arguments Ok {A} a.
Arguments Err {A} msg.
Arguments Panic {A} msg.

Definition isOk {A} (r : Result A) : bool :=
  match r with Ok _ => true | _ => false end.

(** [uuid.UUID]; [uuid.Nil] is 0. *)
Definition uuid := N.
Definition uuid_Nil : uuid := 0%N.

(** [models.MessageRole] and its constants. *)
Definition MessageRole := string.
Definition UserMessage : MessageRole := "user"%string.
Definition AssistantMessage : MessageRole := "assistant"%string.
Definition SystemMessage : MessageRole := "system"%string.

(** [AIProvider] and its constants. *)
Definition AIProvider := string.
Definition OpenAIProvider : AIProvider := "openai"%string.
Definition GeminiProvider : AIProvider := "gemini"%string.

(** The metadata column of a message: the literal ["{}"] or the JSON object
    that [buildMetadata] marshals. *)
Inductive Metadata : Type :=
| MetaEmpty
| MetaJSON (provider : AIProvider) (model : string) (sources : list gostring).

Record ChatSession : Type := {
  sess_ID : uuid;
  sess_UserID : uuid;
  sess_Title : string;
  sess_IsActive : bool
}.

Record ChatMessage : Type := {
  msg_ID : uuid;
  msg_SessionID : uuid;
  msg_Role : MessageRole;
  msg_Content : gostring;
  msg_Metadata : Metadata;
  msg_CreatedAt : nat
}.

Record KnowledgeEntry : Type := {
  ke_ID : uuid;
  ke_Title : gostring;
  ke_Content : gostring;
  ke_Summary : gostring;
  ke_IsPublished : bool;
  ke_Priority : Z;
  ke_ViewCount : Z
}.

Record VectorEmbedding : Type := {
  ve_ID : uuid;
  ve_KnowledgeEntryID : uuid;
  ve_VectorID : uuid;
  ve_ChunkIndex : nat;
  ve_ChunkText : gostring
}.

(** The relational store: each table in insertion order.  Rows that GORM
    soft-deletes are invisible to every later query and are dropped. *)
Record DB : Type := {
  sessions : list ChatSession;
  messages : list ChatMessage;
  entries : list KnowledgeEntry;
  embeddings : list VectorEmbedding
}.

(** [{role, content}], the shape shared by [UnifiedChatMessage],
    [OpenAIChatMessage] and [GeminiChatMessage]. *)
Record RoleContent : Type := {
  Role : string;
  Content : gostring
}.

(** An embedding vector; its float32 coordinates are only carried from the
    embedding API to the vector index. *)
Definition Vector := list Z.

(** Requests that left the process. *)
Inductive Call : Type :=
| CallOpenAIChat (wire : list RoleContent)
| CallGeminiChat (system : gostring) (history : list RoleContent)
                 (current : gostring)
| CallEmbedding (text : gostring)
| CallVectorStore (vector : Vector) (text : gostring) (entry : uuid).

(** Statements that reached the database and were committed. *)
Inductive Stmt : Type :=
| StmtCreateEntry (id : uuid)
| StmtSaveEntry (id : uuid)
| StmtDeleteEntry (id : uuid)
| StmtDeleteEmbeddings (entry : uuid)
| StmtCreateEmbedding (entry : uuid) (chunkIndex : nat)
| StmtCreateSession (id : uuid)
| StmtCreateMessage (id : uuid).

(** Where a database statement is issued. *)
Inductive Site : Type :=
| SiteSessionLookup
| SiteSessionCreate
| SiteUserMessageCreate
| SiteKnowledgeVectorFind
| SiteKnowledgeTextFind
| SiteRecentMessages
| SiteAssistantMessageCreate
| SiteEntryCreate
| SiteEntrySave
| SiteEntryDelete
| SiteEmbeddingsDelete
| SiteEmbeddingCreate (chunkIndex : nat)
| SiteCommit.

(** The state that a request reads and writes: the database, the clock
    that stamps [CreatedAt] (it advances at every insert), the requests
    sent out so far and the journal of committed statements. *)
Record World : Type := {
  db : DB;
  clock : nat;
  calls : list Call;
  journal : list Stmt
}.

(** Everything the process does not decide: which database statement
    fails, and what the remote services answer to the [n]-th request. *)
Record Env : Type := {
  db_fault : Site -> option string;
  openai_CreateChatCompletion :
    nat -> list RoleContent -> Result (list gostring);
  gemini_SendMessage :
    nat -> gostring -> list RoleContent -> gostring ->
    Result (list (list gostring));
  openai_CreateEmbeddings : nat -> gostring -> Result (list Vector);
  vector_Store : nat -> Vector -> gostring -> uuid -> Result uuid
}.

(** State and error monad of the request handlers.  Effects made before
    an error or a panic stay. *)
Definition M (A : Type) : Type := World -> Result A * World.

Definition ret {A} (a : A) : M A := fun w => (Ok a, w).
Definition fail {A} (msg : string) : M A := fun w => (Err msg, w).
Definition panic {A} (msg : string) : M A := fun w => (Panic msg, w).

Definition bind {A B} (m : M A) (k : A -> M B) : M B :=
  fun w =>
    match m w with
    | (Ok a, w') => k a w'
    | (Err e, w') => (Err e, w')
    | (Panic e, w') => (Panic e, w')
    end.

(** [r, err := m]: the error is handed to the continuation. *)
Definition catch {A B} (m : M A) (k : Result A -> M B) : M B :=
  fun w =>
    match m w with
    | (Panic e, w') => (Panic e, w')
    | (r, w') => k r w'
    end.

Definition get_db : M DB := fun w => (Ok (db w), w).

Definition set_db (d : DB) : M unit :=
  fun w => (Ok tt, {| db := d; clock := clock w; calls := calls w;
                      journal := journal w |}).

Definition tick : M nat :=
  fun w => (Ok (clock w), {| db := db w; clock := S (clock w);
                             calls := calls w; journal := journal w |}).

Definition record_call (c : Call) : M nat :=
  fun w => (Ok (List.length (calls w)),
            {| db := db w; clock := clock w; calls := calls w ++ [c];
               journal := journal w |}).

Definition record_stmts (l : list Stmt) : M unit :=
  fun w => (Ok tt, {| db := db w; clock := clock w; calls := calls w;
                      journal := journal w ++ l |}).

Definition lift {A} (r : Result A) : M A := fun w => (r, w).

(** The identifier that [gen_random_uuid()] gives a new row: one that no
    row of the table carries. *)
Definition fresh_id (ids : list uuid) : uuid :=
  N.succ (fold_right N.max 0%N ids).

(** What a step leaves alone besides the request log. *)
Definition only_calls (w w' : World) (tr : list Call) : Prop :=
  db w' = db w /\ clock w' = clock w /\ journal w' = journal w
  /\ calls w' = calls w ++ tr.

End Base.

Declare Scope go_scope.
Delimit Scope go_scope with go.
Notation "x <- m ;; k" := (Base.bind m (fun x => k))
  (at level 61, m at next level, right associativity) : go_scope.
Notation "m ;;; k" := (Base.bind m (fun _ => k))
  (at level 61, right associativity) : go_scope.

(* ===================================================================== *)
(** * The provider adapters                                               *)
(* ===================================================================== *)

Module OpenAIService.
Import GoStr Base.
Local Open Scope list_scope.
Local Open Scope go_scope.

(** The sampling temperature is a float32 that is only handed on; it is
    left out. *)
Record t : Type := {
  model : string;
  embeddingModel : string;
  maxTokens : Z
}.

Record OpenAIChatRequest : Type := {
  Messages : list RoleContent;
  Context : list gostring;
  SessionID : uuid;
  UseKnowledgeBase : bool
}.

Record OpenAIChatResponse : Type := {
  Message : gostring;
  Sources : list gostring;
  RespSessionID : uuid
}.

Definition lines (l : list string) : gostring :=
  List.concat (map (fun s => lit s ++ [newline]) l).

Definition decimal (n : nat) : gostring :=
  lit (DecimalString.NilEmpty.string_of_uint (Nat.to_uint n)).

Definition baseMessage : gostring :=
  lines
    [ "You are a helpful AI assistant for operational support. Your primary role is to help employees with questions about:";
      "- How to operate the application/webapp";
      "- Understanding error messages and their solutions";
      "- Role and permission requirements";
      "- Finding specific screens and features for processing orders and tasks";
      "- Operational procedures and best practices";
      EmptyString;
      "Guidelines:";
      "1. Always be helpful, accurate, and concise";
      "2. If you're not sure about something, say so";
      "3. Provide step-by-step instructions when helpful";
      "4. Reference specific screens, buttons, or features when relevant";
      "5. If the question is outside your knowledge base, suggest who the user should contact";
      EmptyString ]%string.

(** [for i, ctx := range context]: "Knowledge %d:\n%s\n\n" at [i+1]. *)
Fixpoint knowledgeItems (i : nat) (context : list gostring) : gostring :=
  match context with
  | [] => []
  | ctx :: rest =>
      lit "Knowledge " ++ decimal (S i) ++ lit ":" ++ [newline]
      ++ ctx ++ [newline; newline] ++ knowledgeItems (S i) rest
  end.

Definition buildSystemMessage (context : list gostring) : gostring :=
  match context with
  | [] => baseMessage
  | _ =>
      baseMessage
      ++ lit "Based on the following knowledge base information:"
      ++ [newline; newline]
      ++ knowledgeItems 0 context
      ++ lit "Please answer the user's question using this information as context."
  end.

Definition ChatCompletion (env : Env) (s : t) (req : OpenAIChatRequest)
  : M OpenAIChatResponse :=
  let systemMessage := buildSystemMessage (Context req) in
  let messages :=
    {| Role := "system"; Content := systemMessage |}
    :: map (fun msg => {| Role := Role msg; Content := Content msg |})
           (Messages req) in
  n <- record_call (CallOpenAIChat messages) ;;
  match openai_CreateChatCompletion env n messages with
  | Panic e => panic e
  | Err e => fail ("OpenAI API error: " ++ e)%string
  | Ok [] => fail "no response from OpenAI"
  | Ok (choice :: _) =>
      ret {| Message := choice;
             Sources := Context req;
             RespSessionID := SessionID req |}
  end.

Definition CreateEmbedding (env : Env) (s : t) (text : gostring) : M Vector :=
  n <- record_call (CallEmbedding text) ;;
  match openai_CreateEmbeddings env n text with
  | Panic e => panic e
  | Err e => fail ("OpenAI embedding error: " ++ e)%string
  | Ok [] => fail "no embedding data returned"
  | Ok (data :: _) => ret data
  end.

End OpenAIService.

Module GeminiService.
Import GoStr Base.
Local Open Scope list_scope.
Local Open Scope go_scope.

Record t : Type := {
  model : string;
  maxTokens : Z
}.

Record GeminiChatRequest : Type := {
  Messages : list RoleContent;
  Context : list gostring;
  SessionID : uuid;
  UseKnowledgeBase : bool;
  SystemPrompt : gostring
}.

Record GeminiChatResponse : Type := {
  Message : gostring;
  Sources : list gostring;
  RespSessionID : uuid;
  Model : string
}.

Definition ascii_ToLower (c : ascii) : ascii :=
  let n := nat_of_ascii c in
  if (65 <=? n)%nat && (n <=? 90)%nat then ascii_of_nat (n + 32) else c.

(** [strings.ToLower] on a role label. *)
Fixpoint ToLower (s : string) : string :=
  match s with
  | EmptyString => EmptyString
  | String c s' => String (ascii_ToLower c) (ToLower s')
  end.

Definition convertRole (role : string) : string :=
  let r := ToLower role in
  if String.eqb r "user" then "user"
  else if String.eqb r "assistant" || String.eqb r "model" then "model"
  else "user".

Definition baseInstruction : gostring :=
  lit "You are an AI assistant for a knowledge management system. You help employees find information and answer questions about operational procedures, troubleshooting, and company processes."
  ++ [newline; newline]
  ++ lit "Instructions:" ++ [newline]
  ++ lit "- Provide accurate, helpful, and concise responses" ++ [newline]
  ++ lit "- If you use information from the knowledge base, acknowledge the source" ++ [newline]
  ++ lit "- If you're unsure about something, say so rather than guessing" ++ [newline]
  ++ lit "- Format your responses clearly with bullet points or numbered lists when appropriate" ++ [newline]
  ++ lit "- Focus on practical, actionable advice".

(** [for i, ctx := range context]: "%d. %s\n" at [i+1]. *)
Fixpoint contextItems (i : nat) (context : list gostring) : gostring :=
  match context with
  | [] => []
  | ctx :: rest =>
      OpenAIService.decimal (S i) ++ lit ". " ++ ctx ++ [newline]
      ++ contextItems (S i) rest
  end.

Definition buildSystemInstruction (context : list gostring)
    (customPrompt : gostring) : gostring :=
  baseInstruction
  ++ (match customPrompt with
      | [] => []
      | _ => [newline; newline] ++ lit "Additional Instructions:"
             ++ [newline] ++ customPrompt
      end)
  ++ (match context with
      | [] => []
      | _ => [newline; newline]
             ++ lit "Relevant Knowledge Base Information:" ++ [newline]
             ++ contextItems 0 context
             ++ [newline]
             ++ lit "Use this information to help answer the user's question when relevant."
      end).

(** [req.Messages[:len(req.Messages)-1]] and [req.Messages[len-1]]. *)
Fixpoint splitLast (l : list RoleContent)
  : option (list RoleContent * RoleContent) :=
  match l with
  | [] => None
  | [x] => Some ([], x)
  | x :: rest =>
      match splitLast rest with
      | Some (init, last) => Some (x :: init, last)
      | None => None
      end
  end.

Definition ChatCompletion (env : Env) (s : t) (req : GeminiChatRequest)
  : M GeminiChatResponse :=
  let systemInstruction :=
    buildSystemInstruction (Context req) (SystemPrompt req) in
  match splitLast (Messages req) with
  | None => panic "runtime error: index out of range [-1]"
  | Some (earlier, currentMessage) =>
      let history :=
        map (fun msg => {| Role := convertRole (Role msg);
                           Content := Content msg |}) earlier in
      n <- record_call
             (CallGeminiChat systemInstruction history
                             (Content currentMessage)) ;;
      match gemini_SendMessage env n systemInstruction history
                               (Content currentMessage) with
      | Panic e => panic e
      | Err e => fail ("Gemini API error: " ++ e)%string
      | Ok [] => fail "no response from Gemini"
      | Ok (parts :: _) =>
          ret {| Message := List.concat parts;
                 Sources := Context req;
                 RespSessionID := SessionID req;
                 Model := model s |}
      end
  end.

End GeminiService.

(* ===================================================================== *)
(** * UnifiedAIService                                                    *)
(* ===================================================================== *)

Module UnifiedAIService.
Import GoStr Base.
Local Open Scope list_scope.
Local Open Scope go_scope.

(** A nil [*OpenAIService] or [*GeminiService] is [None]. *)
Record t : Type := {
  openAIService : option OpenAIService.t;
  geminiService : option GeminiService.t;
  primaryProvider : AIProvider;
  fallbackProvider : AIProvider
}.

Record UnifiedChatRequest : Type := {
  Messages : list RoleContent;
  Context : list gostring;
  SessionID : uuid;
  UseKnowledgeBase : bool;
  SystemPrompt : gostring;
  PreferredProvider : AIProvider
}.

Record UnifiedChatResponse : Type := {
  Message : gostring;
  Sources : list gostring;
  RespSessionID : uuid;
  Provider : AIProvider;
  Model : string
}.

Definition NewUnifiedAIService (openAIService : option OpenAIService.t)
    (geminiService : option GeminiService.t) (primaryProvider : AIProvider)
  : t :=
  let fallbackProvider :=
    if String.eqb primaryProvider GeminiProvider
    then OpenAIProvider else GeminiProvider in
  {| openAIService := openAIService;
     geminiService := geminiService;
     primaryProvider := primaryProvider;
     fallbackProvider := fallbackProvider |}.

Definition callOpenAI (env : Env) (s : t) (req : UnifiedChatRequest)
  : M UnifiedChatResponse :=
  match openAIService s with
  | None => fail "OpenAI service not available"
  | Some svc =>
      let openAIReq :=
        {| OpenAIService.Messages :=
             map (fun msg => {| Role := Role msg; Content := Content msg |})
                 (Messages req);
           OpenAIService.Context := Context req;
           OpenAIService.SessionID := SessionID req;
           OpenAIService.UseKnowledgeBase := UseKnowledgeBase req |} in
      response <- OpenAIService.ChatCompletion env svc openAIReq ;;
      ret {| Message := OpenAIService.Message response;
             Sources := OpenAIService.Sources response;
             RespSessionID := OpenAIService.RespSessionID response;
             Provider := EmptyString;
             Model := "openai" |}
  end.

Definition callGemini (env : Env) (s : t) (req : UnifiedChatRequest)
  : M UnifiedChatResponse :=
  match geminiService s with
  | None => fail "Gemini service not available"
  | Some svc =>
      let geminiReq :=
        {| GeminiService.Messages :=
             map (fun msg => {| Role := Role msg; Content := Content msg |})
                 (Messages req);
           GeminiService.Context := Context req;
           GeminiService.SessionID := SessionID req;
           GeminiService.UseKnowledgeBase := UseKnowledgeBase req;
           GeminiService.SystemPrompt := SystemPrompt req |} in
      response <- GeminiService.ChatCompletion env svc geminiReq ;;
      ret {| Message := GeminiService.Message response;
             Sources := GeminiService.Sources response;
             RespSessionID := GeminiService.RespSessionID response;
             Provider := EmptyString;
             Model := GeminiService.Model response |}
  end.

Definition callProvider (env : Env) (s : t) (req : UnifiedChatRequest)
    (provider : AIProvider) : M UnifiedChatResponse :=
  if String.eqb provider OpenAIProvider then callOpenAI env s req
  else if String.eqb provider GeminiProvider then callGemini env s req
  else fail ("unsupported AI provider: " ++ provider)%string.

Definition setProvider (response : UnifiedChatResponse)
    (provider : AIProvider) : UnifiedChatResponse :=
  {| Message := Message response;
     Sources := Sources response;
     RespSessionID := RespSessionID response;
     Provider := provider;
     Model := Model response |}.

(** The provider that the first attempt goes to. *)
Definition selectedProvider (s : t) (req : UnifiedChatRequest) : AIProvider :=
  if String.eqb (PreferredProvider req) EmptyString then primaryProvider s
  else PreferredProvider req.

Definition bothFailed (provider fallback : AIProvider) : string :=
  ("both AI providers failed - primary: " ++ provider
   ++ ", fallback: " ++ fallback)%string.

Definition ChatCompletion (env : Env) (s : t) (req : UnifiedChatRequest)
  : M UnifiedChatResponse :=
  let provider := selectedProvider s req in
  catch (callProvider env s req provider) (fun r =>
    match r with
    | Ok response => ret (setProvider response provider)
    | Panic e => panic e
    | Err _ =>
        catch (callProvider env s req (fallbackProvider s)) (fun r2 =>
          match r2 with
          | Ok response => ret (setProvider response (fallbackProvider s))
          | Panic e => panic e
          | Err _ => fail (bothFailed provider (fallbackProvider s))
          end)
    end).

Definition GetAvailableProviders (s : t) : list AIProvider :=
  (match openAIService s with Some _ => [OpenAIProvider] | None => [] end)
  ++ (match geminiService s with Some _ => [GeminiProvider] | None => [] end).

(** The receiver is updated in place; the service after the call and the
    returned error are given back. *)
Definition SetPrimaryProvider (s : t) (provider : AIProvider)
  : t * option string :=
  if existsb (fun available => String.eqb available provider)
             (GetAvailableProviders s)
  then ({| openAIService := openAIService s;
           geminiService := geminiService s;
           primaryProvider := provider;
           fallbackProvider := fallbackProvider s |}, None)
  else (s, Some ("provider " ++ provider ++ " is not available")%string).

Definition GetPrimaryProvider (s : t) : AIProvider := primaryProvider s.

(** The provider that a request was sent to. *)
Definition providerOf (c : Call) : option AIProvider :=
  match c with
  | CallOpenAIChat _ => Some OpenAIProvider
  | CallGeminiChat _ _ _ => Some GeminiProvider
  | _ => None
  end.

Definition isSome {A} (o : option A) : bool :=
  match o with Some _ => true | None => false end.

(** Whether [callProvider] gets as far as sending a request to the
    provider: the provider is one of the two, its service is there, and
    (for Gemini, which indexes the last message) there is a message. *)
Definition reaches (s : t) (req : UnifiedChatRequest) (provider : AIProvider)
  : bool :=
  if String.eqb provider OpenAIProvider then isSome (openAIService s)
  else if String.eqb provider GeminiProvider then
    isSome (geminiService s)
    && match Messages req with [] => false | _ => true end
  else false.

(** The requests that an attempt against [provider] sends: one or none. *)
Definition dispatch (s : t) (req : UnifiedChatRequest)
    (provider : AIProvider) : list (option AIProvider) :=
  if reaches s req provider then [Some provider] else [].

(** The label that a provider gives its own turns in a history: Gemini
    takes "user" or "model" ([GeminiChatMessage], [convertRole]); OpenAI
    takes the role of [models.AssistantMessage], which [ChatService] hands
    to it as stored. *)
Definition ownTurnLabel (provider : AIProvider) : string :=
  if String.eqb provider GeminiProvider then "model" else AssistantMessage.

End UnifiedAIService.

(* ===================================================================== *)
(** * The queries that GORM sends                                         *)
(* ===================================================================== *)

Module Sql.
Import GoStr Base.
Local Open Scope list_scope.

Section OrderBy.
Variable A : Type.
(** [before a b]: the ORDER BY clause lets [a] stand before [b]. *)
Variable before : A -> A -> bool.

Fixpoint insert_row (e : A) (l : list A) : list A :=
  match l with
  | [] => [e]
  | x :: l' => if before e x then e :: x :: l' else x :: insert_row e l'
  end.

(** ORDER BY; rows that the clause does not tell apart keep the order
    of the table. *)
Definition order_by (l : list A) : list A := fold_right insert_row [] l.
End OrderBy.
Arguments insert_row {A} before e l.
Arguments order_by {A} before l.

(** [Limit(n)]: GORM writes a LIMIT clause for [n >= 0] and none for a
    negative [n]. *)
Definition sql_limit {A} (n : Z) (l : list A) : list A :=
  if (n <? 0)%Z then l else firstn (Z.to_nat n) l.

Definition pct : rune := 37%N.
Definition underscore : rune := 95%N.
Definition backslash : rune := 92%N.

(** The LIKE operator of PostgreSQL: [%] stands for any sequence, [_] for
    any one character, and a backslash takes the next pattern character
    literally.  (A pattern that ends in a lone backslash is an error in
    PostgreSQL; the patterns built here end in [%].) *)
Fixpoint like (p s : gostring) {struct p} : bool :=
  match p with
  | [] => isEmpty s
  | c :: p' =>
      if (c =? pct)%N then
        (fix any (t : gostring) : bool :=
           like p' t || match t with [] => false | _ :: t' => any t' end) s
      else if (c =? underscore)%N then
        match s with [] => false | _ :: s' => like p' s' end
      else if (c =? backslash)%N then
        match p' with
        | [] => false
        | e :: p'' =>
            match s with
            | [] => false
            | x :: s' => (x =? e)%N && like p'' s'
            end
        end
      else
        match s with
        | [] => false
        | x :: s' => (x =? c)%N && like p' s'
        end
  end.

Definition toLower (r : rune) : rune :=
  if ((65 <=? r) && (r <=? 90))%N then (r + 32)%N else r.

(** ILIKE: LIKE on the lower-cased pattern and string.  Letters outside
    ASCII are left as they are. *)
Definition ILIKE (s p : gostring) : bool :=
  like (map toLower p) (map toLower s).

(** ** Substring search, to compare ILIKE with *)

Fixpoint isPrefixOf (q t : gostring) : bool :=
  match q with
  | [] => true
  | c :: q' =>
      match t with
      | [] => false
      | x :: t' => (x =? c)%N && isPrefixOf q' t'
      end
  end.

Fixpoint hasInfix (q t : gostring) : bool :=
  isPrefixOf q t
  || match t with [] => false | _ :: t' => hasInfix q t' end.

(** [s] contains [q] when letter case is ignored. *)
Definition containsFold (q s : gostring) : bool :=
  hasInfix (map toLower q) (map toLower s).

(** A query without the characters that LIKE reads as operators. *)
Definition isPlain (r : rune) : bool :=
  negb ((r =? pct)%N || (r =? underscore)%N || (r =? backslash)%N).

Definition wildcardFree (q : gostring) : bool := forallb isPlain q.

End Sql.

(* ===================================================================== *)
(** * VectorService and KnowledgeService                                  *)
(* ===================================================================== *)

Module VectorService.
Import GoStr Base.
Local Open Scope list_scope.
Local Open Scope go_scope.

Record t : Type := {
  baseURL : string;
  collectionName : string
}.

(** The float64 score of a hit is left out. *)
Record VectorSearchResult : Type := {
  KnowledgeEntryID : uuid;
  ChunkText : gostring
}.

Definition Search (s : t) (query : gostring) (limit : Z)
  : Result (list VectorSearchResult) :=
  Err "search by text not implemented - use SearchByVector instead".

(** The PUT to the vector index; the point identifier comes back. *)
Definition Store (env : Env) (s : t) (vector : Vector) (text : gostring)
    (knowledgeEntryID : uuid) : M uuid :=
  n <- record_call (CallVectorStore vector text knowledgeEntryID) ;;
  lift (vector_Store env n vector text knowledgeEntryID).

End VectorService.

Module KnowledgeService.
Import GoStr Base Chunker Sql.
Local Open Scope list_scope.
Local Open Scope go_scope.

Record t : Type := {
  openAIService : option OpenAIService.t;
  vectorService : option VectorService.t
}.

(** ** Search *)

Definition priority_viewcount_desc (a b : KnowledgeEntry) : bool :=
  (ke_Priority b <? ke_Priority a)%Z
  || ((ke_Priority a =? ke_Priority b)%Z
      && (ke_ViewCount b <=? ke_ViewCount a)%Z).

(** [is_published = true AND (title ILIKE ? OR content ILIKE ? OR
    summary ILIKE ?)] *)
Definition textMatch (searchTerm : gostring) (e : KnowledgeEntry) : bool :=
  ke_IsPublished e
  && (ILIKE (ke_Title e) searchTerm
      || ILIKE (ke_Content e) searchTerm
      || ILIKE (ke_Summary e) searchTerm).

(** The text query of the fallback. *)
Definition textSearch (env : Env) (query : gostring) (limit : Z)
  : M (list KnowledgeEntry) :=
  let searchTerm := [pct] ++ query ++ [pct] in
  d <- get_db ;;
  match db_fault env SiteKnowledgeTextFind with
  | Some e => fail e
  | None =>
      ret (sql_limit limit
             (order_by priority_viewcount_desc
                (filter (textMatch searchTerm) (entries d))))
  end.

(** [id IN ? AND is_published = true] *)
Definition vectorMatch (entryIDs : list uuid) (e : KnowledgeEntry) : bool :=
  existsb (N.eqb (ke_ID e)) entryIDs && ke_IsPublished e.

Definition SearchKnowledgeEntries (env : Env) (s : t) (query : gostring)
    (limit : Z) : M (list KnowledgeEntry) :=
  match vectorService s with
  | Some vs =>
      match VectorService.Search vs query limit with
      | Ok (r :: rest) =>
          let entryIDs :=
            map VectorService.KnowledgeEntryID (r :: rest) in
          d <- get_db ;;
          match db_fault env SiteKnowledgeVectorFind with
          | None => ret (filter (vectorMatch entryIDs) (entries d))
          | Some _ => textSearch env query limit
          end
      | _ => textSearch env query limit
      end
  | None => textSearch env query limit
  end.

(** ** Transactions *)

Record Tx : Type := {
  tx_db : DB;
  tx_stmts : list Stmt
}.

Definition Begin (w : World) : Tx := {| tx_db := db w; tx_stmts := [] |}.

Definition with_entries (tx : Tx) (l : list KnowledgeEntry) (st : Stmt)
  : Tx :=
  {| tx_db := {| sessions := sessions (tx_db tx);
                 messages := messages (tx_db tx);
                 entries := l;
                 embeddings := embeddings (tx_db tx) |};
     tx_stmts := tx_stmts tx ++ [st] |}.

Definition with_embeddings (tx : Tx) (l : list VectorEmbedding) (st : Stmt)
  : Tx :=
  {| tx_db := {| sessions := sessions (tx_db tx);
                 messages := messages (tx_db tx);
                 entries := entries (tx_db tx);
                 embeddings := l |};
     tx_stmts := tx_stmts tx ++ [st] |}.

Definition set_ID (entry : KnowledgeEntry) (id : uuid) : KnowledgeEntry :=
  {| ke_ID := id;
     ke_Title := ke_Title entry;
     ke_Content := ke_Content entry;
     ke_Summary := ke_Summary entry;
     ke_IsPublished := ke_IsPublished entry;
     ke_Priority := ke_Priority entry;
     ke_ViewCount := ke_ViewCount entry |}.

Definition has_entry (id : uuid) (l : list KnowledgeEntry) : bool :=
  existsb (fun e => N.eqb (ke_ID e) id) l.

(** [tx.Create(entry)]: a nil identifier is filled in by the database, a
    taken one violates the primary key. *)
Definition tx_Create (env : Env) (tx : Tx) (entry : KnowledgeEntry)
  : Result (Tx * KnowledgeEntry) :=
  match db_fault env SiteEntryCreate with
  | Some e => Err e
  | None =>
      let rows := entries (tx_db tx) in
      let id := if N.eqb (ke_ID entry) uuid_Nil
                then fresh_id (map ke_ID rows) else ke_ID entry in
      if has_entry id rows
      then Err "duplicate key value violates unique constraint"
      else let entry' := set_ID entry id in
           Ok (with_entries tx (rows ++ [entry']) (StmtCreateEntry id),
               entry')
  end.

Fixpoint replace_entry (entry : KnowledgeEntry) (l : list KnowledgeEntry)
  : list KnowledgeEntry :=
  match l with
  | [] => []
  | e :: l' =>
      if N.eqb (ke_ID e) (ke_ID entry) then entry :: replace_entry entry l'
      else e :: replace_entry entry l'
  end.

(** [tx.Save(entry)]: every column of the row with this identifier is
    written; without such a row (or with a nil identifier) the entry is
    inserted. *)
Definition tx_Save (env : Env) (tx : Tx) (entry : KnowledgeEntry)
  : Result (Tx * KnowledgeEntry) :=
  match db_fault env SiteEntrySave with
  | Some e => Err e
  | None =>
      let rows := entries (tx_db tx) in
      if N.eqb (ke_ID entry) uuid_Nil then
        let entry' := set_ID entry (fresh_id (map ke_ID rows)) in
        Ok (with_entries tx (rows ++ [entry']) (StmtSaveEntry (ke_ID entry')),
            entry')
      else if has_entry (ke_ID entry) rows then
        Ok (with_entries tx (replace_entry entry rows)
                         (StmtSaveEntry (ke_ID entry)), entry)
      else
        Ok (with_entries tx (rows ++ [entry]) (StmtSaveEntry (ke_ID entry)),
            entry)
  end.

(** [tx.Where("knowledge_entry_id = ?", id).Delete(&VectorEmbedding{})] *)
Definition tx_DeleteEmbeddings (env : Env) (tx : Tx) (id : uuid)
  : Result Tx :=
  match db_fault env SiteEmbeddingsDelete with
  | Some e => Err e
  | None =>
      Ok (with_embeddings tx
            (filter (fun v => negb (N.eqb (ve_KnowledgeEntryID v) id))
                    (embeddings (tx_db tx)))
            (StmtDeleteEmbeddings id))
  end.

(** [tx.Delete(&KnowledgeEntry{}, "id = ?", id)] *)
Definition tx_DeleteEntry (env : Env) (tx : Tx) (id : uuid) : Result Tx :=
  match db_fault env SiteEntryDelete with
  | Some e => Err e
  | None =>
      Ok (with_entries tx
            (filter (fun e => negb (N.eqb (ke_ID e) id))
                    (entries (tx_db tx)))
            (StmtDeleteEntry id))
  end.

(** [tx.Create(vectorEmbedding)] *)
Definition tx_CreateEmbedding (env : Env) (tx : Tx) (entryID vectorID : uuid)
    (i : nat) (chunk : gostring) : Result Tx :=
  match db_fault env (SiteEmbeddingCreate i) with
  | Some e => Err e
  | None =>
      let rows := embeddings (tx_db tx) in
      Ok (with_embeddings tx
            (rows ++ [ {| ve_ID := fresh_id (map ve_ID rows);
                          ve_KnowledgeEntryID := entryID;
                          ve_VectorID := vectorID;
                          ve_ChunkIndex := i;
                          ve_ChunkText := chunk |} ])
            (StmtCreateEmbedding entryID i))
  end.

(** The outcome of a handler that holds a transaction: the returned
    error ([None] is nil) and the world after it. *)
Definition Commit {A} (env : Env) (tx : Tx) (a : A) (w : World)
  : (option string * A) * World :=
  match db_fault env SiteCommit with
  | Some e => ((Some e, a), w)
  | None =>
      ((None, a),
       {| db := tx_db tx; clock := clock w; calls := calls w;
          journal := journal w ++ tx_stmts tx |})
  end.

(** ** The embedding lifecycle *)

Definition fullText (entry : KnowledgeEntry) : gostring :=
  let fullText := ke_Title entry ++ [newline; newline] ++ ke_Content entry in
  match ke_Summary entry with
  | [] => fullText
  | _ => ke_Summary entry ++ [newline; newline] ++ fullText
  end.

(** [for i, chunk := range chunks], from index [i] on. *)
Fixpoint embedChunks (env : Env) (s : t) (entryID : uuid) (i : nat)
    (chunks : list gostring) (tx : Tx) : M Tx :=
  match chunks with
  | [] => ret tx
  | chunk :: rest =>
      embedding <-
        match openAIService s with
        | Some svc => OpenAIService.CreateEmbedding env svc chunk
        | None => panic "invalid memory address or nil pointer dereference"
        end ;;
      vectorID <-
        match vectorService s with
        | Some vs => VectorService.Store env vs embedding chunk entryID
        | None => panic "invalid memory address or nil pointer dereference"
        end ;;
      tx' <- lift (tx_CreateEmbedding env tx entryID vectorID i chunk) ;;
      embedChunks env s entryID (S i) rest tx'
  end.

Definition createEmbeddings (env : Env) (s : t) (tx : Tx)
    (entry : KnowledgeEntry) : M Tx :=
  let chunks := ChunkText (fullText entry) 1000 in
  embedChunks env s (ke_ID entry) 0 chunks tx.

(** A returned error rolls the transaction back; so does a panic, which
    the deferred [recover] swallows, and the handler then returns nil. *)
Definition CreateKnowledgeEntry (env : Env) (s : t) (entry : KnowledgeEntry)
    (w : World) : (option string * KnowledgeEntry) * World :=
  let tx := Begin w in
  match tx_Create env tx entry with
  | Err e => ((Some e, entry), w)
  | Panic _ => ((None, entry), w)
  | Ok (tx, entry) =>
      if ke_IsPublished entry then
        match createEmbeddings env s tx entry w with
        | (Err e, w') => ((Some e, entry), w')
        | (Panic _, w') => ((None, entry), w')
        | (Ok tx, w') => Commit env tx entry w'
        end
      else Commit env tx entry w
  end.

Definition UpdateKnowledgeEntry (env : Env) (s : t) (entry : KnowledgeEntry)
    (w : World) : (option string * KnowledgeEntry) * World :=
  let tx := Begin w in
  match tx_Save env tx entry with
  | Err e => ((Some e, entry), w)
  | Panic _ => ((None, entry), w)
  | Ok (tx, entry) =>
      if ke_IsPublished entry then
        match tx_DeleteEmbeddings env tx (ke_ID entry) with
        | Err e => ((Some e, entry), w)
        | Panic _ => ((None, entry), w)
        | Ok tx =>
            match createEmbeddings env s tx entry w with
            | (Err e, w') => ((Some e, entry), w')
            | (Panic _, w') => ((None, entry), w')
            | (Ok tx, w') => Commit env tx entry w'
            end
        end
      else Commit env tx entry w
  end.

Definition DeleteKnowledgeEntry (env : Env) (s : t) (id : uuid) (w : World)
  : (option string * unit) * World :=
  let tx := Begin w in
  match tx_DeleteEmbeddings env tx id with
  | Err e => ((Some e, tt), w)
  | Panic _ => ((None, tt), w)
  | Ok tx =>
      match tx_DeleteEntry env tx id with
      | Err e => ((Some e, tt), w)
      | Panic _ => ((None, tt), w)
      | Ok tx => Commit env tx tt w
      end
  end.

(** The VectorEmbedding rows of an entry. *)
Definition embeddingsOf (id : uuid) (d : DB) : list VectorEmbedding :=
  filter (fun v => N.eqb (ve_KnowledgeEntryID v) id) (embeddings d).

(** The order of [priority DESC, view_count DESC]. *)
Definition ranked (a b : KnowledgeEntry) : Prop :=
  (ke_Priority b < ke_Priority a)%Z
  \/ (ke_Priority a = ke_Priority b /\ (ke_ViewCount b <= ke_ViewCount a)%Z).

(** A published entry whose title, content or summary contains the
    query, letter case ignored. *)
Definition containsMatch (query : gostring) (e : KnowledgeEntry) : bool :=
  ke_IsPublished e
  && (containsFold query (ke_Title e)
      || containsFold query (ke_Content e)
      || containsFold query (ke_Summary e)).

(** The chunk index and the chunk text of a row. *)
Definition rowView (v : VectorEmbedding) : nat * gostring :=
  (ve_ChunkIndex v, ve_ChunkText v).

(** The elements of a list with their positions, counted from [i]. *)
Definition indexed {A} (i : nat) (l : list A) : list (nat * A) :=
  combine (seq i (List.length l)) l.

(** The chunks of the combined text of an entry. *)
Definition chunksOf (entry : KnowledgeEntry) : list gostring :=
  ChunkText (fullText entry) 1000.

(** The rows that an operation on [entry] has to leave for it when it
    rebuilds the embeddings: one per chunk if the entry is published. *)
Definition expectedRows (entry : KnowledgeEntry) : list (nat * gostring) :=
  if ke_IsPublished entry then indexed 0 (chunksOf entry) else [].

Definition createStmts (id : uuid) (i n : nat) : list Stmt :=
  map (StmtCreateEmbedding id) (seq i n).

(** The identifier under which [tx.Create] or [tx.Save] stores an entry. *)
Definition storedID (entry : KnowledgeEntry) (d : DB) : uuid :=
  if N.eqb (ke_ID entry) uuid_Nil then fresh_id (map ke_ID (entries d))
  else ke_ID entry.

(** The entry table after [tx.Save]. *)
Definition savedEntries (entry : KnowledgeEntry) (d : DB)
  : list KnowledgeEntry :=
  if N.eqb (ke_ID entry) uuid_Nil then
    entries d ++ [set_ID entry (fresh_id (map ke_ID (entries d)))]
  else if has_entry (ke_ID entry) (entries d) then
    replace_entry entry (entries d)
  else entries d ++ [entry].

(** Nothing was written. *)
Definition untouched (w w' : World) : Prop :=
  db w' = db w /\ journal w' = journal w.

(** Every VectorEmbedding row belongs to a stored entry. *)
Definition rowsHaveEntries (d : DB) : Prop :=
  forall v, In v (embeddings d) ->
            has_entry (ve_KnowledgeEntryID v) (entries d) = true.

(** What a committed create has written. *)
Definition createCommitted (entry : KnowledgeEntry) (w : World)
    (out : (option string * KnowledgeEntry) * World) : Prop :=
  let stored := snd (fst out) in
  let w' := snd out in
  fst (fst out) = None
  /\ stored = set_ID entry (storedID entry (db w))
  /\ has_entry (ke_ID stored) (entries (db w)) = false
  /\ entries (db w') = entries (db w) ++ [stored]
  /\ exists news,
       embeddings (db w') = embeddings (db w) ++ news
       /\ embeddingsOf (ke_ID stored) (db w')
          = embeddingsOf (ke_ID stored) (db w) ++ news
       /\ map rowView news = expectedRows stored
       /\ journal w'
          = journal w
            ++ StmtCreateEntry (ke_ID stored)
               :: createStmts (ke_ID stored) 0 (List.length news).

(** What a committed update has written. *)
Definition updateCommitted (entry : KnowledgeEntry) (w : World)
    (out : (option string * KnowledgeEntry) * World) : Prop :=
  let stored := snd (fst out) in
  let w' := snd out in
  fst (fst out) = None
  /\ stored = set_ID entry (storedID entry (db w))
  /\ entries (db w') = savedEntries entry (db w)
  /\ if ke_IsPublished stored then
       exists news,
         embeddings (db w')
         = filter (fun v => negb (N.eqb (ve_KnowledgeEntryID v)
                                        (ke_ID stored)))
                  (embeddings (db w))
           ++ news
         /\ embeddingsOf (ke_ID stored) (db w') = news
         /\ map rowView news = indexed 0 (chunksOf stored)
         /\ journal w'
            = journal w
              ++ StmtSaveEntry (ke_ID stored)
                 :: StmtDeleteEmbeddings (ke_ID stored)
                 :: createStmts (ke_ID stored) 0 (List.length news)
     else
       embeddings (db w') = embeddings (db w)
       /\ journal w' = journal w ++ [StmtSaveEntry (ke_ID stored)].

(** What a committed delete has written. *)
Definition deleteCommitted (id : uuid) (w : World)
    (out : (option string * unit) * World) : Prop :=
  let w' := snd out in
  fst (fst out) = None
  /\ embeddings (db w')
     = filter (fun v => negb (N.eqb (ve_KnowledgeEntryID v) id))
              (embeddings (db w))
  /\ embeddingsOf id (db w') = []
  /\ entries (db w')
     = filter (fun e => negb (N.eqb (ke_ID e) id)) (entries (db w))
  /\ has_entry id (entries (db w')) = false
  /\ journal w' = journal w ++ [StmtDeleteEmbeddings id; StmtDeleteEntry id].

(** Both services are there, as [NewServer] builds them. *)
Definition configured (s : t) : bool :=
  match openAIService s, vectorService s with
  | Some _, Some _ => true
  | _, _ => false
  end.

(** No statement fails and every request to the embedding API and to the
    vector index is answered. *)
Definition healthy (env : Env) : Prop :=
  (forall site, db_fault env site = None)
  /\ (forall n text, exists v vs,
         openai_CreateEmbeddings env n text = Ok (v :: vs))
  /\ (forall n vector text id, exists pointID,
         vector_Store env n vector text id = Ok pointID).

End KnowledgeService.

(* ===================================================================== *)
(** * The chat services                                                   *)
(* ===================================================================== *)

Module ChatStore.
Import GoStr Base Sql.
Local Open Scope list_scope.
Local Open Scope go_scope.

Definition with_sessions (d : DB) (l : list ChatSession) : DB :=
  {| sessions := l; messages := messages d; entries := entries d;
     embeddings := embeddings d |}.

Definition with_messages (d : DB) (l : list ChatMessage) : DB :=
  {| sessions := sessions d; messages := l; entries := entries d;
     embeddings := embeddings d |}.

(** [Where("id = ? AND user_id = ? AND is_active = true").First(&session)];
    [None] stands for a non-nil error (no such row, or a failed query). *)
Definition findSession (env : Env) (sessionID userID : uuid)
  : M (option ChatSession) :=
  d <- get_db ;;
  match db_fault env SiteSessionLookup with
  | Some _ => ret None
  | None =>
      ret (find (fun s => N.eqb (sess_ID s) sessionID
                          && N.eqb (sess_UserID s) userID
                          && sess_IsActive s)
                (sessions d))
  end.

(** [db.Create(session)] for a session without identifier. *)
Definition createSession (env : Env) (userID : uuid) (title : string)
    (isActive : bool) : M ChatSession :=
  match db_fault env SiteSessionCreate with
  | Some e => fail e
  | None =>
      d <- get_db ;;
      _ <- tick ;;
      let session :=
        {| sess_ID := fresh_id (map sess_ID (sessions d));
           sess_UserID := userID;
           sess_Title := title;
           sess_IsActive := isActive |} in
      set_db (with_sessions d (sessions d ++ [session])) ;;;
      record_stmts [StmtCreateSession (sess_ID session)] ;;;
      ret session
  end.

(** [db.Create(message)]: the identifier and [CreatedAt] are filled in. *)
Definition createMessage (env : Env) (site : Site) (sessionID : uuid)
    (role : MessageRole) (content : gostring) (metadata : Metadata)
  : M ChatMessage :=
  match db_fault env site with
  | Some e => fail e
  | None =>
      d <- get_db ;;
      now <- tick ;;
      let message :=
        {| msg_ID := fresh_id (map msg_ID (messages d));
           msg_SessionID := sessionID;
           msg_Role := role;
           msg_Content := content;
           msg_Metadata := metadata;
           msg_CreatedAt := now |} in
      set_db (with_messages d (messages d ++ [message])) ;;;
      record_stmts [StmtCreateMessage (msg_ID message)] ;;;
      ret message
  end.

Definition created_at_desc (a b : ChatMessage) : bool :=
  (msg_CreatedAt b <=? msg_CreatedAt a)%nat.

(** [Where("session_id = ?").Order("created_at DESC").Limit(limit)] *)
Definition recentQuery (d : DB) (sessionID : uuid) (limit : Z)
  : list ChatMessage :=
  sql_limit limit
    (order_by created_at_desc
       (filter (fun m => N.eqb (msg_SessionID m) sessionID) (messages d))).

(** The row that [createSession] or [createMessage] inserts, and the world
    after the insert. *)
Definition sessionMade (w : World) (userID : uuid) : ChatSession :=
  {| sess_ID := fresh_id (map sess_ID (sessions (db w)));
     sess_UserID := userID;
     sess_Title := "New Chat"%string;
     sess_IsActive := true |}.

Definition afterSession (w : World) (session : ChatSession) : World :=
  {| db := with_sessions (db w) (sessions (db w) ++ [session]);
     clock := S (clock w);
     calls := calls w;
     journal := journal w ++ [StmtCreateSession (sess_ID session)] |}.

Definition messageMade (w : World) (sessionID : uuid) (role : MessageRole)
    (content : gostring) (metadata : Metadata) : ChatMessage :=
  {| msg_ID := fresh_id (map msg_ID (messages (db w)));
     msg_SessionID := sessionID;
     msg_Role := role;
     msg_Content := content;
     msg_Metadata := metadata;
     msg_CreatedAt := clock w |}.

Definition afterMessage (w : World) (m : ChatMessage) : World :=
  {| db := with_messages (db w) (messages (db w) ++ [m]);
     clock := S (clock w);
     calls := calls w;
     journal := journal w ++ [StmtCreateMessage (msg_ID m)] |}.


(** Every stored message was stamped before the present. *)
Definition stamped_before_now (w : World) : Prop :=
  forall m, In m (messages (db w)) -> (msg_CreatedAt m < clock w)%nat.

(** The session that the lookup of [getOrCreateSession] finds. *)
Definition lookupFor (env : Env) (w : World) (userID : uuid)
    (sessionID : option uuid) : option ChatSession :=
  match sessionID with
  | Some id =>
      match db_fault env SiteSessionLookup with
      | Some _ => None
      | None =>
          find (fun s => N.eqb (sess_ID s) id
                         && N.eqb (sess_UserID s) userID
                         && sess_IsActive s)
               (sessions (db w))
      end
  | None => None
  end.

(** The recent messages that [ProcessChat] goes on with: none when the
    query fails. *)
Definition recentFor (env : Env) (w : World) (sessionID : uuid)
  : list ChatMessage :=
  match db_fault env SiteRecentMessages with
  | Some _ => []
  | None => recentQuery (db w) sessionID 10
  end.

(** Stored messages from the newest to the oldest, and the other way
    round. *)
Definition newestFirst (l : list ChatMessage) : Prop :=
  StronglySorted (fun a b => (msg_CreatedAt b <= msg_CreatedAt a)%nat) l.


End ChatStore.

Module EnhancedChatService.
Import GoStr Base Sql ChatStore.
Local Open Scope list_scope.
Local Open Scope go_scope.

Record t : Type := {
  unifiedAIService : UnifiedAIService.t;
  knowledgeService : KnowledgeService.t
}.

Record EnhancedChatRequest : Type := {
  Message : gostring;
  SessionID : option uuid;
  UserID : uuid;
  PreferredProvider : AIProvider;
  SystemPrompt : gostring
}.

Record EnhancedChatResponse : Type := {
  Response : gostring;
  RespSessionID : uuid;
  Sources : list uuid;
  Provider : AIProvider;
  Model : string;
  CreatedAt : nat
}.

Definition getOrCreateSession (env : Env) (userID : uuid)
    (sessionID : option uuid) : M ChatSession :=
  found <-
    match sessionID with
    | Some id => findSession env id userID
    | None => ret None
    end ;;
  match found with
  | Some session => ret session
  | None => createSession env userID "New Chat"%string true
  end.

Definition getRecentMessages (env : Env) (sessionID : uuid) (limit : Z)
  : M (list ChatMessage) :=
  d <- get_db ;;
  match db_fault env SiteRecentMessages with
  | Some e => fail e
  | None => ret (recentQuery d sessionID limit)
  end.

Definition buildMetadata (provider : AIProvider) (model : string)
    (sources : list gostring) : Metadata :=
  MetaJSON provider model sources.

(** [for _, msg := range recentMessages]: the history handed on. *)
Fixpoint historyMessages (recentMessages : list ChatMessage)
    (userMessageID : uuid) : list RoleContent :=
  match recentMessages with
  | [] => []
  | msg :: rest =>
      if negb (N.eqb (msg_ID msg) userMessageID) then
        let role := msg_Role msg in
        let role := if String.eqb role "assistant" then "model"%string
                    else role in
        {| Role := role; Content := msg_Content msg |}
        :: historyMessages rest userMessageID
      else historyMessages rest userMessageID
  end.

(** What [ProcessChat] has in hand when it reaches the provider call. *)
Record Prepared : Type := {
  p_session : ChatSession;
  p_userMessage : ChatMessage;
  p_knowledgeEntries : list KnowledgeEntry;
  p_aiRequest : UnifiedAIService.UnifiedChatRequest
}.

(** [ProcessChat] up to the call of the AI service. *)
Definition prepare (env : Env) (s : t) (req : EnhancedChatRequest)
  : M Prepared :=
  session <- getOrCreateSession env (UserID req) (SessionID req) ;;
  userMessage <-
    createMessage env SiteUserMessageCreate (sess_ID session)
                  "user"%string (Message req) MetaEmpty ;;
  knowledgeEntries <-
    catch (KnowledgeService.SearchKnowledgeEntries
             env (knowledgeService s) (Message req) 3)
          (fun r => match r with
                    | Ok l => ret l
                    | Err _ => ret []
                    | Panic e => panic e
                    end) ;;
  let context :=
    map (fun entry => ke_Title entry ++ lit ": " ++ ke_Content entry)
        knowledgeEntries in
  recentMessages <-
    catch (getRecentMessages env (sess_ID session) 10)
          (fun r => match r with
                    | Ok l => ret l
                    | Err _ => ret []
                    | Panic e => panic e
                    end) ;;
  let messages :=
    historyMessages recentMessages (msg_ID userMessage)
    ++ [ {| Role := "user"; Content := Message req |} ] in
  ret {| p_session := session;
         p_userMessage := userMessage;
         p_knowledgeEntries := knowledgeEntries;
         p_aiRequest :=
           {| UnifiedAIService.Messages := messages;
              UnifiedAIService.Context := context;
              UnifiedAIService.SessionID := sess_ID session;
              UnifiedAIService.UseKnowledgeBase :=
                match context with [] => false | _ => true end;
              UnifiedAIService.SystemPrompt := SystemPrompt req;
              UnifiedAIService.PreferredProvider := PreferredProvider req |}
      |}.

Definition ProcessChat (env : Env) (s : t) (req : EnhancedChatRequest)
  : M EnhancedChatResponse :=
  p <- prepare env s req ;;
  aiResponse <-
    UnifiedAIService.ChatCompletion env (unifiedAIService s)
                                    (p_aiRequest p) ;;
  assistantMessage <-
    createMessage env SiteAssistantMessageCreate (sess_ID (p_session p))
                  "assistant"%string (UnifiedAIService.Message aiResponse)
                  (buildMetadata (UnifiedAIService.Provider aiResponse)
                                 (UnifiedAIService.Model aiResponse)
                                 (UnifiedAIService.Sources aiResponse)) ;;
  let sources := map ke_ID (p_knowledgeEntries p) in
  ret {| Response := UnifiedAIService.Message aiResponse;
         RespSessionID := sess_ID (p_session p);
         Sources := sources;
         Provider := UnifiedAIService.Provider aiResponse;
         Model := UnifiedAIService.Model aiResponse;
         CreatedAt := msg_CreatedAt assistantMessage |}.

(** The knowledge entries that [ProcessChat] goes on with: none when the
    search fails. *)
Definition knowledgeFor (env : Env) (s : t) (query : gostring) (w : World)
  : list KnowledgeEntry :=
  match fst (KnowledgeService.SearchKnowledgeEntries
               env (knowledgeService s) query 3 w) with
  | Ok l => l
  | _ => []
  end.

(** The request built from a resolved session and the stored inbound
    message, in the world [w] that holds it. *)
Definition preparedFor (env : Env) (s : t) (req : EnhancedChatRequest)
    (session : ChatSession) (userMessage : ChatMessage) (w : World)
  : Prepared :=
  let knowledgeEntries := knowledgeFor env s (Message req) w in
  let context :=
    map (fun entry => ke_Title entry ++ lit ": " ++ ke_Content entry)
        knowledgeEntries in
  {| p_session := session;
     p_userMessage := userMessage;
     p_knowledgeEntries := knowledgeEntries;
     p_aiRequest :=
       {| UnifiedAIService.Messages :=
            historyMessages (recentFor env w (sess_ID session))
                            (msg_ID userMessage)
            ++ [ {| Role := "user"; Content := Message req |} ];
          UnifiedAIService.Context := context;
          UnifiedAIService.SessionID := sess_ID session;
          UnifiedAIService.UseKnowledgeBase :=
            match context with [] => false | _ => true end;
          UnifiedAIService.SystemPrompt := SystemPrompt req;
          UnifiedAIService.PreferredProvider := PreferredProvider req |} |}.

(** A stored message as the history loop hands it on. *)
Definition asHistory (msg : ChatMessage) : RoleContent :=
  {| Role := if String.eqb (msg_Role msg) "assistant" then "model"%string
             else msg_Role msg;
     Content := msg_Content msg |}.

(** The assembled history: the messages of the request without the
    current message, which is appended last. *)
Definition historyOf (p : Prepared) : list RoleContent :=
  removelast (UnifiedAIService.Messages (p_aiRequest p)).

(** How many messages of a history carry a given text. *)
Definition copies (text : gostring) (l : list RoleContent) : nat :=
  List.length (filter (fun rc => gostring_eqb (Content rc) text) l).

(** The follow-up request: the same text in the session of a response. *)
Definition followUp (req : EnhancedChatRequest) (resp : EnhancedChatResponse)
  : EnhancedChatRequest :=
  {| Message := Message req;
     SessionID := Some (RespSessionID resp);
     UserID := UserID req;
     PreferredProvider := PreferredProvider req;
     SystemPrompt := SystemPrompt req |}.

End EnhancedChatService.

Module ChatService.
Import GoStr Base Sql ChatStore.
Local Open Scope list_scope.
Local Open Scope go_scope.

Record t : Type := {
  openAIService : option OpenAIService.t;
  knowledgeService : KnowledgeService.t
}.

Record ChatRequest : Type := {
  Message : gostring;
  SessionID : option uuid;
  UserID : uuid
}.

Record ChatResponse : Type := {
  RespMessage : gostring;
  RespSessionID : uuid;
  Sources : list gostring
}.

Definition getOrCreateSession (env : Env) (userID : uuid)
    (sessionID : option uuid) : M ChatSession :=
  found <-
    match sessionID with
    | Some id => findSession env id userID
    | None => ret None
    end ;;
  match found with
  | Some session => ret session
  | None => createSession env userID "New Chat"%string true
  end.

(** [for i := len(recentMessages) - 1; i >= 0; i--], on the reversed
    slice. *)
Fixpoint historyMessages (reversed : list ChatMessage)
    (userMessageID : uuid) : list RoleContent :=
  match reversed with
  | [] => []
  | msg :: rest =>
      if negb (N.eqb (msg_ID msg) userMessageID) then
        {| Role := msg_Role msg; Content := msg_Content msg |}
        :: historyMessages rest userMessageID
      else historyMessages rest userMessageID
  end.

Record Prepared : Type := {
  p_session : ChatSession;
  p_userMessage : ChatMessage;
  p_sources : list gostring;
  p_openAIReq : OpenAIService.OpenAIChatRequest
}.

(** [ProcessChat] up to the call of OpenAI. *)
Definition prepare (env : Env) (s : t) (req : ChatRequest) : M Prepared :=
  session <- getOrCreateSession env (UserID req) (SessionID req) ;;
  userMessage <-
    createMessage env SiteUserMessageCreate (sess_ID session)
                  UserMessage (Message req) MetaEmpty ;;
  knowledgeEntries <-
    catch (KnowledgeService.SearchKnowledgeEntries
             env (knowledgeService s) (Message req) 5)
          (fun r => match r with
                    | Ok l => ret l
                    | Err _ => ret []
                    | Panic e => panic e
                    end) ;;
  let context :=
    map (fun entry => ke_Title entry ++ [newline] ++ ke_Content entry)
        knowledgeEntries in
  let sources := map ke_Title knowledgeEntries in
  d <- get_db ;;
  let recentMessages :=
    match db_fault env SiteRecentMessages with
    | Some _ => []
    | None => recentQuery d (sess_ID session) 10
    end in
  let openAIMessages :=
    historyMessages (rev recentMessages) (msg_ID userMessage)
    ++ [ {| Role := UserMessage; Content := Message req |} ] in
  ret {| p_session := session;
         p_userMessage := userMessage;
         p_sources := sources;
         p_openAIReq :=
           {| OpenAIService.Messages := openAIMessages;
              OpenAIService.Context := context;
              OpenAIService.SessionID := sess_ID session;
              OpenAIService.UseKnowledgeBase :=
                match context with [] => false | _ => true end |} |}.

Definition ProcessChat (env : Env) (s : t) (req : ChatRequest)
  : M ChatResponse :=
  p <- prepare env s req ;;
  response <-
    match openAIService s with
    | Some svc => OpenAIService.ChatCompletion env svc (p_openAIReq p)
    | None => panic "invalid memory address or nil pointer dereference"
    end ;;
  assistantMessage <-
    createMessage env SiteAssistantMessageCreate (sess_ID (p_session p))
                  AssistantMessage (OpenAIService.Message response)
                  MetaEmpty ;;
  ret {| RespMessage := OpenAIService.Message response;
         RespSessionID := sess_ID (p_session p);
         Sources := p_sources p |}.

(** The assembled history of the legacy service. *)
Definition historyOf (p : Prepared) : list RoleContent :=
  removelast (OpenAIService.Messages (p_openAIReq p)).

Definition asHistory (msg : ChatMessage) : RoleContent :=
  {| Role := msg_Role msg; Content := msg_Content msg |}.

End ChatService.

(* ===================================================================== *)
(** * Concrete services, environments and worlds                          *)
(* ===================================================================== *)

Module Scenario.
Import GoStr Base.
Local Open Scope string_scope.
Local Open Scope list_scope.

Definition oai : OpenAIService.t :=
  {| OpenAIService.model := "gpt-4";
     OpenAIService.embeddingModel := "text-embedding-ada-002";
     OpenAIService.maxTokens := 1000 |}.

Definition gem : GeminiService.t :=
  {| GeminiService.model := "gemini-1.5-pro";
     GeminiService.maxTokens := 1000 |}.

Definition vec : VectorService.t :=
  {| VectorService.baseURL := "http://localhost:6333";
     VectorService.collectionName := "knowledge" |}.

Definition knowledge : KnowledgeService.t :=
  {| KnowledgeService.openAIService := Some oai;
     KnowledgeService.vectorService := Some vec |}.

(** The orchestrator as [NewServer] builds it with the default
    configuration. *)
Definition unified : UnifiedAIService.t :=
  UnifiedAIService.NewUnifiedAIService (Some oai) (Some gem) OpenAIProvider.

(** The orchestrator when the Gemini client could not be created. *)
Definition unified_no_gemini : UnifiedAIService.t :=
  UnifiedAIService.NewUnifiedAIService (Some oai) None OpenAIProvider.

Definition enhanced : EnhancedChatService.t :=
  {| EnhancedChatService.unifiedAIService := unified;
     EnhancedChatService.knowledgeService := knowledge |}.

Definition legacy : ChatService.t :=
  {| ChatService.openAIService := Some oai;
     ChatService.knowledgeService := knowledge |}.

(** Every statement succeeds and both providers answer. *)
Definition env_ok : Env :=
  {| db_fault := fun _ => None;
     openai_CreateChatCompletion := fun _ _ => Ok [lit "from openai"];
     gemini_SendMessage := fun _ _ _ _ => Ok [[lit "from gemini"]];
     openai_CreateEmbeddings := fun _ _ => Ok [[1%Z; 2%Z]];
     vector_Store := fun n _ _ _ => Ok (N.of_nat (100 + n)) |}.

(** Both chat providers refuse every request. *)
Definition env_down : Env :=
  {| db_fault := fun _ => None;
     openai_CreateChatCompletion := fun _ _ => Err "status 503";
     gemini_SendMessage := fun _ _ _ _ => Err "status 503";
     openai_CreateEmbeddings := fun _ _ => Ok [[1%Z; 2%Z]];
     vector_Store := fun n _ _ _ => Ok (N.of_nat (100 + n)) |}.

Definition emptyDB : DB :=
  {| sessions := []; messages := []; entries := []; embeddings := [] |}.

Definition emptyWorld : World :=
  {| db := emptyDB; clock := 0; calls := []; journal := [] |}.

Definition hello : RoleContent := {| Role := "user"; Content := lit "hello" |}.

Definition chatRequest (preferred : AIProvider)
  : UnifiedAIService.UnifiedChatRequest :=
  {| UnifiedAIService.Messages := [hello];
     UnifiedAIService.Context := [];
     UnifiedAIService.SessionID := 1%N;
     UnifiedAIService.UseKnowledgeBase := false;
     UnifiedAIService.SystemPrompt := [];
     UnifiedAIService.PreferredProvider := preferred |}.

(** A request that names a session which does not exist. *)
Definition staleRequest : EnhancedChatService.EnhancedChatRequest :=
  {| EnhancedChatService.Message := lit "hello";
     EnhancedChatService.SessionID := Some 42%N;
     EnhancedChatService.UserID := 7%N;
     EnhancedChatService.PreferredProvider := EmptyString;
     EnhancedChatService.SystemPrompt := [] |}.

(** What [prepare] yields for it on the empty database. *)
Definition staleW1 : World :=
  ChatStore.afterSession emptyWorld (ChatStore.sessionMade emptyWorld 7%N).

Definition staleUserMessage : ChatMessage :=
  ChatStore.messageMade staleW1 1%N "user" (lit "hello") MetaEmpty.

Definition staleW2 : World := ChatStore.afterMessage staleW1 staleUserMessage.

Definition staleP : EnhancedChatService.Prepared :=
  EnhancedChatService.preparedFor env_down enhanced staleRequest
    (ChatStore.sessionMade emptyWorld 7%N) staleUserMessage staleW2.

(** A session of user 7 that holds one exchange. *)
Definition firstQuestion : ChatMessage :=
  {| msg_ID := 1%N; msg_SessionID := 1%N; msg_Role := "user";
     msg_Content := lit "first question"; msg_Metadata := MetaEmpty;
     msg_CreatedAt := 1 |}.

Definition firstAnswer : ChatMessage :=
  {| msg_ID := 2%N; msg_SessionID := 1%N; msg_Role := "assistant";
     msg_Content := lit "first answer";
     msg_Metadata := MetaJSON "openai" "openai" [];
     msg_CreatedAt := 2 |}.

Definition talkedWorld : World :=
  {| db := {| sessions := [ {| sess_ID := 1%N; sess_UserID := 7%N;
                               sess_Title := "New Chat";
                               sess_IsActive := true |} ];
              messages := [firstQuestion; firstAnswer];
              entries := [];
              embeddings := [] |};
     clock := 3; calls := []; journal := [] |}.

Definition nextRequest : EnhancedChatService.EnhancedChatRequest :=
  {| EnhancedChatService.Message := lit "second question";
     EnhancedChatService.SessionID := Some 1%N;
     EnhancedChatService.UserID := 7%N;
     EnhancedChatService.PreferredProvider := EmptyString;
     EnhancedChatService.SystemPrompt := [] |}.

Definition nextRequestLegacy : ChatService.ChatRequest :=
  {| ChatService.Message := lit "second question";
     ChatService.SessionID := Some 1%N;
     ChatService.UserID := 7%N |}.

(** Two published entries that hold no underscore. *)
Definition entryA : KnowledgeEntry :=
  {| ke_ID := 1%N; ke_Title := lit "Payment error"; ke_Content := lit "Retry";
     ke_Summary := []; ke_IsPublished := true; ke_Priority := 1%Z;
     ke_ViewCount := 0%Z |}.

Definition entryB : KnowledgeEntry :=
  {| ke_ID := 2%N; ke_Title := lit "Login"; ke_Content := lit "Use SSO";
     ke_Summary := lit "how to log in"; ke_IsPublished := true;
     ke_Priority := 5%Z; ke_ViewCount := 3%Z |}.

(** An entry that is not published. *)
Definition entryC : KnowledgeEntry :=
  {| ke_ID := 3%N; ke_Title := lit "Payment draft"; ke_Content := lit "todo";
     ke_Summary := []; ke_IsPublished := false; ke_Priority := 9%Z;
     ke_ViewCount := 0%Z |}.

Definition libraryWorld : World :=
  {| db := {| sessions := []; messages := [];
              entries := [entryA; entryB; entryC]; embeddings := [] |};
     clock := 0; calls := []; journal := [] |}.

(** A published entry, and the same entry taken back. *)
Definition published : KnowledgeEntry :=
  {| ke_ID := 1%N; ke_Title := lit "Alpha"; ke_Content := lit "Beta Gamma";
     ke_Summary := []; ke_IsPublished := true; ke_Priority := 0%Z;
     ke_ViewCount := 0%Z |}.

Definition unpublished : KnowledgeEntry :=
  {| ke_ID := 1%N; ke_Title := lit "Alpha"; ke_Content := lit "Beta Gamma";
     ke_Summary := []; ke_IsPublished := false; ke_Priority := 0%Z;
     ke_ViewCount := 0%Z |}.

(** The world after the published entry has been created. *)
Definition publishedWorld : World :=
  snd (KnowledgeService.CreateKnowledgeEntry env_ok knowledge published
         emptyWorld).

(** A published entry whose combined text needs two chunks of 1000
    bytes. *)
Definition longEntry : KnowledgeEntry :=
  {| ke_ID := 0%N; ke_Title := lit "Alpha";
     ke_Content := List.concat (repeat (lit "Beta Gamma ") 120);
     ke_Summary := lit "Greek letters"; ke_IsPublished := true;
     ke_Priority := 0%Z; ke_ViewCount := 0%Z |}.

End Scenario.

(* ===================================================================== *)
(** * Part I, continued: further services and helpers                     *)
(* ===================================================================== *)

From Stdlib Require Import DecimalNat.

Module WorldOps.
Import Base.
Local Open Scope list_scope.




End WorldOps.

(* ===================================================================== *)
(** * The shape of the chunks of ChunkText                                *)
(* ===================================================================== *)

Module ChunkShape.
Import GoStr Chunker.
Local Open Scope list_scope.
Local Open Scope Z_scope.

(** [strings.Join(words, " ")]: what the builder of ChunkText holds after
    it has taken [words]. *)
Fixpoint joinSpace (words : list gostring) : gostring :=
  match words with
  | [] => []
  | [w] => w
  | w :: rest => w ++ space :: joinSpace rest
  end.

(** The chunk size that ChunkText works with. *)
Definition effectiveSize (maxChunkSize : Z) : Z :=
  if maxChunkSize <=? 0 then 1000 else maxChunkSize.

(** Consecutive groups of words such that the first word of a group did
    not fit into the group before it. *)
Fixpoint greedy (n : Z) (groups : list (list gostring)) : Prop :=
  match groups with
  | g :: ((next :: _) as rest) =>
      match next with
      | w :: _ => n < Len (joinSpace g) + Len w + 1
      | [] => False
      end
      /\ greedy n rest
  | _ => True
  end.

(** The state of the loop after the words [seen]: the emitted chunks and
    the builder are groups of the words seen, each joined by single
    spaces, each within the size or a single word, and a group was closed
    only when the next word did not fit. *)
Definition grouped (n : Z) (seen : list gostring) (st : chunk_state) : Prop :=
  let '(chunks, cur) := st in
  (seen = [] /\ chunks = [] /\ cur = [])
  \/ exists gs g,
       g <> [] /\ List.concat gs ++ g = seen
       /\ chunks = map joinSpace gs /\ cur = joinSpace g
       /\ Forall (fun g => g <> []
                           /\ (Len (joinSpace g) <= n \/ exists w, g = [w]))
                 (gs ++ [g])
       /\ greedy n (gs ++ [g]).

End ChunkShape.

(* ===================================================================== *)
(** * Sequences of knowledge operations and their requests                *)
(* ===================================================================== *)

Module KnowledgeOps.
Import GoStr Base Chunker WorldOps.
Local Open Scope list_scope.

(** A call of one of the three writing operations of KnowledgeService,
    with the environment that it runs in. *)
Inductive Op : Type :=
| OpCreate (env : Env) (entry : KnowledgeEntry)
| OpUpdate (env : Env) (entry : KnowledgeEntry)
| OpDelete (env : Env) (id : uuid).

Definition runOp (s : KnowledgeService.t) (w : World) (op : Op) : World :=
  match op with
  | OpCreate env entry =>
      snd (KnowledgeService.CreateKnowledgeEntry env s entry w)
  | OpUpdate env entry =>
      snd (KnowledgeService.UpdateKnowledgeEntry env s entry w)
  | OpDelete env id =>
      snd (KnowledgeService.DeleteKnowledgeEntry env s id w)
  end.

(** The calls one after the other. *)
Definition runOps (s : KnowledgeService.t) (ops : list Op) (w : World)
  : World :=
  fold_left (runOp s) ops w.






(** Every statement but the commit succeeds and the remote services
    answer. *)
Definition env_commit_fails : Env :=
  {| db_fault := fun site =>
       match site with
       | SiteCommit => Some "commit failed"%string
       | _ => None
       end;
     openai_CreateChatCompletion := fun _ _ => Ok [lit "from openai"];
     gemini_SendMessage := fun _ _ _ _ => Ok [[lit "from gemini"]];
     openai_CreateEmbeddings := fun _ _ => Ok [[1%Z; 2%Z]];
     vector_Store := fun n _ _ _ => Ok (N.of_nat (100 + n)) |}.

End KnowledgeOps.

(* ===================================================================== *)
(** * Requests to the orchestrator, for the properties below              *)
(* ===================================================================== *)

Module UnifiedRequests.
Import GoStr Base.
Local Open Scope string_scope.
Local Open Scope list_scope.

(** A request without messages that prefers a provider. *)
Definition emptyRequest (preferred : AIProvider)
  : UnifiedAIService.UnifiedChatRequest :=
  {| UnifiedAIService.Messages := [];
     UnifiedAIService.Context := [];
     UnifiedAIService.SessionID := 1%N;
     UnifiedAIService.UseKnowledgeBase := false;
     UnifiedAIService.SystemPrompt := [];
     UnifiedAIService.PreferredProvider := preferred |}.

(** The same chat request with another system prompt. *)
Definition withSystemPrompt (req : EnhancedChatService.EnhancedChatRequest)
    (prompt : gostring) : EnhancedChatService.EnhancedChatRequest :=
  {| EnhancedChatService.Message := EnhancedChatService.Message req;
     EnhancedChatService.SessionID := EnhancedChatService.SessionID req;
     EnhancedChatService.UserID := EnhancedChatService.UserID req;
     EnhancedChatService.PreferredProvider :=
       EnhancedChatService.PreferredProvider req;
     EnhancedChatService.SystemPrompt := prompt |}.

(** The chat service with OpenAI only. *)
Definition enhanced_no_gemini : EnhancedChatService.t :=
  {| EnhancedChatService.unifiedAIService := Scenario.unified_no_gemini;
     EnhancedChatService.knowledgeService := Scenario.knowledge |}.

(** A Gemini request with a history of three turns. *)
Definition geminiRequest : GeminiService.GeminiChatRequest :=
  {| GeminiService.Messages :=
       [ {| Role := "system"; Content := lit "be brief" |};
         {| Role := "User"; Content := lit "hi" |};
         {| Role := "assistant"; Content := lit "hello" |};
         {| Role := "assistant"; Content := lit "are you there" |} ];
     GeminiService.Context := [];
     GeminiService.SessionID := 1%N;
     GeminiService.UseKnowledgeBase := false;
     GeminiService.SystemPrompt := [] |}.

(** The label that [convertRole] gives a turn: "model" for "assistant"
    and "model" in any letter case, "user" for everything else. *)
Definition isModelRole (role : string) : bool :=
  String.eqb (GeminiService.ToLower role) "assistant"
  || String.eqb (GeminiService.ToLower role) "model".

End UnifiedRequests.

(* ===================================================================== *)
(** * KnowledgeService.GetKnowledgeEntryByID                              *)
(* ===================================================================== *)

Module KnowledgeReads.
Import GoStr Base.
Local Open Scope list_scope.
Local Open Scope Z_scope.

(** Where the statements of a read are issued. *)
Inductive ReadSite : Type :=
| SiteEntryFind
| SiteViewCountUpdate.

(** Which of them fails, with what error. *)
Definition ReadFaults := ReadSite -> option string.

(** The largest value of the [bigint] column that holds [view_count]. *)
Definition maxViewCount : Z := 2 ^ 63 - 1.

Definition with_ViewCount (e : KnowledgeEntry) (n : Z) : KnowledgeEntry :=
  {| ke_ID := ke_ID e;
     ke_Title := ke_Title e;
     ke_Content := ke_Content e;
     ke_Summary := ke_Summary e;
     ke_IsPublished := ke_IsPublished e;
     ke_Priority := ke_Priority e;
     ke_ViewCount := n |}.

Definition with_entries (d : DB) (l : list KnowledgeEntry) : DB :=
  {| sessions := sessions d; messages := messages d; entries := l;
     embeddings := embeddings d |}.

(** [s.db.Model(&entry).Update("view_count", gorm.Expr("view_count + ?", 1))]:
    the rows with the identifier of [entry] get their count raised by
    one; the statement fails as a whole when a count would leave the
    column.  The result of the statement is not looked at. *)
Definition incrementViewCount (fault : ReadFaults) (id : uuid) (d : DB)
  : DB :=
  match fault SiteViewCountUpdate with
  | Some _ => d
  | None =>
      if existsb (fun e => N.eqb (ke_ID e) id
                           && (maxViewCount <=? ke_ViewCount e))
                 (entries d)
      then d
      else with_entries d
             (map (fun e => if N.eqb (ke_ID e) id
                            then with_ViewCount e (ke_ViewCount e + 1)
                            else e)
                  (entries d))
  end.

(** [First(&entry, "id = ?", id)], then the increment; the entry is
    returned as it was read. *)
Definition GetKnowledgeEntryByID (fault : ReadFaults) (id : uuid) (d : DB)
  : Result KnowledgeEntry * DB :=
  match fault SiteEntryFind with
  | Some e => (Err e, d)
  | None =>
      match find (fun e => N.eqb (ke_ID e) id) (entries d) with
      | None => (Err "record not found", d)
      | Some entry => (Ok entry, incrementViewCount fault (ke_ID entry) d)
      end
  end.

(** [n] reads of the same entry, one after the other: the entries
    returned, oldest first, and the database after the last read. *)
Fixpoint readTimes (fault : ReadFaults) (id : uuid) (n : nat) (d : DB)
  : list (Result KnowledgeEntry) * DB :=
  match n with
  | O => ([], d)
  | S n' =>
      let '(r, d1) := GetKnowledgeEntryByID fault id d in
      let '(rs, d2) := readTimes fault id n' d1 in
      (r :: rs, d2)
  end.

(** Two rows that differ at most in the view count. *)
Definition sameButViews (a b : KnowledgeEntry) : Prop :=
  ke_ID a = ke_ID b /\ ke_Title a = ke_Title b
  /\ ke_Content a = ke_Content b /\ ke_Summary a = ke_Summary b
  /\ ke_IsPublished a = ke_IsPublished b /\ ke_Priority a = ke_Priority b.

Definition noFaults : ReadFaults := fun _ => None.

End KnowledgeReads.

Module ReadScenario.
Import GoStr Base KnowledgeReads.
Local Open Scope list_scope.

Definition seen (id : uuid) (views : Z) : KnowledgeEntry :=
  {| ke_ID := id;
     ke_Title := lit "Opening hours";
     ke_Content := lit "Monday to Friday";
     ke_Summary := [];
     ke_IsPublished := true;
     ke_Priority := 0%Z;
     ke_ViewCount := views |}.

Definition library : DB :=
  {| sessions := []; messages := [];
     entries := [seen 4%N 0%Z; seen 7%N 5%Z];
     embeddings := [] |}.

End ReadScenario.

(* ===================================================================== *)
(** * The knowledge routes of the API server                              *)
(* ===================================================================== *)

Module Strconv.
Import GoStr.
Local Open Scope Z_scope.

(** The range of [int]. *)
Definition minInt : Z := - 2 ^ 63.
Definition maxInt : Z := 2 ^ 63 - 1.

Definition digit (r : rune) : option Z :=
  if ((48 <=? r) && (r <=? 57))%N then Some (Z.of_N r - 48) else None.

Fixpoint digits (acc : Z) (s : gostring) : option Z :=
  match s with
  | [] => Some acc
  | r :: s' =>
      match digit r with
      | Some d => digits (acc * 10 + d) s'
      | None => None
      end
  end.

(** [strconv.Atoi]: an optional sign and then decimal digits, at least
    one.  [None] stands for the error, which is returned for any other
    text and for a number outside [int]. *)
Definition Atoi (s : gostring) : option Z :=
  let '(negative, ds) :=
    match s with
    | r :: t =>
        if (r =? 43)%N then (false, t)
        else if (r =? 45)%N then (true, t)
        else (false, s)
    | [] => (false, s)
    end in
  match ds with
  | [] => None
  | _ =>
      match digits 0 ds with
      | None => None
      | Some n =>
          let v := if negative then - n else n in
          if (minInt <=? v) && (v <=? maxInt) then Some v else None
      end
  end.

End Strconv.

Module KnowledgeRoutes.
Import GoStr Base KnowledgeReads.
Local Open Scope string_scope.
Local Open Scope list_scope.
Local Open Scope Z_scope.

(** What a route sends back: the status and the JSON body. *)
Inductive Body : Type :=
| ErrorBody (error : string)
| EntriesBody (l : list KnowledgeEntry)
| EntryBody (e : KnowledgeEntry)
| NoBody.

Record Response : Type := {
  Status : Z;
  Json : Body
}.

(** [c.Query(key, defaultValue)], applied to the value of the parameter
    in the request, which is empty when the parameter is missing. *)
Definition Query (value defaultValue : gostring) : gostring :=
  if isEmpty value then defaultValue else value.

(** The limit that [searchKnowledgeEntries] hands to the service. *)
Definition searchLimit (limitParam : gostring) : Z :=
  let limitStr := Query limitParam (lit "10") in
  match Strconv.Atoi limitStr with
  | Some limit => if limit <=? 0 then 10 else limit
  | None => 10
  end.

Definition searchKnowledgeEntries (env : Env) (s : KnowledgeService.t)
    (q limitParam : gostring) : M Response :=
  if isEmpty q then
    ret {| Status := 400;
           Json := ErrorBody "Query parameter 'q' is required" |}
  else
    let limit := searchLimit limitParam in
    catch (KnowledgeService.SearchKnowledgeEntries env s q limit)
      (fun r =>
         match r with
         | Ok entries => ret {| Status := 200; Json := EntriesBody entries |}
         | _ => ret {| Status := 500;
                       Json := ErrorBody "Failed to search knowledge entries" |}
         end).

Section ByID.

(** [uuid.Parse]; [None] stands for its error. *)
Variable uuid_Parse : gostring -> option uuid.

Definition getKnowledgeEntry (fault : ReadFaults) (idStr : gostring)
    (d : DB) : Response * DB :=
  match uuid_Parse idStr with
  | None =>
      ({| Status := 400; Json := ErrorBody "Invalid knowledge entry ID" |}, d)
  | Some id =>
      match GetKnowledgeEntryByID fault id d with
      | (Ok entry, d') => ({| Status := 200; Json := EntryBody entry |}, d')
      | (_, d') =>
          ({| Status := 404; Json := ErrorBody "Knowledge entry not found" |},
           d')
      end
  end.

Definition deleteKnowledgeEntry (env : Env) (s : KnowledgeService.t)
    (idStr : gostring) (w : World) : Response * World :=
  match uuid_Parse idStr with
  | None =>
      ({| Status := 400; Json := ErrorBody "Invalid knowledge entry ID" |}, w)
  | Some id =>
      match KnowledgeService.DeleteKnowledgeEntry env s id w with
      | ((Some _, _), w') =>
          ({| Status := 500;
              Json := ErrorBody "Failed to delete knowledge entry" |}, w')
      | ((None, _), w') => ({| Status := 204; Json := NoBody |}, w')
      end
  end.

End ByID.

(** No statement of a delete fails. *)
Definition deleteWorks (env : Env) : Prop :=
  db_fault env SiteEmbeddingsDelete = None
  /\ db_fault env SiteEntryDelete = None
  /\ db_fault env SiteCommit = None.

End KnowledgeRoutes.

Module RouteScenario.
Import GoStr Base.
Local Open Scope list_scope.

(** A reading of identifiers that knows one of them. *)
Definition parseSeven (s : gostring) : option uuid :=
  if gostring_eqb s (lit "00000000-0000-0000-0000-000000000007")
  then Some 7%N else None.

End RouteScenario.

(* ===================================================================== *)
(** * More of [strings] and [unicode/utf8]                                *)
(* ===================================================================== *)

Module Strings.
Import GoStr.
Local Open Scope list_scope.

Definition comma : rune := 44%N.

(** [strings.Split(s, sep)] for a separator of one rune. *)
Fixpoint splitRune (sep : rune) (s : gostring) : list gostring :=
  match s with
  | [] => [[]]
  | r :: s' =>
      if N.eqb r sep then [] :: splitRune sep s'
      else match splitRune sep s' with
           | w :: ws => (r :: w) :: ws
           | [] => [[r]]
           end
  end.

(** [strings.Split(s, "\n\n")]: the text is cut at each pair of
    newlines, read from the left. *)
Fixpoint splitBlank (s : gostring) : list gostring :=
  match s with
  | [] => [[]]
  | r :: s' =>
      match s' with
      | r' :: s'' =>
          if N.eqb r newline && N.eqb r' newline then [] :: splitBlank s''
          else match splitBlank s' with
               | w :: ws => (r :: w) :: ws
               | [] => [[r]]
               end
      | [] => [[r]]
      end
  end.

(** [strings.Join] *)
Fixpoint Join (elems : list gostring) (sep : gostring) : gostring :=
  match elems with
  | [] => []
  | [a] => a
  | a :: rest => a ++ sep ++ Join rest sep
  end.

(** A text without white space at either end. *)
Definition trimmed (s : gostring) : bool :=
  match s with
  | [] => true
  | r :: _ => negb (IsSpace r) && negb (IsSpace (last s r))
  end.

End Strings.

Module Utf8.
Import GoStr.
Local Open Scope list_scope.

Definition bytes := list N.

(** The UTF-8 encoding of a rune. *)
Definition encodeRune (r : rune) : bytes :=
  if (r <? 128)%N then [r]
  else if (r <? 2048)%N then [192 + r / 64; 128 + r mod 64]%N
  else if (r <? 65536)%N then
         [224 + r / 4096; 128 + (r / 64) mod 64; 128 + r mod 64]%N
  else [240 + r / 262144; 128 + (r / 4096) mod 64; 128 + (r / 64) mod 64;
        128 + r mod 64]%N.

(** The bytes of a string. *)
Definition encode (s : gostring) : bytes := flat_map encodeRune s.

(** [s[:n]] for [0 <= n <= len(s)]: the runes that lie within the first
    [n] bytes, and the bytes that are left of the rune that the cut goes
    through. *)
Fixpoint cut (n : Z) (s : gostring) : gostring * bytes :=
  match s with
  | [] => ([], [])
  | r :: s' =>
      if (RuneLen r <=? n)%Z then
        let '(whole, broken) := cut (n - RuneLen r) s' in (r :: whole, broken)
      else ([], firstn (Z.to_nat n) (encodeRune r))
  end.

(** [strings.TrimSpace] of such a prefix.  The bytes of a cut rune do
    not decode to a rune, so they are not white space and end the
    trimming on the right. *)
Definition trimCut (c : gostring * bytes) : gostring * bytes :=
  match snd c with
  | [] => (TrimSpace (fst c), [])
  | _ => (dropSpace (fst c), snd c)
  end.

Definition bytesOf (c : gostring * bytes) : bytes := encode (fst c) ++ snd c.

End Utf8.

(* ===================================================================== *)
(** * Titles, summaries and keywords                                      *)
(* ===================================================================== *)

Module GeminiText.
Import GoStr Base Strings.
Local Open Scope string_scope.
Local Open Scope list_scope.
Local Open Scope Z_scope.

(** A candidate of a response: its content, which is a nil pointer or
    holds parts, each given as [%v] prints it. *)
Definition Candidate := option (list gostring).

Definition titlePrompt (content : gostring) : Utf8.bytes :=
  Utf8.encode
    (lit "Generate a concise, descriptive title (maximum 10 words) for the following content:"
     ++ [newline; newline])
  ++ Utf8.bytesOf (Utf8.cut (Z.min (Len content) 500) content)
  ++ Utf8.encode ([newline; newline] ++ lit "Title:").

Definition summaryPrompt (content : gostring) : Utf8.bytes :=
  Utf8.encode
    (lit "Provide a concise summary (2-3 sentences) of the following content:"
     ++ [newline; newline] ++ content ++ [newline; newline]
     ++ lit "Summary:").

Definition keywordsPrompt (content : gostring) : Utf8.bytes :=
  Utf8.encode
    (lit "Extract 5-10 relevant keywords or phrases from the following content. Return them as a comma-separated list:"
     ++ [newline; newline])
  ++ Utf8.bytesOf (Utf8.cut (Z.min (Len content) 1000) content)
  ++ Utf8.encode ([newline; newline] ++ lit "Keywords:").

(** The loop of [ExtractKeywords] over the answer. *)
Definition cleanKeywords (keywordsText : gostring) : list gostring :=
  filter (fun cleaned => negb (isEmpty cleaned))
         (map TrimSpace (splitRune comma keywordsText)).

Section Generate.

(** [model.GenerateContent(ctx, genai.Text(prompt))] *)
Variable GenerateContent : Utf8.bytes -> Result (list Candidate).

(** The request and the reading of the first part of the first
    candidate, which the three functions have in common. *)
Definition firstPart (failed none : string) (prompt : Utf8.bytes)
  : Result gostring :=
  match GenerateContent prompt with
  | Err e => Err (failed ++ ": " ++ e)
  | Panic e => Panic e
  | Ok [] => Err none
  | Ok (None :: _) =>
      Panic "invalid memory address or nil pointer dereference"
  | Ok (Some [] :: _) => Err none
  | Ok (Some (part :: _) :: _) => Ok (TrimSpace part)
  end.

Definition GenerateTitle (content : gostring) : Result gostring :=
  firstPart "failed to generate title" "no title generated"
            (titlePrompt content).

Definition SummarizeContent (content : gostring) : Result gostring :=
  firstPart "failed to generate summary" "no summary generated"
            (summaryPrompt content).

Definition ExtractKeywords (content : gostring) : Result (list gostring) :=
  match firstPart "failed to extract keywords" "no keywords generated"
                  (keywordsPrompt content) with
  | Ok keywordsText => Ok (cleanKeywords keywordsText)
  | Err e => Err e
  | Panic e => Panic e
  end.

End Generate.

(** A keyword as the loop keeps it. *)
Definition isKeyword (k : gostring) : Prop :=
  k <> [] /\ TrimSpace k = k /\ ~ In comma k.

End GeminiText.

Module UnifiedText.
Import GoStr Base.
Local Open Scope string_scope.
Local Open Scope list_scope.
Local Open Scope Z_scope.

Section Generate.

Variable GenerateContent : Utf8.bytes -> Result (list GeminiText.Candidate).

(** [fmt.Sprintf("%.50s", content)] keeps the first 50 runes. *)
Definition GenerateTitle (s : UnifiedAIService.t) (content : gostring)
  : Result gostring :=
  match UnifiedAIService.geminiService s with
  | Some _ => GeminiText.GenerateTitle GenerateContent content
  | None =>
      let words := firstn 50 content in
      Ok (if 50 <? Len content then words ++ lit "..." else words)
  end.

Definition SummarizeContent (s : UnifiedAIService.t) (content : gostring)
  : Result gostring :=
  match UnifiedAIService.geminiService s with
  | Some _ => GeminiText.SummarizeContent GenerateContent content
  | None =>
      let summary := firstn 200 content in
      Ok (if 200 <? Len content then summary ++ lit "..." else summary)
  end.

Definition ExtractKeywords (s : UnifiedAIService.t) (content : gostring)
  : Result (list gostring) :=
  match UnifiedAIService.geminiService s with
  | Some _ => GeminiText.ExtractKeywords GenerateContent content
  | None => Ok [lit "content"; lit "document"]
  end.

End Generate.

End UnifiedText.

(* ===================================================================== *)
(** * DocumentService: the sections of a document                         *)
(* ===================================================================== *)

Module DocumentService.
Import GoStr Base Strings.
Local Open Scope string_scope.
Local Open Scope list_scope.
Local Open Scope Z_scope.

(** The title is kept as bytes: [generateSectionTitle] can cut a rune. *)
Record DocumentSection : Type := {
  Title : Utf8.bytes;
  Content : gostring;
  Order : Z;
  WordCount : Z
}.

Definition maxSectionLength : Z := 2000.
Definition minSectionLength : Z := 100.

(** [%d] *)
Definition decimalZ (n : Z) : gostring :=
  if n <? 0 then 45%N :: OpenAIService.decimal (Z.to_nat (- n))
  else OpenAIService.decimal (Z.to_nat n).

(** The loop over the lines: the first one that, trimmed, is longer than
    10 and shorter than 100 bytes. *)
Fixpoint firstTitleLine (lines : list gostring) : option gostring :=
  match lines with
  | [] => None
  | line :: rest =>
      let line := TrimSpace line in
      if (10 <? Len line) && (Len line <? 100) then Some line
      else firstTitleLine rest
  end.

Definition generateSectionTitle (content : gostring) (order : Z)
  : Utf8.bytes :=
  match firstTitleLine (splitRune newline content) with
  | Some line => Utf8.encode line
  | None =>
      if 50 <? Len content then
        Utf8.bytesOf (Utf8.trimCut (Utf8.cut 50 content))
        ++ Utf8.encode (lit "...")
      else Utf8.encode (lit "Section " ++ decimalZ (order + 1))
  end.

Definition newSection (currentSection : gostring) (sectionOrder : Z)
  : DocumentSection :=
  {| Title := generateSectionTitle currentSection sectionOrder;
     Content := TrimSpace currentSection;
     Order := sectionOrder;
     WordCount := Z.of_nat (List.length (Fields currentSection)) |}.

(** The variables of the loop over the paragraphs. *)
Record split_state : Type := {
  sections : list DocumentSection;
  currentSection : gostring;
  sectionOrder : Z
}.

(** One round of the loop. *)
Definition split_step (st : split_state) (paragraph : gostring)
  : split_state :=
  let paragraph := TrimSpace paragraph in
  if isEmpty paragraph then st
  else
    let st :=
      if (maxSectionLength <? Len (currentSection st) + Len paragraph)
         && (minSectionLength <? Len (currentSection st))
      then
        if negb (isEmpty (currentSection st)) then
          {| sections := sections st
                         ++ [newSection (currentSection st) (sectionOrder st)];
             currentSection := [];
             sectionOrder := sectionOrder st + 1 |}
        else st
      else st in
    let currentSection :=
      if negb (isEmpty (currentSection st))
      then currentSection st ++ [newline; newline]
      else currentSection st in
    {| sections := sections st;
       currentSection := currentSection ++ paragraph;
       sectionOrder := sectionOrder st |}.

Definition splitIntoSections (content : gostring) : list DocumentSection :=
  let paragraphs := splitBlank content in
  let st :=
    fold_left split_step paragraphs
              {| sections := []; currentSection := []; sectionOrder := 0 |} in
  let sections :=
    if negb (isEmpty (currentSection st))
       && (minSectionLength <? Len (currentSection st))
    then sections st ++ [newSection (currentSection st) (sectionOrder st)]
    else sections st in
  if (Z.of_nat (List.length sections) =? 0) && negb (isEmpty content)
  then sections
       ++ [ {| Title := Utf8.encode (lit "Document Content");
               Content := content;
               Order := 0;
               WordCount := Z.of_nat (List.length (Fields content)) |} ]
  else sections.

(** The one section that holds a whole document. *)
Definition wholeDocument (content : gostring) : DocumentSection :=
  {| Title := Utf8.encode (lit "Document Content");
     Content := content;
     Order := 0;
     WordCount := Z.of_nat (List.length (Fields content)) |}.

(** The words of the sections, in order. *)
Definition sectionWords (l : list DocumentSection) : list gostring :=
  List.concat (map (fun s => Fields (Content s)) l).

(** A paragraph: a trimmed text that is not empty and holds no blank
    line. *)
Definition isParagraph (p : gostring) : Prop :=
  p <> [] /\ trimmed p = true /\ splitBlank p = [p].

(** A section as the loop makes it. *)
Definition regular (s : DocumentSection) : Prop :=
  WordCount s = Z.of_nat (List.length (Fields (Content s)))
  /\ minSectionLength < Len (Content s)
  /\ trimmed (Content s) = true
  /\ (0 < List.length (Title s) <= 99)%nat.

(** What the loop keeps true, [seen] being the paragraphs read. *)
Definition splitting (seen : list gostring) (st : split_state) : Prop :=
  map Order (sections st) = map Z.of_nat (seq 0 (List.length (sections st)))
  /\ sectionOrder st = Z.of_nat (List.length (sections st))
  /\ Forall regular (sections st)
  /\ trimmed (currentSection st) = true
  /\ sectionWords (sections st) ++ Fields (currentSection st)
     = List.concat (map Fields seen).

End DocumentService.

Module SectionScenario.
Import GoStr.
Local Open Scope list_scope.

(** A paragraph of 2000 letters and the line that follows it. *)
Definition body : gostring := repeat 97%N 2000.
Definition closing : gostring := lit "Call the help desk.".

End SectionScenario.

(* ===================================================================== *)
(** * The helpers of [internal/utils]                                     *)
(* ===================================================================== *)

Module Utils.
Import GoStr Base Strings.
Local Open Scope string_scope.
Local Open Scope list_scope.
Local Open Scope Z_scope.

(** Arithmetic on [int] wraps around. *)
Definition wrapInt (z : Z) : Z :=
  (z - Strconv.minInt) mod 2 ^ 64 + Strconv.minInt.

(** ** response.go *)




(** ** text.go *)

(** [TruncateString]; the result is given in bytes, since the cut can go
    through a rune. *)
Definition TruncateString (s : gostring) (length : Z) : Result Utf8.bytes :=
  if Len s <=? length then Ok (Utf8.encode s)
  else if length <? 0 then Panic "runtime error: slice bounds out of range"
  else Ok (Utf8.bytesOf (Utf8.cut length s) ++ Utf8.encode (lit "...")).

Definition SliceContains (slice : list gostring) (item : gostring) : bool :=
  existsb (gostring_eqb item) slice.






Fixpoint dropCutset (cutset : gostring) (s : gostring) : gostring :=
  match s with
  | [] => []
  | r :: s' => if existsb (N.eqb r) cutset then dropCutset cutset s' else s
  end.

(** [strings.Trim] *)
Definition Trim (s cutset : gostring) : gostring :=
  rev (dropCutset cutset (rev (dropCutset cutset s))).

Definition stopWords : list gostring :=
  map lit
    [ "the"; "a"; "an"; "and"; "or";
      "but"; "in"; "on"; "at"; "to";
      "for"; "of"; "with"; "by"; "is";
      "are"; "was"; "were"; "be"; "been";
      "have"; "has"; "had"; "do"; "does";
      "did"; "will"; "would"; "could"; "should" ].

(** The loop of [ExtractKeywords]; [keywords] holds the keys of the
    map. *)
Fixpoint keywordLoop (maxKeywords : Z) (words : list gostring)
    (keywords result : list gostring) : list gostring :=
  match words with
  | [] => result
  | word :: rest =>
      let word := Trim word (lit ".,!?;:") in
      if (2 <? Len word) && negb (SliceContains stopWords word)
         && negb (SliceContains keywords word)
      then
        let keywords := word :: keywords in
        let result := result ++ [word] in
        if maxKeywords <=? Z.of_nat (List.length result) then result
        else keywordLoop maxKeywords rest keywords result
      else keywordLoop maxKeywords rest keywords result
  end.

Section Unicode.

(** [unicode.ToLower] and [unicode.IsPrint] *)
Variable unicode_ToLower : rune -> rune.
Variable unicode_IsPrint : rune -> bool.

Definition SanitizeString (s : gostring) : gostring :=
  TrimSpace (filter unicode_IsPrint s).

Definition ExtractKeywords (text : gostring) (maxKeywords : Z)
  : list gostring :=
  let words := Fields (map unicode_ToLower text) in
  keywordLoop maxKeywords words [] [].

End Unicode.

(** A word that [ExtractKeywords] can keep. *)
Definition keepable (word : gostring) : Prop :=
  2 < Len word /\ ~ In word stopWords.

End Utils.

(* ===================================================================== *)
(** * OpenAIAssistantService                                              *)
(* ===================================================================== *)

Module OpenAIAssistant.
Import GoStr Base.
Local Open Scope string_scope.
Local Open Scope list_scope.
Local Open Scope Z_scope.

(** [time.Second], in the nanoseconds of [time.Duration]. *)
Definition Second : Z := 1000000000.

(** [openai.Message], as far as it is read. *)
Record MessageContentIn : Type := {
  in_Type : string;
  in_Value : gostring;
  in_Annotations : list gostring
}.

Record Message : Type := {
  msg_ID : gostring;
  msg_Role : string;
  msg_Content : list MessageContentIn;
  msg_CreatedAt : Z;
  msg_RunID : option gostring;
  msg_Metadata : list (gostring * gostring)
}.

Record MessageTextData : Type := {
  Value : gostring;
  Annotations : list gostring
}.

Record MessageContent : Type := {
  Type_ : string;
  Text : MessageTextData
}.

Record AssistantMessage : Type := {
  ID : gostring;
  Role : string;
  Content : list MessageContent;
  CreatedAt : Z;
  RunID : gostring;
  Metadata : list (gostring * gostring)
}.

Record ChatAssistantRequest : Type := {
  req_Message : gostring;
  req_AssistantID : gostring;
  req_ThreadID : gostring;
  req_TimeoutSeconds : Z
}.

Record ChatAssistantResponse : Type := {
  resp_ThreadID : gostring;
  resp_RunID : gostring;
  resp_Messages : list AssistantMessage;
  resp_Status : string;
  resp_TimeoutSeconds : Z
}.

(** The Assistants API.  The [n]-th retrieval of a run gives a status
    or an error and takes some time, in nanoseconds. *)
Record Client : Type := {
  CreateMessage : gostring -> gostring -> Result gostring;
  CreateRun : gostring -> gostring -> Result gostring;
  RetrieveRun : nat -> gostring -> gostring -> Result string * N;
  ListMessage : gostring -> Z -> string -> Result (list Message)
}.

Record t : Type := {
  client : Client;
  threadID : gostring
}.

(** The clock and the number of retrievals made. *)
Record Timeline : Type := {
  now : Z;
  retrievals : nat
}.

Definition getRunStatus (s : t) (threadID runID : gostring) (tl : Timeline)
  : Result string * Timeline :=
  let '(run, taken) := RetrieveRun (client s) (retrievals tl) threadID runID in
  let tl' := {| now := now tl + Z.of_N taken;
                retrievals := S (retrievals tl) |} in
  match run with
  | Ok status => (Ok status, tl')
  | Err e => (Err ("failed to retrieve run: " ++ e), tl')
  | Panic e => (Panic e, tl')
  end.

(** The loop of [WaitForRunCompletion], for at most [fuel] tests of the
    deadline.  The result is the pair that the function returns, the
    status and the error. *)
Fixpoint waitLoop (fuel : nat) (s : t) (threadID runID : gostring)
    (deadline : Z) (tl : Timeline)
  : option (Result (string * option string) * Timeline) :=
  match fuel with
  | O => None
  | S fuel' =>
      if now tl <? deadline then
        match getRunStatus s threadID runID tl with
        | (Err e, tl1) => Some (Ok (EmptyString, Some e), tl1)
        | (Panic e, tl1) => Some (Panic e, tl1)
        | (Ok status, tl1) =>
            if String.eqb status "completed" then
              Some (Ok (status, None), tl1)
            else if String.eqb status "failed"
                    || String.eqb status "cancelled"
                    || String.eqb status "expired" then
              Some (Ok (status,
                        Some ("run finished with status: " ++ status)%string), tl1)
            else if String.eqb status "requires_action" then
              Some (Ok (status,
                        Some "run requires action, please handle manually"),
                    tl1)
            else
              let tl2 := {| now := now tl1 + 11 * Second;
                            retrievals := retrievals tl1 |} in
              waitLoop fuel' s threadID runID deadline tl2
        end
      else
        Some (Ok (EmptyString, Some "timeout waiting for run completion"), tl)
  end.

(** Tests of the deadline that a wait of [timeout] can take: every
    round but the last one sleeps 11 seconds. *)
Definition rounds (timeout : Z) : nat := Z.to_nat (timeout / (11 * Second)) + 2.

Definition WaitForRunCompletion (s : t) (threadID runID : gostring)
    (timeout : Z) (tl : Timeline)
  : option (Result (string * option string) * Timeline) :=
  let deadline := now tl + timeout in
  waitLoop (rounds timeout) s threadID runID deadline tl.

Definition convertToAssistantMessage (msg : Message) : AssistantMessage :=
  let content :=
    map (fun msgContent =>
           if String.eqb (in_Type msgContent) "text" then
             {| Type_ := "text";
                Text := {| Value := in_Value msgContent;
                           Annotations := in_Annotations msgContent |} |}
           else
             {| Type_ := in_Type msgContent;
                Text := {| Value := []; Annotations := [] |} |})
        (msg_Content msg) in
  let runID := match msg_RunID msg with Some id => id | None => [] end in
  {| ID := msg_ID msg;
     Role := msg_Role msg;
     Content := content;
     CreatedAt := msg_CreatedAt msg;
     RunID := runID;
     Metadata := msg_Metadata msg |}.

Definition belongsTo (runID : gostring) (msg : Message) : bool :=
  match msg_RunID msg with
  | Some id => gostring_eqb id runID
  | None => false
  end.

Definition getMessagesWithRunID (s : t) (threadID runID : gostring)
  : Result (list AssistantMessage) :=
  match ListMessage (client s) threadID 100 "desc" with
  | Err e => Err ("failed to list messages: " ++ e)
  | Panic e => Panic e
  | Ok messages =>
      Ok (map convertToAssistantMessage (filter (belongsTo runID) messages))
  end.

Definition addMessageToThread (s : t) (threadID content : gostring)
  : Result gostring :=
  match CreateMessage (client s) threadID content with
  | Err e => Err ("failed to create message: " ++ e)
  | r => r
  end.

Definition createRun (s : t) (threadID assistantID : gostring)
  : Result gostring :=
  match CreateRun (client s) threadID assistantID with
  | Err e => Err ("failed to create run: " ++ e)
  | r => r
  end.

Definition ChatWithAssistant (s : t) (req : ChatAssistantRequest)
    (tl : Timeline) : option (Result ChatAssistantResponse * Timeline) :=
  let threadID :=
    if isEmpty (req_ThreadID req) then threadID s else req_ThreadID req in
  match addMessageToThread s threadID (req_Message req) with
  | Err e => Some (Err ("failed to add message to thread: " ++ e), tl)
  | Panic e => Some (Panic e, tl)
  | Ok _ =>
      match createRun s threadID (req_AssistantID req) with
      | Err e => Some (Err ("failed to create run: " ++ e), tl)
      | Panic e => Some (Panic e, tl)
      | Ok runID =>
          let timeoutSeconds :=
            if req_TimeoutSeconds req <=? 0 then 30
            else req_TimeoutSeconds req in
          let timeout := Utils.wrapInt (timeoutSeconds * Second) in
          match WaitForRunCompletion s threadID runID timeout tl with
          | None => None
          | Some (Panic e, tl') => Some (Panic e, tl')
          | Some (Err e, tl') => Some (Err e, tl')
          | Some (Ok (finalStatus, _), tl') =>
              match getMessagesWithRunID s threadID runID with
              | Err e => Some (Err ("failed to get messages: " ++ e), tl')
              | Panic e => Some (Panic e, tl')
              | Ok messages =>
                  Some (Ok {| resp_ThreadID := threadID;
                              resp_RunID := runID;
                              resp_Messages := messages;
                              resp_Status := finalStatus;
                              resp_TimeoutSeconds := timeoutSeconds |},
                        tl')
              end
          end
      end
  end.

(** The polls that fit into a wait that starts [left] nanoseconds
    before the deadline. *)
Definition pollsWithin (left : Z) : Z :=
  if left <=? 0 then 0 else (left - 1) / (11 * Second) + 1.

(** The pairs that [WaitForRunCompletion] returns: the status is
    [completed] when there is no error, and with an error it is empty or
    one of the four that end the wait. *)
Definition waited (r : Result (string * option string)) : Prop :=
  match r with
  | Ok (status, None) => status = "completed"
  | Ok (status, Some _) =>
      In status [EmptyString; "failed"; "cancelled"; "expired";
                 "requires_action"]
  | Err _ => False
  | Panic _ => True
  end.

(** The retrievals of the client return. *)
Definition retrievalsReturn (c : Client) : Prop :=
  forall n threadID runID e, fst (RetrieveRun c n threadID runID) <> Panic e.

(** The thread of a request. *)
Definition threadOf (s : t) (req : ChatAssistantRequest) : gostring :=
  if isEmpty (req_ThreadID req) then threadID s else req_ThreadID req.

(** The timeout of a request. *)
Definition timeoutOf (req : ChatAssistantRequest) : Z :=
  Utils.wrapInt
    ((if req_TimeoutSeconds req <=? 0 then 30 else req_TimeoutSeconds req)
     * Second).

End OpenAIAssistant.

Module AssistantScenario.
Import GoStr Base OpenAIAssistant.
Local Open Scope string_scope.
Local Open Scope list_scope.

Definition reply (runID : option gostring) (text : string) : Message :=
  {| msg_ID := lit "msg_2";
     msg_Role := "assistant";
     msg_Content := [ {| in_Type := "text"; in_Value := lit text;
                         in_Annotations := [] |} ];
     msg_CreatedAt := 0%Z;
     msg_RunID := runID;
     msg_Metadata := [] |}.

(** A run that fails: the second retrieval says so. *)
Definition failing : Client :=
  {| CreateMessage := fun _ _ => Ok (lit "msg_1");
     CreateRun := fun _ _ => Ok (lit "run_1");
     RetrieveRun := fun n _ _ =>
       (Ok (if Nat.eqb n 0 then "in_progress" else "failed"), 200000000%N);
     ListMessage := fun _ _ _ =>
       Ok [reply (Some (lit "run_0")) "earlier"; reply None "question"] |}.

Definition service : t := {| client := failing; threadID := lit "thread_1" |}.

Definition question : ChatAssistantRequest :=
  {| req_Message := lit "How do I reset a password?";
     req_AssistantID := lit "asst_1";
     req_ThreadID := [];
     req_TimeoutSeconds := 0%Z |}.

End AssistantScenario.


(* ===================================================================== *)
(** * AIHandler.CompareProviders                                          *)
(* ===================================================================== *)

Module AIHandler.
Import GoStr Base.
Local Open Scope string_scope.
Local Open Scope list_scope.
Local Open Scope Z_scope.
Local Open Scope go_scope.




Record Comparison : Type := {
  responses : list (string * EnhancedChatService.EnhancedChatResponse);
  errors : list (string * string);
  compared : nat
}.

Inductive Body : Type :=
| ErrorResponse (error message : string)
| Compared (c : Comparison).

Record Response : Type := {
  Status : Z;
  Json : Body
}.



Section Compare.

(** [uuid.Parse]; [None] stands for its error. *)
Variable uuid_Parse : gostring -> option uuid.


End Compare.

End AIHandler.

Module CompareScenario.
Import GoStr Base.
Local Open Scope string_scope.
Local Open Scope list_scope.


End CompareScenario.

(* ===================================================================== *)
(** * Part II: properties                                               *)
(* ===================================================================== *)

(** ** ChunkText *)

Module ChunkerProps.
Import GoStr Chunker.
Local Open Scope list_scope.
Local Open Scope Z_scope.

Lemma RuneLen_pos (r : rune) : 0 < RuneLen r.
Proof.
  unfold RuneLen.
  destruct (r <? 128)%N; [lia|].
  destruct (r <? 2048)%N; [lia|].
  destruct (r <? 65536)%N; lia.
Qed.

Lemma Len_nonneg (s : gostring) : 0 <= Len s.
Proof.
  induction s as [|r s IH]; simpl; [lia|].
  pose proof (RuneLen_pos r). lia.
Qed.

(** The builder is non-empty exactly when it holds a rune. *)
Lemma Len_pos_iff (s : gostring) : (0 <? Len s) = negb (isEmpty s).
Proof.
  destruct s as [|r s]; simpl; [reflexivity|].
  pose proof (RuneLen_pos r). pose proof (Len_nonneg s).
  apply Z.ltb_lt. lia.
Qed.

Lemma splitSpace_nonnil (s : gostring) : splitSpace s <> [].
Proof.
  destruct s as [|r s]; simpl; [discriminate|].
  destruct (IsSpace r); [discriminate|].
  destruct (splitSpace s); discriminate.
Qed.

(** Splitting distributes over a white space rune. *)
Lemma splitSpace_app (a b : gostring) (sp : rune) :
  IsSpace sp = true ->
  splitSpace (a ++ sp :: b) = splitSpace a ++ splitSpace b.
Proof.
  intros Hsp. induction a as [|r a IH]; simpl.
  - rewrite Hsp. reflexivity.
  - destruct (IsSpace r).
    + rewrite IH. reflexivity.
    + rewrite IH.
      destruct (splitSpace a) as [|w ws] eqn:E.
      * exfalso. exact (splitSpace_nonnil a E).
      * reflexivity.
Qed.

Lemma Fields_app (a b : gostring) (sp : rune) :
  IsSpace sp = true ->
  Fields (a ++ sp :: b) = Fields a ++ Fields b.
Proof.
  intros Hsp. unfold Fields.
  rewrite (splitSpace_app a b sp Hsp). apply filter_app.
Qed.

Lemma Fields_nil : Fields [] = [].
Proof. reflexivity. Qed.

Lemma Fields_space_cons (r : rune) (s : gostring) :
  IsSpace r = true -> Fields (r :: s) = Fields s.
Proof.
  intros H. unfold Fields. simpl. rewrite H. reflexivity.
Qed.

Lemma Fields_dropSpace (s : gostring) : Fields (dropSpace s) = Fields s.
Proof.
  induction s as [|r s IH]; simpl; [reflexivity|].
  destruct (IsSpace r) eqn:E; [|reflexivity].
  rewrite IH. symmetry. apply Fields_space_cons. exact E.
Qed.

(** [dropSpace] removes a prefix made of white space only. *)
Lemma dropSpace_split (s : gostring) :
  exists p, s = p ++ dropSpace s /\ forallb IsSpace p = true.
Proof.
  induction s as [|r s [p [Hp Hall]]]; simpl.
  - exists []. split; reflexivity.
  - destruct (IsSpace r) eqn:E.
    + exists (r :: p). simpl. rewrite E, Hall. split; [congruence|reflexivity].
    + exists []. split; reflexivity.
Qed.

Lemma Fields_app_spaces (a p : gostring) :
  forallb IsSpace p = true -> Fields (a ++ p) = Fields a.
Proof.
  revert a. induction p as [|r p IH]; intros a H; simpl in *.
  - rewrite app_nil_r. reflexivity.
  - apply andb_true_iff in H. destruct H as [Hr Hp].
    rewrite (Fields_app a p r Hr).
    specialize (IH [] Hp). simpl in IH. rewrite IH, Fields_nil.
    apply app_nil_r.
Qed.

Lemma forallb_rev {A} (f : A -> bool) (l : list A) :
  forallb f (rev l) = forallb f l.
Proof.
  induction l as [|x l IH]; simpl; [reflexivity|].
  rewrite forallb_app, IH. simpl. rewrite andb_true_r. apply andb_comm.
Qed.

(** Trimming keeps the words. *)
Lemma Fields_TrimSpace (s : gostring) : Fields (TrimSpace s) = Fields s.
Proof.
  unfold TrimSpace.
  destruct (dropSpace_split (rev (dropSpace s))) as [p [Hp Hall]].
  rewrite <- (Fields_dropSpace s).
  set (t := dropSpace s) in *.
  assert (Ht : t = rev (dropSpace (rev t)) ++ rev p).
  { rewrite <- rev_app_distr, <- Hp, rev_involutive. reflexivity. }
  rewrite Ht at 2.
  symmetry. apply Fields_app_spaces. rewrite forallb_rev. exact Hall.
Qed.

Lemma splitSpace_runs (s : gostring) :
  Forall (fun w => forallb (fun r => negb (IsSpace r)) w = true)
         (splitSpace s).
Proof.
  induction s as [|r s IH]; simpl.
  - constructor; [reflexivity|constructor].
  - destruct (IsSpace r) eqn:E.
    + constructor; [reflexivity|exact IH].
    + destruct (splitSpace s) as [|w ws].
      * constructor; [simpl; rewrite E; reflexivity|constructor].
      * inversion IH; subst. constructor; [|assumption].
        simpl. rewrite E. simpl. assumption.
Qed.

Lemma Fields_words (s : gostring) : Forall isWord (Fields s).
Proof.
  unfold Fields. apply Forall_forall. intros w Hin.
  apply filter_In in Hin. destruct Hin as [Hin Hne].
  split.
  - destruct w; [discriminate|discriminate].
  - pose proof (splitSpace_runs s) as H.
    rewrite Forall_forall in H. apply H. exact Hin.
Qed.

Lemma splitSpace_word (w : gostring) :
  forallb (fun r => negb (IsSpace r)) w = true -> splitSpace w = [w].
Proof.
  induction w as [|r w IH]; simpl; intros H; [reflexivity|].
  apply andb_true_iff in H. destruct H as [Hr Hw].
  apply negb_true_iff in Hr. rewrite Hr, (IH Hw). reflexivity.
Qed.

Lemma Fields_word (w : gostring) : isWord w -> Fields w = [w].
Proof.
  intros [Hne Hw]. unfold Fields. rewrite (splitSpace_word w Hw).
  simpl. destruct w; [contradiction|reflexivity].
Qed.

Lemma IsSpace_space : IsSpace space = true.
Proof. reflexivity. Qed.

Lemma TrimSpace_nonempty (s : gostring) : Fields s <> [] -> TrimSpace s <> [].
Proof.
  intros H E. apply H. rewrite <- Fields_TrimSpace, E. reflexivity.
Qed.

Lemma concat_map_snoc {A B} (f : A -> list B) (l : list A) (x : A) :
  List.concat (map f (l ++ [x])) = List.concat (map f l) ++ f x.
Proof.
  rewrite map_app, concat_app. simpl. rewrite app_nil_r. reflexivity.
Qed.

Lemma chunk_step_inv (n : Z) (seen : list gostring) (st : chunk_state)
    (word : gostring) :
  isWord word -> chunk_inv seen st ->
  chunk_inv (seen ++ [word]) (chunk_step n st word).
Proof.
  intros Hw. destruct st as [chunks cur]. unfold chunk_inv, chunk_step.
  intros [Hseen [Hne Hcur]].
  rewrite !Len_pos_iff.
  destruct cur as [|r cur].
  - simpl. rewrite app_nil_r in Hseen. subst seen.
    rewrite (Fields_word word Hw).
    repeat split; [assumption|intros _; discriminate].
  - set (c := r :: cur) in *.
    change (negb (isEmpty c)) with true. rewrite andb_true_l.
    assert (Hc : c <> []) by discriminate.
    destruct (n <? Len c + Len word + 1).
    + change (0 <? Len []) with false. cbv iota. rewrite app_nil_l.
      rewrite concat_map_snoc, Fields_TrimSpace, (Fields_word word Hw).
      repeat split.
      * rewrite Hseen. reflexivity.
      * apply Forall_app. split; [assumption|].
        constructor; [|constructor].
        apply TrimSpace_nonempty. apply Hcur. exact Hc.
      * intros _. discriminate.
    + rewrite (Len_pos_iff c). change (negb (isEmpty c)) with true.
      cbv iota.
      replace ((c ++ [space]) ++ word) with (c ++ space :: word)
        by (rewrite <- app_assoc; reflexivity).
      rewrite (Fields_app c word space IsSpace_space), (Fields_word word Hw).
      repeat split.
      * rewrite app_assoc, Hseen. reflexivity.
      * assumption.
      * intros _ E. apply app_eq_nil in E. destruct E as [_ E]. discriminate.
Qed.

Lemma chunk_loop_inv (n : Z) (words seen : list gostring) (st : chunk_state) :
  Forall isWord words -> chunk_inv seen st ->
  chunk_inv (seen ++ words) (fold_left (chunk_step n) words st).
Proof.
  revert seen st. induction words as [|w words IH]; intros seen st Hws Hinv.
  - simpl. rewrite app_nil_r. exact Hinv.
  - inversion Hws; subst. simpl.
    replace (seen ++ w :: words) with ((seen ++ [w]) ++ words)
      by (rewrite <- app_assoc; reflexivity).
    apply IH; [assumption|]. apply chunk_step_inv; assumption.
Qed.

(** ChunkText keeps the words and emits no empty chunk. *)
Lemma ChunkText_spec (text : gostring) (maxChunkSize : Z) :
  List.concat (map Fields (ChunkText text maxChunkSize)) = Fields text
  /\ Forall (fun c => c <> []) (ChunkText text maxChunkSize).
Proof.
  unfold ChunkText.
  set (n := if maxChunkSize <=? 0 then 1000 else maxChunkSize).
  pose proof (Fields_words text) as Hws.
  destruct (Fields text) as [|w ws] eqn:E.
  - split; [reflexivity|constructor].
  - pose proof (chunk_loop_inv n (w :: ws) [] ([], []) Hws) as H.
    assert (H0 : chunk_inv [] ([], [])).
    { simpl. repeat split; [constructor|intros C; contradiction]. }
    specialize (H H0). simpl app in H.
    destruct (fold_left (chunk_step n) (w :: ws) ([], [])) as [chunks cur].
    destruct H as [Hseen [Hne Hcur]].
    rewrite Len_pos_iff.
    destruct cur as [|r cur]; simpl negb; cbv iota.
    + simpl in Hseen. rewrite app_nil_r in Hseen. split; assumption.
    + rewrite concat_map_snoc, Fields_TrimSpace. split; [assumption|].
      apply Forall_app. split; [assumption|].
      constructor; [|constructor].
      apply TrimSpace_nonempty. apply Hcur. discriminate.
Qed.

(** Two chunks of at most 11 bytes. *)
Example ChunkText_two_chunks :
  ChunkText (lit "Alpha  Beta Gamma Delta") 11
  = [lit "Alpha Beta"; lit "Gamma Delta"].
Proof. reflexivity. Qed.

End ChunkerProps.

Import GoStr Chunker.
(** C10. For every text and every maxChunkSize, the whitespace-separated
    words of the chunks returned by ChunkText, taken in order, are exactly
    the whitespace-separated words of the text; every chunk is non-empty;
    and a text without words yields no chunk. *)
Theorem C10_ChunkText_preserves_words (text : gostring) (maxChunkSize : Z) :
  List.concat (map Fields (ChunkText text maxChunkSize)) = Fields text
  /\ Forall (fun chunk => chunk <> []) (ChunkText text maxChunkSize)
  /\ (Fields text = [] <-> ChunkText text maxChunkSize = []).
Proof.
  destruct (ChunkerProps.ChunkText_spec text maxChunkSize) as [Hw Hne].
  split; [exact Hw|]. split; [exact Hne|].
  split.
  - intros H. unfold ChunkText. rewrite H. reflexivity.
  - intros H. rewrite H in Hw. simpl in Hw. symmetry. exact Hw.
Qed.

(** ** The M monad *)

Module UnifiedProps.
Import GoStr Base UnifiedAIService.
Local Open Scope string_scope.
Local Open Scope list_scope.

Lemma OpenAI_ChatCompletion_calls env svc req w :
  exists c, providerOf c = Some OpenAIProvider
    /\ only_calls w (snd (OpenAIService.ChatCompletion env svc req w)) [c].
Proof.
  unfold OpenAIService.ChatCompletion, bind, record_call.
  eexists. split; [|].
  2:{ destruct (openai_CreateChatCompletion env _ _) as [[|ch chs]|e|e];
      simpl; unfold only_calls; simpl; repeat split; reflexivity. }
  reflexivity.
Qed.

Lemma splitLast_nil l : GeminiService.splitLast l = None <-> l = [].
Proof.
  induction l as [|x l IH]; simpl; [tauto|].
  destruct l as [|y l]; [split; discriminate|].
  destruct (GeminiService.splitLast (y :: l)) as [[i la]|] eqn:E.
  - split; discriminate.
  - destruct IH as [IH _]. specialize (IH eq_refl). discriminate.
Qed.

Lemma Gemini_ChatCompletion_calls env svc req w :
  match GeminiService.Messages req with
  | [] => GeminiService.ChatCompletion env svc req w
          = (Panic "runtime error: index out of range [-1]", w)
  | _ => exists c, providerOf c = Some GeminiProvider
          /\ only_calls w (snd (GeminiService.ChatCompletion env svc req w)) [c]
  end.
Proof.
  unfold GeminiService.ChatCompletion.
  destruct (GeminiService.Messages req) as [|m ms] eqn:E.
  - reflexivity.
  - destruct (GeminiService.splitLast (m :: ms)) as [[earlier cur]|] eqn:S.
    2:{ apply splitLast_nil in S. discriminate. }
    unfold bind, record_call.
    exists (CallGeminiChat
              (GeminiService.buildSystemInstruction
                 (GeminiService.Context req) (GeminiService.SystemPrompt req))
              (map (fun msg => {| Role := GeminiService.convertRole (Role msg);
                                  Content := Content msg |}) earlier)
              (Content cur)).
    split; [reflexivity|].
    destruct (gemini_SendMessage env _ _ _ _) as [[|ch chs]|e|e];
      simpl; unfold only_calls; simpl; repeat split; reflexivity.
Qed.


Lemma only_calls_refl w : only_calls w w [].
Proof. unfold only_calls. rewrite app_nil_r. repeat split; reflexivity. Qed.

Lemma only_calls_trans w w1 w2 tr1 tr2 :
  only_calls w w1 tr1 -> only_calls w1 w2 tr2 ->
  only_calls w w2 (tr1 ++ tr2).
Proof.
  unfold only_calls. intros (A & B & C & D) (A' & B' & C' & D').
  rewrite A', B', C', D', A, B, C, D, app_assoc. repeat split; reflexivity.
Qed.

(** A bind whose continuation is pure leaves the world of its first
    step. *)
Lemma snd_bind_ret {A B} (m : M A) (f : A -> B) w :
  snd (bind m (fun a => ret (f a)) w) = snd (m w).
Proof.
  unfold bind, ret. destruct (m w) as [[a|e|e] w']; reflexivity.
Qed.

Lemma fst_bind_ret {A B} (m : M A) (f : A -> B) w :
  fst (bind m (fun a => ret (f a)) w)
  = match fst (m w) with
    | Ok a => Ok (f a) | Err e => Err e | Panic e => Panic e
    end.
Proof.
  unfold bind, ret. destruct (m w) as [[a|e|e] w']; reflexivity.
Qed.

(** An attempt sends the requests of [dispatch], touches nothing else,
    and cannot succeed without sending one. *)
Lemma callProvider_trace env s req p w :
  exists tr,
    only_calls w (snd (callProvider env s req p w)) tr
    /\ map providerOf tr = dispatch s req p
    /\ (reaches s req p = false ->
        isOk (fst (callProvider env s req p w)) = false).
Proof.
  unfold callProvider, dispatch, reaches.
  destruct (String.eqb_spec p OpenAIProvider) as [->|Hno].
  - unfold callOpenAI.
    destruct (openAIService s) as [svc|]; simpl.
    + rewrite snd_bind_ret.
      destruct (OpenAI_ChatCompletion_calls env svc
                  {| OpenAIService.Messages :=
                       map (fun msg => {| Role := Role msg;
                                          Content := Content msg |})
                           (Messages req);
                     OpenAIService.Context := Context req;
                     OpenAIService.SessionID := SessionID req;
                     OpenAIService.UseKnowledgeBase := UseKnowledgeBase req |}
                  w) as [c [Hc Ho]].
      exists [c]. split; [exact Ho|]. split; [simpl; rewrite Hc; reflexivity|].
      discriminate.
    + exists []. split; [apply only_calls_refl|]. split; reflexivity.
  - destruct (String.eqb_spec p GeminiProvider) as [->|Hng].
    + unfold callGemini.
      destruct (geminiService s) as [svc|]; cbn [isSome andb].
      * rewrite snd_bind_ret, fst_bind_ret.
        pose proof (Gemini_ChatCompletion_calls env svc
                  {| GeminiService.Messages :=
                       map (fun msg => {| Role := Role msg;
                                          Content := Content msg |})
                           (Messages req);
                     GeminiService.Context := Context req;
                     GeminiService.SessionID := SessionID req;
                     GeminiService.UseKnowledgeBase := UseKnowledgeBase req;
                     GeminiService.SystemPrompt := SystemPrompt req |}
                  w) as H.
        simpl GeminiService.Messages in H.
        destruct (Messages req) as [|m ms]; simpl map in H.
        -- change (map _ []) with (@nil RoleContent). rewrite H.
           exists []. split; [apply only_calls_refl|].
           split; reflexivity.
        -- destruct H as [c [Hc Ho]]. exists [c].
           split; [exact Ho|]. split; [simpl; rewrite Hc; reflexivity|].
           discriminate.
      * exists []. split; [apply only_calls_refl|]. split; reflexivity.
    + exists []. split; [apply only_calls_refl|]. split; reflexivity.
Qed.

(** An attempt against an available provider that returns an error has
    sent its request. *)
Lemma callProvider_Err_reaches env s req p w e :
  In p (GetAvailableProviders s) ->
  fst (callProvider env s req p w) = Err e ->
  reaches s req p = true.
Proof.
  unfold GetAvailableProviders, callProvider, reaches.
  intros Hin Herr.
  destruct (String.eqb_spec p OpenAIProvider) as [->|Hno].
  - destruct (openAIService s); [reflexivity|].
    simpl in Hin. destruct (geminiService s); simpl in Hin;
      [destruct Hin as [H|[]]; discriminate|contradiction].
  - destruct (String.eqb_spec p GeminiProvider) as [->|Hng].
    + unfold callGemini in Herr.
      destruct (geminiService s) as [svc|].
      * simpl. rewrite fst_bind_ret in Herr.
        unfold GeminiService.ChatCompletion in Herr.
        simpl GeminiService.Messages in Herr.
        destruct (Messages req) as [|m ms]; [discriminate|reflexivity].
      * destruct (openAIService s); simpl in Hin;
          [destruct Hin as [H|[]]; discriminate|contradiction].
    + exfalso.
      destruct (openAIService s); destruct (geminiService s); simpl in Hin;
        intuition congruence.
Qed.

Lemma setProvider_Provider r p : Provider (setProvider r p) = p.
Proof. reflexivity. Qed.

End UnifiedProps.

Module UnifiedFacts.
Import GoStr Base UnifiedAIService UnifiedProps.
Local Open Scope string_scope.
Local Open Scope list_scope.

Lemma dispatch_length s req p : (List.length (dispatch s req p) <= 1)%nat.
Proof. unfold dispatch. destruct (reaches s req p); simpl; lia. Qed.

Lemma dispatch_Ok env s req p w :
  isOk (fst (callProvider env s req p w)) = true ->
  dispatch s req p = [Some p].
Proof.
  intros H. destruct (callProvider_trace env s req p w) as (tr & _ & _ & Hr).
  unfold dispatch. destruct (reaches s req p); [reflexivity|].
  rewrite (Hr eq_refl) in H. discriminate.
Qed.


Lemma ChatCompletion_trace
    (env : Env) (s : t) (req : UnifiedChatRequest) (w : World) :
  let selected := selectedProvider s req in
  let fallback := fallbackProvider s in
  let first := fst (callProvider env s req selected w) in
  let out := ChatCompletion env s req w in
  exists tr,
      only_calls w (snd out) tr
      /\ map providerOf tr
         = dispatch s req selected
           ++ match first with
              | Err _ => dispatch s req fallback
              | _ => []
              end
      /\ (List.length tr <= 2)%nat
      /\ match fst out with
         | Ok response =>
             last (map providerOf tr) None = Some (Provider response)
             /\ Provider response
                = match first with Ok _ => selected | _ => fallback end
         | Err e =>
             (exists e1, first = Err e1) /\ e = bothFailed selected fallback
         | Panic _ => True
         end.
Proof.
  intros selected fallback first out.
  subst out first. unfold ChatCompletion, catch.
  fold selected. fold fallback.
  destruct (callProvider_trace env s req selected w)
    as (tr1 & Ho1 & Ht1 & _).
  pose proof (dispatch_Ok env s req selected w) as Hok1.
  pose proof (dispatch_length s req selected) as Hl1.
  destruct (callProvider env s req selected w) as [[resp|e|e] w1] eqn:E1;
    simpl fst in *; simpl snd in *.
  - exists tr1. unfold ret. simpl.
    rewrite app_nil_r.
    split; [exact Ho1|]. split; [exact Ht1|].
    split; [rewrite <- (length_map providerOf), Ht1; lia|].
    rewrite Ht1, (Hok1 eq_refl). split; reflexivity.
  - destruct (callProvider_trace env s req fallback w1)
      as (tr2 & Ho2 & Ht2 & _).
    pose proof (dispatch_Ok env s req fallback w1) as Hok2.
    pose proof (dispatch_length s req fallback) as Hl2.
    pose proof (only_calls_trans _ _ _ _ _ Ho1 Ho2) as Hc.
    assert (Hlen : (List.length (tr1 ++ tr2) <= 2)%nat).
    { rewrite length_app, <- (length_map providerOf tr1),
        <- (length_map providerOf tr2), Ht1, Ht2. lia. }
    destruct (callProvider env s req fallback w1) as [[resp2|e2|e2] w2] eqn:E2;
      simpl fst in *; simpl snd in *; exists (tr1 ++ tr2);
      unfold ret, fail, panic; simpl; rewrite map_app, Ht1, Ht2;
      (split; [exact Hc|]); (split; [reflexivity|]); (split; [exact Hlen|]).
    + rewrite (Hok2 eq_refl), last_last. split; reflexivity.
    + split; [exists e; reflexivity|reflexivity].
    + exact I.
  - exists tr1. unfold panic. simpl.
    rewrite app_nil_r.
    split; [exact Ho1|]. split; [exact Ht1|].
    split; [rewrite <- (length_map providerOf), Ht1; lia|exact I].
Qed.

End UnifiedFacts.

Import Base UnifiedAIService.



Module SetPrimaryFacts.
Import UnifiedProps UnifiedFacts.
Local Open Scope string_scope.
Local Open Scope list_scope.

Lemma SetPrimaryProvider_frame s provider :
  fallbackProvider (fst (SetPrimaryProvider s provider)) = fallbackProvider s
  /\ openAIService (fst (SetPrimaryProvider s provider)) = openAIService s
  /\ geminiService (fst (SetPrimaryProvider s provider)) = geminiService s.
Proof.
  unfold SetPrimaryProvider.
  destruct (existsb _ _); simpl; repeat split; reflexivity.
Qed.

Lemma SetPrimaryProvider_accepted s provider :
  snd (SetPrimaryProvider s provider) = None ->
  primaryProvider (fst (SetPrimaryProvider s provider)) = provider
  /\ In provider (GetAvailableProviders s).
Proof.
  unfold SetPrimaryProvider.
  destruct (existsb _ _) eqn:E; simpl; [|discriminate].
  intros _. split; [reflexivity|].
  apply existsb_exists in E. destruct E as [a [Hin Heq]].
  apply String.eqb_eq in Heq. subst. exact Hin.
Qed.

Lemma SetPrimaryProvider_rejected s provider e :
  snd (SetPrimaryProvider s provider) = Some e ->
  fst (SetPrimaryProvider s provider) = s.
Proof.
  unfold SetPrimaryProvider.
  destruct (existsb _ _); simpl; [discriminate|reflexivity].
Qed.

Lemma GetAvailableProviders_services s s' :
  openAIService s' = openAIService s ->
  geminiService s' = geminiService s ->
  GetAvailableProviders s' = GetAvailableProviders s.
Proof. unfold GetAvailableProviders. intros -> ->. reflexivity. Qed.

End SetPrimaryFacts.

(** C9. SetPrimaryProvider leaves the fallback provider and the two
    services as they were, whatever provider it is given; so once it has
    accepted the configured fallback as the new primary, primary and
    fallback are equal, and a ChatCompletion without preferred provider
    whose first attempt returns an error sends its retry to the provider
    that it has just tried. *)
Theorem C9_SetPrimaryProvider_keeps_fallback
    (env : Env) (s : t) (req : UnifiedChatRequest) (w : World) (e : string) :
  let s' := fst (SetPrimaryProvider s (fallbackProvider s)) in
  snd (SetPrimaryProvider s (fallbackProvider s)) = None ->
  PreferredProvider req = EmptyString ->
  fst (callProvider env s' req (primaryProvider s') w) = Err e ->
  (forall provider,
      fallbackProvider (fst (SetPrimaryProvider s provider))
      = fallbackProvider s
      /\ openAIService (fst (SetPrimaryProvider s provider)) = openAIService s
      /\ geminiService (fst (SetPrimaryProvider s provider)) = geminiService s)
  /\ primaryProvider s' = fallbackProvider s'
  /\ exists c1 c2,
       calls (snd (ChatCompletion env s' req w)) = calls w ++ [c1; c2]
       /\ providerOf c1 = Some (primaryProvider s')
       /\ providerOf c2 = Some (primaryProvider s').
Proof.
  intros s' Hacc Hpref Herr.
  split; [intros provider; apply SetPrimaryFacts.SetPrimaryProvider_frame|].
  destruct (SetPrimaryFacts.SetPrimaryProvider_frame s (fallbackProvider s))
    as (Hfb & Ho & Hg).
  destruct (SetPrimaryFacts.SetPrimaryProvider_accepted s _ Hacc)
    as (Hprim & Hin).
  fold s' in Hfb, Ho, Hg, Hprim.
  assert (Heq : primaryProvider s' = fallbackProvider s') by congruence.
  split; [exact Heq|].
  assert (Hsel : selectedProvider s' req = primaryProvider s').
  { unfold selectedProvider. rewrite Hpref. reflexivity. }
  assert (Hav : In (primaryProvider s') (GetAvailableProviders s')).
  { rewrite (SetPrimaryFacts.GetAvailableProviders_services s s' Ho Hg).
    rewrite Hprim. exact Hin. }
  pose proof (UnifiedProps.callProvider_Err_reaches env s' req _ w e Hav Herr)
    as Hreach.
  destruct (UnifiedFacts.ChatCompletion_trace env s' req w)
    as (tr & (_ & _ & _ & Hc) & Ht & _ & _).
  rewrite Hsel in Ht. rewrite Herr in Ht. rewrite <- Heq in Ht.
  unfold dispatch in Ht. rewrite Hreach in Ht. simpl in Ht.
  destruct tr as [|c1 [|c2 [|c3 tr]]]; try discriminate.
  exists c1, c2. simpl in Ht. inversion Ht. repeat split; assumption.
Qed.

(** The default orchestrator, both providers down, and the fallback
    "gemini" made primary. *)
Lemma C9_witness :
  let s := Scenario.unified in
  let s' := fst (SetPrimaryProvider s (fallbackProvider s)) in
  let req := Scenario.chatRequest EmptyString in
  primaryProvider s' = fallbackProvider s'
  /\ exists c1 c2,
       calls (snd (ChatCompletion Scenario.env_down s' req Scenario.emptyWorld))
       = calls Scenario.emptyWorld ++ [c1; c2]
       /\ providerOf c1 = Some (primaryProvider s')
       /\ providerOf c2 = Some (primaryProvider s').
Proof.
  intros s s' req.
  apply (C9_SetPrimaryProvider_keeps_fallback
           Scenario.env_down s req Scenario.emptyWorld
           "Gemini API error: status 503");
    reflexivity.
Defined.

(** ** Sessions and messages *)

Module ChatStoreProps.
Import GoStr Base Sql ChatStore.
Local Open Scope string_scope.
Local Open Scope list_scope.

Lemma fold_max_ge (ids : list uuid) (x : uuid) :
  In x ids -> (x <= fold_right N.max 0 ids)%N.
Proof.
  induction ids as [|y ids IH]; simpl; [contradiction|].
  intros [->|H]; [lia|]. specialize (IH H). lia.
Qed.

(** The identifier of a new row is carried by no row of the table. *)
Lemma fresh_id_fresh (ids : list uuid) : ~ In (fresh_id ids) ids.
Proof.
  intros H. apply fold_max_ge in H. unfold fresh_id in H. lia.
Qed.

Lemma fresh_id_not_nil (ids : list uuid) : fresh_id ids <> uuid_Nil.
Proof. unfold fresh_id, uuid_Nil. lia. Qed.

Lemma createSession_spec env userID w :
  createSession env userID "New Chat" true w
  = match db_fault env SiteSessionCreate with
    | Some e => (Err e, w)
    | None => (Ok (sessionMade w userID),
               afterSession w (sessionMade w userID))
    end.
Proof.
  unfold createSession. destruct (db_fault env SiteSessionCreate); reflexivity.
Qed.

Lemma createMessage_spec env site sessionID role content metadata w :
  createMessage env site sessionID role content metadata w
  = match db_fault env site with
    | Some e => (Err e, w)
    | None =>
        (Ok (messageMade w sessionID role content metadata),
         afterMessage w (messageMade w sessionID role content metadata))
    end.
Proof.
  unfold createMessage. destruct (db_fault env site); reflexivity.
Qed.

End ChatStoreProps.

Module KnowledgeSearchProps.
Import GoStr Base Sql KnowledgeService.
Local Open Scope string_scope.
Local Open Scope list_scope.

(** The vector client refuses every text query, so the search is the
    text query. *)
Lemma SearchKnowledgeEntries_is_textSearch env s query limit :
  SearchKnowledgeEntries env s query limit = textSearch env query limit.
Proof.
  unfold SearchKnowledgeEntries. destruct (vectorService s); reflexivity.
Qed.

Lemma textSearch_spec env query limit w :
  textSearch env query limit w
  = match db_fault env SiteKnowledgeTextFind with
    | Some e => (Err e, w)
    | None =>
        (Ok (sql_limit limit
               (order_by priority_viewcount_desc
                  (filter (textMatch ([pct] ++ query ++ [pct]))
                          (entries (db w))))), w)
    end.
Proof.
  unfold textSearch, bind, get_db.
  destruct (db_fault env SiteKnowledgeTextFind); reflexivity.
Qed.

End KnowledgeSearchProps.

Module EnhancedProps.
Import GoStr Base Sql ChatStore EnhancedChatService.
Import ChatStoreProps KnowledgeSearchProps.
Local Open Scope string_scope.
Local Open Scope list_scope.

Lemma getOrCreateSession_eq env userID sessionID w :
  getOrCreateSession env userID sessionID w
  = match lookupFor env w userID sessionID with
    | Some session => (Ok session, w)
    | None => createSession env userID "New Chat" true w
    end.
Proof.
  unfold getOrCreateSession, lookupFor, bind.
  destruct sessionID as [id|]; [|reflexivity].
  unfold findSession, bind, get_db.
  destruct (db_fault env SiteSessionLookup); [reflexivity|].
  unfold ret. destruct (find _ _); reflexivity.
Qed.

Lemma prepare_eq env s req w :
  prepare env s req w
  = match getOrCreateSession env (UserID req) (SessionID req) w with
    | (Ok session, w1) =>
        match db_fault env SiteUserMessageCreate with
        | Some e => (Err e, w1)
        | None =>
            let um := messageMade w1 (sess_ID session) "user" (Message req)
                                  MetaEmpty in
            (Ok (preparedFor env s req session um (afterMessage w1 um)),
             afterMessage w1 um)
        end
    | (Err e, w1) => (Err e, w1)
    | (Panic e, w1) => (Panic e, w1)
    end.
Proof.
  unfold prepare. unfold bind at 1.
  destruct (getOrCreateSession env (UserID req) (SessionID req) w)
    as [[session|e|e] w1]; try reflexivity.
  unfold bind at 1. rewrite createMessage_spec.
  destruct (db_fault env SiteUserMessageCreate) as [e|]; [reflexivity|].
  set (um := messageMade w1 (sess_ID session) "user" (Message req) MetaEmpty).
  set (w2 := afterMessage w1 um).
  unfold preparedFor, knowledgeFor, recentFor.
  unfold bind, catch. rewrite SearchKnowledgeEntries_is_textSearch.
  rewrite textSearch_spec.
  unfold getRecentMessages, bind, get_db, ret.
  destruct (db_fault env SiteKnowledgeTextFind);
    destruct (db_fault env SiteRecentMessages); reflexivity.
Qed.

Lemma ProcessChat_eq env s req w :
  ProcessChat env s req w
  = match prepare env s req w with
    | (Ok p, w2) =>
        match UnifiedAIService.ChatCompletion env (unifiedAIService s)
                (p_aiRequest p) w2 with
        | (Ok ai, w3) =>
            match db_fault env SiteAssistantMessageCreate with
            | Some e => (Err e, w3)
            | None =>
                let am :=
                  messageMade w3 (sess_ID (p_session p)) "assistant"
                    (UnifiedAIService.Message ai)
                    (MetaJSON (UnifiedAIService.Provider ai)
                              (UnifiedAIService.Model ai)
                              (UnifiedAIService.Sources ai)) in
                (Ok {| Response := UnifiedAIService.Message ai;
                       RespSessionID := sess_ID (p_session p);
                       Sources := map ke_ID (p_knowledgeEntries p);
                       Provider := UnifiedAIService.Provider ai;
                       Model := UnifiedAIService.Model ai;
                       CreatedAt := msg_CreatedAt am |},
                 afterMessage w3 am)
            end
        | (Err e, w3) => (Err e, w3)
        | (Panic e, w3) => (Panic e, w3)
        end
    | (Err e, w2) => (Err e, w2)
    | (Panic e, w2) => (Panic e, w2)
    end.
Proof.
  unfold ProcessChat. unfold bind at 1.
  destruct (prepare env s req w) as [[p|e|e] w2]; try reflexivity.
  unfold bind at 1.
  destruct (UnifiedAIService.ChatCompletion env (unifiedAIService s)
              (p_aiRequest p) w2) as [[ai|e|e] w3]; try reflexivity.
  unfold bind. rewrite createMessage_spec. unfold buildMetadata.
  destruct (db_fault env SiteAssistantMessageCreate); reflexivity.
Qed.

End EnhancedProps.

Module EnhancedRun.
Import GoStr Base Sql ChatStore EnhancedChatService.
Import ChatStoreProps KnowledgeSearchProps EnhancedProps.
Local Open Scope string_scope.
Local Open Scope list_scope.

Lemma ChatCompletion_only_calls env us aireq w :
  exists tr, only_calls w (snd (UnifiedAIService.ChatCompletion env us aireq w)) tr.
Proof.
  destruct (UnifiedFacts.ChatCompletion_trace env us aireq w) as (tr & H & _).
  exists tr. exact H.
Qed.

(** A call that succeeds went through every stage. *)
Lemma ProcessChat_Ok_inv env s req w resp w' :
  ProcessChat env s req w = (Ok resp, w') ->
  exists session w1 ai w3 tr,
    getOrCreateSession env (UserID req) (SessionID req) w = (Ok session, w1)
    /\ db_fault env SiteUserMessageCreate = None
    /\ db_fault env SiteAssistantMessageCreate = None
    /\ let um := messageMade w1 (sess_ID session) "user" (Message req)
                             MetaEmpty in
       let w2 := afterMessage w1 um in
       let p := preparedFor env s req session um w2 in
       prepare env s req w = (Ok p, w2)
       /\ UnifiedAIService.ChatCompletion env (unifiedAIService s)
            (p_aiRequest p) w2 = (Ok ai, w3)
       /\ only_calls w2 w3 tr
       /\ let am := messageMade w3 (sess_ID session) "assistant"
                      (UnifiedAIService.Message ai)
                      (MetaJSON (UnifiedAIService.Provider ai)
                                (UnifiedAIService.Model ai)
                                (UnifiedAIService.Sources ai)) in
          w' = afterMessage w3 am
          /\ Response resp = UnifiedAIService.Message ai
          /\ RespSessionID resp = sess_ID session
          /\ Provider resp = UnifiedAIService.Provider ai.
Proof.
  rewrite ProcessChat_eq, prepare_eq.
  destruct (getOrCreateSession env (UserID req) (SessionID req) w)
    as [[session|e|e] w1]; try discriminate.
  destruct (db_fault env SiteUserMessageCreate) as [e|]; [discriminate|].
  cbv zeta.
  set (um := messageMade w1 (sess_ID session) "user" (Message req) MetaEmpty).
  set (w2 := afterMessage w1 um).
  set (p := preparedFor env s req session um w2).
  destruct (ChatCompletion_only_calls env (unifiedAIService s)
              (p_aiRequest p) w2) as [tr Htr].
  destruct (UnifiedAIService.ChatCompletion env (unifiedAIService s)
              (p_aiRequest p) w2) as [[ai|e|e] w3] eqn:E; try discriminate.
  destruct (db_fault env SiteAssistantMessageCreate) as [e|]; [discriminate|].
  intros H. inversion H; subst resp w'; clear H.
  exists session, w1, ai, w3, tr.
  split; [reflexivity|]. split; [reflexivity|]. split; [reflexivity|].
  split; [reflexivity|]. split; [exact E|]. split; [exact Htr|].
  repeat split; reflexivity.
Qed.



End EnhancedRun.

Import ChatStore EnhancedChatService.



Module EnhancedMessages.
Import GoStr Base Sql ChatStore EnhancedChatService.
Import ChatStoreProps KnowledgeSearchProps EnhancedProps EnhancedRun.
Local Open Scope string_scope.
Local Open Scope list_scope.

(** Session resolution stores no message and sends nothing. *)
Lemma getOrCreateSession_frame env userID sessionID w :
  let out := getOrCreateSession env userID sessionID w in
  messages (db (snd out)) = messages (db w)
  /\ calls (snd out) = calls w
  /\ (clock w <= clock (snd out))%nat.
Proof.
  cbv zeta. rewrite getOrCreateSession_eq.
  destruct (lookupFor env w userID sessionID); simpl.
  - repeat split; lia.
  - rewrite createSession_spec.
    destruct (db_fault env SiteSessionCreate); simpl; repeat split; lia.
Qed.

Lemma prepare_Ok_inv env s req w p w2 :
  prepare env s req w = (Ok p, w2) ->
  exists session w1,
    getOrCreateSession env (UserID req) (SessionID req) w = (Ok session, w1)
    /\ db_fault env SiteUserMessageCreate = None
    /\ let um := messageMade w1 (sess_ID session) "user" (Message req)
                             MetaEmpty in
       w2 = afterMessage w1 um
       /\ p = preparedFor env s req session um w2.
Proof.
  rewrite prepare_eq.
  destruct (getOrCreateSession env (UserID req) (SessionID req) w)
    as [[session|e|e] w1]; try discriminate.
  destruct (db_fault env SiteUserMessageCreate) as [e|]; [discriminate|].
  cbv zeta. intros H. inversion H; subst; clear H.
  exists session, w1. repeat split; reflexivity.
Qed.

End EnhancedMessages.

(** C8. When the request has reached the provider dispatch (session
    resolved, inbound message stored) and both the attempt against the
    selected provider and the attempt against the fallback provider
    return an error, ProcessChat returns the error that names both
    providers, and the messages stored afterwards are those stored
    before the call followed by the inbound user message: no assistant
    message is persisted for the turn. *)
Theorem C8_both_providers_fail
    (env : Env) (s : EnhancedChatService.t) (req : EnhancedChatRequest)
    (w : World) (p : Prepared) (w2 : World) (e1 e2 : string) :
  let us := unifiedAIService s in
  let selected := UnifiedAIService.selectedProvider us (p_aiRequest p) in
  let fallback := UnifiedAIService.fallbackProvider us in
  let first := UnifiedAIService.callProvider env us (p_aiRequest p)
                 selected w2 in
  prepare env s req w = (Ok p, w2) ->
  fst first = Err e1 ->
  fst (UnifiedAIService.callProvider env us (p_aiRequest p) fallback
         (snd first)) = Err e2 ->
  let out := ProcessChat env s req w in
  fst out = Err (UnifiedAIService.bothFailed selected fallback)
  /\ messages (db (snd out)) = messages (db w) ++ [p_userMessage p]
  /\ msg_Role (p_userMessage p) = "user"%string
  /\ msg_Content (p_userMessage p) = Message req
  /\ msg_SessionID (p_userMessage p) = sess_ID (p_session p)
  /\ ~ In (msg_ID (p_userMessage p)) (map msg_ID (messages (db w))).
Proof.
  intros us selected fallback first Hprep H1 H2 out.
  destruct (EnhancedMessages.prepare_Ok_inv env s req w p w2 Hprep)
    as (session & w1 & Hget & Hu & Hw2 & Hp).
  pose proof (EnhancedMessages.getOrCreateSession_frame
                env (UserID req) (SessionID req) w) as Hframe.
  cbv zeta in Hframe. rewrite Hget in Hframe. simpl in Hframe.
  destruct Hframe as (Hmsgs & _ & _).
  assert (Hcc : exists w4 tr,
             UnifiedAIService.ChatCompletion env us (p_aiRequest p) w2
             = (Err (UnifiedAIService.bothFailed selected fallback), w4)
             /\ only_calls w2 w4 tr).
  { destruct (EnhancedRun.ChatCompletion_only_calls env us (p_aiRequest p) w2)
      as [tr Htr].
    revert Htr.
    unfold UnifiedAIService.ChatCompletion, catch.
    fold selected. fold fallback. fold first.
    destruct first as [r1 w3]. simpl in H1, H2. subst r1.
    destruct (UnifiedAIService.callProvider env us (p_aiRequest p) fallback w3)
      as [r2 w4].
    simpl in H2. subst r2. unfold fail. simpl. intros Htr.
    exists w4, tr. split; [reflexivity|exact Htr]. }
  destruct Hcc as (w4 & tr & Hcc & (Hdb & _)).
  subst out. rewrite EnhancedProps.ProcessChat_eq, Hprep.
  fold us. rewrite Hcc. simpl.
  split; [reflexivity|].
  rewrite Hdb, Hw2, Hp. simpl. rewrite Hmsgs.
  repeat split; try reflexivity.
  rewrite <- Hmsgs. apply ChatStoreProps.fresh_id_fresh.
Qed.

(** The default services with both providers down. *)
Lemma C8_witness :
  let req := Scenario.staleRequest in
  let out := ProcessChat Scenario.env_down Scenario.enhanced req
               Scenario.emptyWorld in
  isOk (fst (prepare Scenario.env_down Scenario.enhanced req
               Scenario.emptyWorld)) = true
  /\ fst out = Err (UnifiedAIService.bothFailed OpenAIProvider GeminiProvider)
  /\ map msg_Role (messages (db (snd out))) = ["user"%string].
Proof.
  intros req out.
  destruct (prepare Scenario.env_down Scenario.enhanced req
              Scenario.emptyWorld) as [r w2] eqn:E.
  destruct r as [p|e|e]; [|vm_compute in E; discriminate
                          |vm_compute in E; discriminate].
  split; [reflexivity|].
  assert (Ep : p = Scenario.staleP /\ w2 = Scenario.staleW2).
  { vm_compute in E. inversion E. split; reflexivity. }
  destruct Ep as [-> ->].
  pose proof (C8_both_providers_fail
                Scenario.env_down Scenario.enhanced req Scenario.emptyWorld
                Scenario.staleP Scenario.staleW2
                "OpenAI API error: status 503"
                "Gemini API error: status 503"
                E eq_refl eq_refl) as H.
  cbv zeta in H. destruct H as (Hout & Hmsgs & _).
  split; [exact Hout|].
  fold out in Hmsgs. rewrite Hmsgs. reflexivity.
Defined.

(** ** ORDER BY and the history loop *)

Module OrderProps.
Import GoStr Base Sql.
Local Open Scope list_scope.

Lemma insert_row_In {A} (before : A -> A -> bool) (e x : A) (l : list A) :
  In x (insert_row before e l) <-> x = e \/ In x l.
Proof.
  induction l as [|y l IH]; simpl.
  - intuition congruence.
  - destruct (before e y); simpl; [intuition congruence|].
    rewrite IH. intuition congruence.
Qed.

Lemma order_by_In {A} (before : A -> A -> bool) (x : A) (l : list A) :
  In x (order_by before l) <-> In x l.
Proof.
  unfold order_by. induction l as [|y l IH]; simpl; [tauto|].
  rewrite insert_row_In, IH. intuition congruence.
Qed.

Lemma insert_row_length {A} (before : A -> A -> bool) (e : A) (l : list A) :
  List.length (insert_row before e l) = S (List.length l).
Proof.
  induction l as [|y l IH]; simpl; [reflexivity|].
  destruct (before e y); simpl; [reflexivity|]. rewrite IH. reflexivity.
Qed.

Lemma fold_insert_newest {A} (before : A -> A -> bool) (x : A)
    (l acc : list A) :
  (forall y, In y l -> before y x = false) ->
  fold_right (insert_row before) (x :: acc) l
  = x :: fold_right (insert_row before) acc l.
Proof.
  induction l as [|y l IH]; intros H; simpl; [reflexivity|].
  rewrite IH by (intros z Hz; apply H; right; exact Hz).
  simpl. rewrite (H y (or_introl eq_refl)). reflexivity.
Qed.

(** A row that the clause puts strictly before every other row heads the
    result. *)
Lemma order_by_snoc_newest {A} (before : A -> A -> bool) (x : A) (l : list A) :
  (forall y, In y l -> before y x = false) ->
  order_by before (l ++ [x]) = x :: order_by before l.
Proof.
  intros H. unfold order_by. rewrite fold_right_app. simpl.
  apply fold_insert_newest. exact H.
Qed.

Lemma firstn_incl {A} (n : nat) (l : list A) (x : A) :
  In x (firstn n l) -> In x l.
Proof.
  revert l. induction n as [|n IH]; intros [|y l]; simpl; try tauto.
  intros [H|H]; [left; exact H|right; apply IH; exact H].
Qed.

Lemma sql_limit_incl {A} (n : Z) (l : list A) (x : A) :
  In x (sql_limit n l) -> In x l.
Proof.
  unfold sql_limit. destruct (n <? 0)%Z; [tauto|]. apply firstn_incl.
Qed.

Lemma sql_limit_length {A} (n : Z) (l : list A) :
  (0 <= n)%Z -> (Z.of_nat (List.length (sql_limit n l)) <= n)%Z.
Proof.
  intros H. unfold sql_limit.
  destruct (Z.ltb_spec n 0); [lia|].
  pose proof (firstn_le_length (Z.to_nat n) l). rewrite length_firstn. lia.
Qed.

End OrderProps.

Module HistoryProps.
Import GoStr Base Sql ChatStore EnhancedChatService.
Local Open Scope string_scope.
Local Open Scope list_scope.

(** The loop drops the messages that carry the identifier of the inbound
    message and hands on every other one, whatever its role and text. *)
Lemma historyMessages_filter (l : list ChatMessage) (id : uuid) :
  historyMessages l id
  = map asHistory (filter (fun m => negb (N.eqb (msg_ID m) id)) l).
Proof.
  induction l as [|m l IH]; simpl; [reflexivity|].
  destruct (negb (N.eqb (msg_ID m) id)); simpl; rewrite IH; reflexivity.
Qed.

Lemma historyMessages_all (l : list ChatMessage) (id : uuid) :
  ~ In id (map msg_ID l) -> historyMessages l id = map asHistory l.
Proof.
  induction l as [|m l IH]; simpl; intros H; [reflexivity|].
  destruct (N.eqb_spec (msg_ID m) id) as [E|E]; [tauto|].
  simpl. rewrite IH by tauto. reflexivity.
Qed.

Lemma gostring_eqb_eq (a b : gostring) : gostring_eqb a b = true <-> a = b.
Proof.
  unfold gostring_eqb. destruct (list_eq_dec N.eq_dec a b); split;
    congruence.
Qed.

Lemma copies_none (text : gostring) (l : list ChatMessage) :
  (forall m, In m l -> msg_Content m <> text) ->
  copies text (map asHistory l) = 0.
Proof.
  unfold copies. induction l as [|m l IH]; intros H; simpl; [reflexivity|].
  destruct (gostring_eqb (msg_Content m) text) eqn:E.
  - apply gostring_eqb_eq in E. exfalso. exact (H m (or_introl eq_refl) E).
  - apply IH. intros m' Hm'. apply H. right. exact Hm'.
Qed.

Lemma removelast_snoc {A} (l : list A) (x : A) : removelast (l ++ [x]) = l.
Proof. apply removelast_last. Qed.

End HistoryProps.

Module TwoTurns.
Import GoStr Base Sql ChatStore EnhancedChatService.
Import ChatStoreProps KnowledgeSearchProps EnhancedProps EnhancedRun.
Import EnhancedMessages OrderProps HistoryProps.
Local Open Scope string_scope.
Local Open Scope list_scope.

Lemma find_app_skip {A} (f : A -> bool) (l l' : list A) :
  (forall x, In x l -> f x = false) -> find f (l ++ l') = find f l'.
Proof.
  induction l as [|y l IH]; intros H; simpl; [reflexivity|].
  rewrite (H y (or_introl eq_refl)). apply IH.
  intros x Hx. apply H. right. exact Hx.
Qed.

(** The session that a request went on with is the one that its
    identifier resolves to afterwards. *)
Lemma resolved_again env userID sessionID w session w1 v :
  getOrCreateSession env userID sessionID w = (Ok session, w1) ->
  db_fault env SiteSessionLookup = None ->
  sessions (db v) = sessions (db w1) ->
  lookupFor env v userID (Some (sess_ID session)) = Some session.
Proof.
  rewrite getOrCreateSession_eq. intros Hget Hlook Hv.
  unfold lookupFor. rewrite Hlook, Hv.
  destruct (lookupFor env w userID sessionID) as [s0|] eqn:E.
  - inversion Hget; subst s0 w1; clear Hget.
    unfold lookupFor in E. destruct sessionID as [id0|]; [|discriminate].
    rewrite Hlook in E.
    pose proof (find_some _ _ E) as [_ Hf].
    apply andb_true_iff in Hf. destruct Hf as [Hf _].
    apply andb_true_iff in Hf. destruct Hf as [Hid _].
    apply N.eqb_eq in Hid. rewrite Hid. exact E.
  - rewrite createSession_spec in Hget.
    destruct (db_fault env SiteSessionCreate); [discriminate|].
    inversion Hget; subst session w1; clear Hget.
    simpl sessions. rewrite find_app_skip.
    + simpl. rewrite !N.eqb_refl. reflexivity.
    + intros x Hx. simpl sess_ID.
      destruct (N.eqb_spec (sess_ID x)
                  (fresh_id (map sess_ID (sessions (db w))))) as [Heq|Hne];
        [|reflexivity].
      exfalso. apply (fresh_id_fresh (map sess_ID (sessions (db w)))).
      rewrite <- Heq. apply in_map. exact Hx.
Qed.

(** What a successful call leaves in the store. *)
Lemma ProcessChat_Ok_store env s req w resp w' :
  ProcessChat env s req w = (Ok resp, w') ->
  exists session w1 am,
    getOrCreateSession env (UserID req) (SessionID req) w = (Ok session, w1)
    /\ RespSessionID resp = sess_ID session
    /\ db_fault env SiteUserMessageCreate = None
    /\ let um := messageMade w1 (sess_ID session) "user" (Message req)
                             MetaEmpty in
       messages (db w') = messages (db w) ++ [um; am]
       /\ msg_SessionID am = sess_ID session
       /\ msg_Content am = Response resp
       /\ msg_CreatedAt am = S (clock w1)
       /\ msg_ID am = fresh_id (map msg_ID (messages (db w) ++ [um]))
       /\ sessions (db w') = sessions (db w1)
       /\ clock w' = S (S (clock w1)).
Proof.
  intros Hrun.
  destruct (ProcessChat_Ok_inv env s req w resp w' Hrun)
    as (session & w1 & ai & w3 & tr & Hget & Hu & _ & H).
  cbv zeta in H.
  destruct H as (_ & _ & (Hdb & Hclock & _) & Hw' & Hresp & Hid & _).
  pose proof (getOrCreateSession_frame env (UserID req) (SessionID req) w)
    as Hframe.
  cbv zeta in Hframe. rewrite Hget in Hframe. simpl in Hframe.
  destruct Hframe as (Hmsgs & _ & _).
  set (um := messageMade w1 (sess_ID session) "user" (Message req) MetaEmpty)
    in *.
  set (am := messageMade w3 (sess_ID session) "assistant"
               (UnifiedAIService.Message ai)
               (MetaJSON (UnifiedAIService.Provider ai)
                         (UnifiedAIService.Model ai)
                         (UnifiedAIService.Sources ai))) in *.
  assert (Hm3 : messages (db w3) = messages (db w) ++ [um]).
  { rewrite Hdb. simpl. rewrite Hmsgs. reflexivity. }
  assert (Hc3 : clock w3 = S (clock w1)) by (rewrite Hclock; reflexivity).
  exists session, w1, am.
  split; [exact Hget|]. split; [exact Hid|]. split; [exact Hu|].
  cbv zeta. fold um. subst w'.
  split.
  { simpl. rewrite Hm3, <- app_assoc. reflexivity. }
  split; [reflexivity|].
  split; [symmetry; exact Hresp|].
  split; [exact Hc3|].
  split; [unfold am, messageMade; simpl; rewrite Hm3; reflexivity|].
  split; [simpl; rewrite Hdb; reflexivity|].
  simpl. rewrite Hc3. reflexivity.
Qed.

End TwoTurns.

Module SecondTurn.
Import GoStr Base Sql ChatStore EnhancedChatService.
Import ChatStoreProps KnowledgeSearchProps EnhancedProps EnhancedRun.
Import EnhancedMessages OrderProps HistoryProps TwoTurns.
Local Open Scope string_scope.
Local Open Scope list_scope.

(** The three newest messages of a session head its recent messages. *)
Lemma recentQuery_three_newest (d : DB) (sid : uuid) (old : list ChatMessage)
    (a b c : ChatMessage) :
  messages d = old ++ [a; b; c] ->
  msg_SessionID a = sid -> msg_SessionID b = sid -> msg_SessionID c = sid ->
  (forall m, In m old -> (msg_CreatedAt m < msg_CreatedAt a)%nat) ->
  (msg_CreatedAt a < msg_CreatedAt b)%nat ->
  (msg_CreatedAt b < msg_CreatedAt c)%nat ->
  recentQuery d sid 10
  = c :: b :: a
      :: firstn 7 (order_by created_at_desc
                     (filter (fun m => N.eqb (msg_SessionID m) sid) old)).
Proof.
  intros Hm Ha Hb Hc Hold Hab Hbc.
  unfold recentQuery. rewrite Hm, filter_app. simpl filter.
  rewrite Ha, Hb, Hc, N.eqb_refl.
  set (olds := filter (fun m => N.eqb (msg_SessionID m) sid) old).
  assert (Holds : forall m, In m olds ->
                    (msg_CreatedAt m < msg_CreatedAt a)%nat).
  { intros m Hin. apply Hold. unfold olds in Hin.
    apply filter_In in Hin. tauto. }
  replace (olds ++ [a; b; c]) with (((olds ++ [a]) ++ [b]) ++ [c])
    by (rewrite <- !app_assoc; reflexivity).
  rewrite order_by_snoc_newest.
  2:{ intros y Hy. unfold created_at_desc. apply Nat.leb_gt.
      apply in_app_or in Hy. destruct Hy as [Hy|[<-|[]]]; [|lia].
      apply in_app_or in Hy. destruct Hy as [Hy|[<-|[]]]; [|lia].
      specialize (Holds y Hy). lia. }
  rewrite order_by_snoc_newest.
  2:{ intros y Hy. unfold created_at_desc. apply Nat.leb_gt.
      apply in_app_or in Hy. destruct Hy as [Hy|[<-|[]]]; [|lia].
      specialize (Holds y Hy). lia. }
  rewrite order_by_snoc_newest.
  2:{ intros y Hy. unfold created_at_desc. apply Nat.leb_gt.
      exact (Holds y Hy). }
  reflexivity.
Qed.


(** The second turn: the follow-up request resolves to the session of the
    first turn, and its history is the reply and the inbound message of
    the first turn followed by older messages of the session. *)
Lemma followUp_prepared env s req w resp w' :
  ProcessChat env s req w = (Ok resp, w') ->
  db_fault env SiteSessionLookup = None ->
  db_fault env SiteRecentMessages = None ->
  stamped_before_now w ->
  exists session w1 am p2 w2 older,
    getOrCreateSession env (UserID req) (SessionID req) w = (Ok session, w1)
    /\ RespSessionID resp = sess_ID session
    /\ messages (db w')
       = messages (db w)
         ++ [messageMade w1 (sess_ID session) "user" (Message req) MetaEmpty;
             am]
    /\ msg_Content am = Response resp
    /\ prepare env s (followUp req resp) w' = (Ok p2, w2)
    /\ p_session p2 = session
    /\ ~ In (msg_ID (p_userMessage p2)) (map msg_ID (messages (db w')))
    /\ recentFor env w2 (sess_ID session)
       = p_userMessage p2 :: am
           :: messageMade w1 (sess_ID session) "user" (Message req) MetaEmpty
           :: older
    /\ (forall m, In m older ->
          In m (messages (db w)) /\ msg_SessionID m = sess_ID session)
    /\ UnifiedAIService.Messages (p_aiRequest p2)
       = historyMessages (recentFor env w2 (sess_ID session))
                         (msg_ID (p_userMessage p2))
         ++ [ {| Role := "user"; Content := Message req |} ].
Proof.
  intros Hrun Hlook Hrecent Hstamp.
  destruct (ProcessChat_Ok_store env s req w resp w' Hrun)
    as (session & w1 & am & Hget & Hid & Hu & H).
  cbv zeta in H.
  destruct H as (Hmsgs & Hams & Hamc & Hamt & Hami & Hsess & Hclock).
  set (um := messageMade w1 (sess_ID session) "user" (Message req) MetaEmpty)
    in *.
  pose proof (getOrCreateSession_frame env (UserID req) (SessionID req) w)
    as Hframe.
  cbv zeta in Hframe. rewrite Hget in Hframe. simpl in Hframe.
  destruct Hframe as (_ & _ & Hcl).
  assert (Hget2 : getOrCreateSession env (UserID (followUp req resp))
                    (SessionID (followUp req resp)) w' = (Ok session, w')).
  { rewrite getOrCreateSession_eq. unfold followUp. cbn [UserID SessionID].
    rewrite Hid.
    rewrite (resolved_again env (UserID req) (SessionID req) w session w1 w'
               Hget Hlook Hsess).
    reflexivity. }
  set (um2 := messageMade w' (sess_ID session) "user" (Message req) MetaEmpty).
  set (w2 := afterMessage w' um2).
  exists session, w1, am, (preparedFor env s (followUp req resp) session um2 w2),
    w2,
    (firstn 7 (order_by created_at_desc
                 (filter (fun m => N.eqb (msg_SessionID m) (sess_ID session))
                         (messages (db w))))).
  split; [exact Hget|]. split; [exact Hid|]. split; [exact Hmsgs|].
  split; [exact Hamc|].
  split.
  { rewrite prepare_eq, Hget2. simpl Message. rewrite Hu. reflexivity. }
  split; [reflexivity|].
  split; [apply fresh_id_fresh|].
  split.
  { unfold recentFor. rewrite Hrecent.
    apply recentQuery_three_newest.
    - simpl. rewrite Hmsgs, <- app_assoc. reflexivity.
    - reflexivity.
    - exact Hams.
    - reflexivity.
    - intros m Hm. specialize (Hstamp m Hm). simpl. lia.
    - rewrite Hamt. simpl. lia.
    - rewrite Hamt. simpl. lia. }
  split.
  { intros m Hm. apply firstn_incl in Hm. apply order_by_In in Hm.
    apply filter_In in Hm. destruct Hm as [Hin Hs].
    apply N.eqb_eq in Hs. tauto. }
  reflexivity.
Qed.

End SecondTurn.

(** C6. The history loop drops a fetched message only when it carries the
    identifier of the inbound message just stored, whatever its role and
    text.  So when a call has succeeded and the same text is sent again
    in the session of its response (the session lookup and the history
    query succeeding, no earlier message of the session and not the reply
    carrying that text), the history assembled for the second request
    holds that text exactly once: the stored inbound message of the
    first turn is kept, the one of the second turn is left out. *)
Theorem C6_history_excludes_by_identity
    (env : Env) (s : EnhancedChatService.t) (req : EnhancedChatRequest)
    (w : World) (resp : EnhancedChatResponse) (w' : World) :
  ProcessChat env s req w = (Ok resp, w') ->
  db_fault env SiteSessionLookup = None ->
  db_fault env SiteRecentMessages = None ->
  stamped_before_now w ->
  (forall m, In m (messages (db w)) ->
             msg_SessionID m = RespSessionID resp ->
             msg_Content m <> Message req) ->
  Response resp <> Message req ->
  exists p2 w2 first,
    prepare env s (followUp req resp) w' = (Ok p2, w2)
    /\ sess_ID (p_session p2) = RespSessionID resp
    /\ UnifiedAIService.Messages (p_aiRequest p2)
       = map asHistory
           (filter (fun m => negb (N.eqb (msg_ID m)
                                         (msg_ID (p_userMessage p2))))
                   (recentFor env w2 (sess_ID (p_session p2))))
         ++ [ {| Role := "user"%string; Content := Message req |} ]
    /\ In (p_userMessage p2) (recentFor env w2 (sess_ID (p_session p2)))
    /\ copies (Message req) (historyOf p2) = 1
    /\ In first (messages (db w')) /\ ~ In first (messages (db w))
    /\ msg_Role first = "user"%string
    /\ msg_Content first = Message req
    /\ In (asHistory first) (historyOf p2).
Proof.
  intros Hrun Hlook Hrecent Hstamp Hold Hreply.
  destruct (SecondTurn.followUp_prepared env s req w resp w'
              Hrun Hlook Hrecent Hstamp)
    as (session & w1 & am & p2 & w2 & older & Hget & Hid & Hmsgs & Hamc
        & Hprep & Hsess & Hfresh & Hrec & Holder & Hreq).
  set (um := messageMade w1 (sess_ID session) "user"%string (Message req)
                         MetaEmpty) in *.
  assert (Hhist : historyMessages (recentFor env w2 (sess_ID session))
                                  (msg_ID (p_userMessage p2))
                  = asHistory am :: asHistory um :: map asHistory older).
  { rewrite Hrec. simpl historyMessages. rewrite N.eqb_refl. simpl negb.
    cbv iota.
    change (historyMessages (am :: um :: older) (msg_ID (p_userMessage p2))
            = map asHistory (am :: um :: older)).
    apply HistoryProps.historyMessages_all.
    intros Hin. apply Hfresh. rewrite Hmsgs, map_app.
    apply in_or_app. simpl in Hin. simpl.
    destruct Hin as [H|[H|H]]; [right; right; left; exact H
                               |right; left; exact H|].
    left. apply in_map_iff in H. destruct H as (m & Hm & Hin).
    apply in_map_iff. exists m. split; [exact Hm|]. apply Holder. exact Hin. }
  assert (Hof : historyOf p2
                = asHistory am :: asHistory um :: map asHistory older).
  { unfold historyOf. rewrite Hreq, HistoryProps.removelast_snoc. exact Hhist. }
  exists p2, w2, um.
  split; [exact Hprep|].
  split; [rewrite Hsess; symmetry; exact Hid|].
  split.
  { rewrite Hreq, Hsess, HistoryProps.historyMessages_filter. reflexivity. }
  split; [rewrite Hsess, Hrec; left; reflexivity|].
  split.
  { rewrite Hof. unfold copies. simpl filter.
    destruct (gostring_eqb (msg_Content am) (Message req)) eqn:E1.
    { apply HistoryProps.gostring_eqb_eq in E1. rewrite Hamc in E1.
      contradiction. }
    assert (E2 : gostring_eqb (Message req) (Message req) = true)
      by (apply HistoryProps.gostring_eqb_eq; reflexivity).
    rewrite E2. simpl List.length. f_equal.
    apply (HistoryProps.copies_none (Message req) older).
    intros m Hm. destruct (Holder m Hm) as [Hin Hs].
    apply Hold; [exact Hin|]. rewrite Hid. exact Hs. }
  split; [rewrite Hmsgs; apply in_or_app; right; left; reflexivity|].
  split.
  { intros Hin. apply (ChatStoreProps.fresh_id_fresh
                         (map msg_ID (messages (db w1)))).
    pose proof (EnhancedMessages.getOrCreateSession_frame
                  env (UserID req) (SessionID req) w) as Hf.
    cbv zeta in Hf. rewrite Hget in Hf. simpl in Hf.
    destruct Hf as (Hm & _). rewrite Hm.
    apply in_map_iff. exists um. split; [|exact Hin].
    unfold um, messageMade. simpl. rewrite Hm. reflexivity. }
  split; [reflexivity|]. split; [reflexivity|].
  rewrite Hof. right. left. reflexivity.
Qed.

(** Two turns with the text "hello" on an empty database. *)
Lemma C6_witness :
  let req := Scenario.staleRequest in
  let out := ProcessChat Scenario.env_ok Scenario.enhanced req
               Scenario.emptyWorld in
  isOk (fst out) = true
  /\ stamped_before_now Scenario.emptyWorld
  /\ exists resp p2 w2,
       fst out = Ok resp
       /\ prepare Scenario.env_ok Scenario.enhanced (followUp req resp)
                  (snd out) = (Ok p2, w2)
       /\ copies (Message req) (historyOf p2) = 1.
Proof.
  intros req out.
  assert (Hst : stamped_before_now Scenario.emptyWorld)
    by (intros m Hm; destruct Hm).
  destruct out as [r w'] eqn:E. destruct r as [resp|e|e];
    [|vm_compute in E; discriminate|vm_compute in E; discriminate].
  split; [reflexivity|]. split; [exact Hst|].
  assert (Hreply : Response resp <> Message req).
  { vm_compute in E. inversion E. vm_compute. discriminate. }
  assert (Hold : forall m, In m (messages (db Scenario.emptyWorld)) ->
                   msg_SessionID m = RespSessionID resp ->
                   msg_Content m <> Message req)
    by (intros m Hm; destruct Hm).
  destruct (C6_history_excludes_by_identity
              Scenario.env_ok Scenario.enhanced req Scenario.emptyWorld
              resp w' E eq_refl eq_refl Hst Hold Hreply)
    as (p2 & w2 & first & Hprep & _ & _ & _ & Hcopies & _).
  exists resp, p2, w2. split; [reflexivity|]. split; [exact Hprep|exact Hcopies].
Defined.

(** ** Sorted results *)

Module SortedProps.
Import GoStr Base Sql.
Local Open Scope list_scope.

Section Sorted.
Variable A : Type.
Variable before : A -> A -> bool.
Hypothesis before_total : forall a b, before a b = true \/ before b a = true.
Hypothesis before_trans :
  forall a b c, before a b = true -> before b c = true -> before a c = true.

Lemma insert_row_sorted (e : A) (l : list A) :
  StronglySorted (fun a b => before a b = true) l ->
  StronglySorted (fun a b => before a b = true) (insert_row before e l).
Proof.
  induction l as [|x l IH]; intros Hs; simpl.
  - constructor; constructor.
  - inversion Hs as [|? ? Hl Hx]; subst.
    destruct (before e x) eqn:E.
    + constructor; [exact Hs|].
      constructor; [exact E|].
      apply Forall_forall. intros y Hy.
      rewrite Forall_forall in Hx. apply (before_trans e x y E).
      apply Hx. exact Hy.
    + constructor; [apply IH; exact Hl|].
      apply Forall_forall. intros y Hy.
      apply OrderProps.insert_row_In in Hy. destruct Hy as [->|Hy].
      * destruct (before_total x e) as [H|H]; [exact H|congruence].
      * rewrite Forall_forall in Hx. apply Hx. exact Hy.
Qed.

(** ORDER BY yields a list in the order of the clause. *)
Lemma order_by_sorted (l : list A) :
  StronglySorted (fun a b => before a b = true) (order_by before l).
Proof.
  unfold order_by. induction l as [|x l IH]; simpl.
  - constructor.
  - apply insert_row_sorted. exact IH.
Qed.
End Sorted.

Lemma StronglySorted_firstn {A} (R : A -> A -> Prop) (n : nat) (l : list A) :
  StronglySorted R l -> StronglySorted R (firstn n l).
Proof.
  revert l. induction n as [|n IH]; intros l Hs; simpl; [constructor|].
  destruct l as [|x l]; [constructor|].
  inversion Hs as [|? ? Hl Hx]; subst.
  constructor; [apply IH; exact Hl|].
  apply Forall_forall. intros y Hy. rewrite Forall_forall in Hx.
  apply Hx. apply (OrderProps.firstn_incl n l y Hy).
Qed.

Lemma StronglySorted_sql_limit {A} (R : A -> A -> Prop) (n : Z) (l : list A) :
  StronglySorted R l -> StronglySorted R (sql_limit n l).
Proof.
  unfold sql_limit. destruct (n <? 0)%Z; [tauto|].
  apply StronglySorted_firstn.
Qed.

Lemma StronglySorted_filter {A} (R : A -> A -> Prop) (f : A -> bool)
    (l : list A) :
  StronglySorted R l -> StronglySorted R (filter f l).
Proof.
  induction l as [|x l IH]; intros Hs; simpl; [constructor|].
  inversion Hs as [|? ? Hl Hx]; subst.
  destruct (f x); [|apply IH; exact Hl].
  constructor; [apply IH; exact Hl|].
  apply Forall_forall. intros y Hy. rewrite Forall_forall in Hx.
  apply Hx. apply filter_In in Hy. tauto.
Qed.



Lemma StronglySorted_weaken {A} (R R' : A -> A -> Prop) (l : list A) :
  (forall a b, R a b -> R' a b) -> StronglySorted R l -> StronglySorted R' l.
Proof.
  intros H. induction 1 as [|x l Hl IH Hx]; constructor; [exact IH|].
  apply Forall_forall. intros y Hy. rewrite Forall_forall in Hx.
  apply H. apply Hx. exact Hy.
Qed.

End SortedProps.

Module RecentProps.
Import GoStr Base Sql ChatStore.
Local Open Scope list_scope.

(** The recent messages of a session: at most ten, all of the session,
    from the newest to the oldest. *)
Lemma recentQuery_spec (d : DB) (sid : uuid) :
  newestFirst (recentQuery d sid 10)
  /\ (List.length (recentQuery d sid 10) <= 10)%nat
  /\ (forall m, In m (recentQuery d sid 10) ->
                In m (messages d) /\ msg_SessionID m = sid).
Proof.
  unfold recentQuery. split; [|split].
  - unfold newestFirst. apply SortedProps.StronglySorted_sql_limit.
    apply (SortedProps.StronglySorted_weaken
             (fun a b => created_at_desc a b = true)).
    + intros a b H. unfold created_at_desc in H. apply Nat.leb_le. exact H.
    + apply SortedProps.order_by_sorted.
      * intros a b. unfold created_at_desc.
        destruct (Nat.leb_spec (msg_CreatedAt b) (msg_CreatedAt a));
          [left; reflexivity|right; apply Nat.leb_le; lia].
      * intros a b c. unfold created_at_desc. rewrite !Nat.leb_le. lia.
  - pose proof (OrderProps.sql_limit_length 10
                  (order_by created_at_desc
                     (filter (fun m => N.eqb (msg_SessionID m) sid)
                             (messages d)))) as H.
    lia.
  - intros m Hm. apply OrderProps.sql_limit_incl in Hm.
    apply OrderProps.order_by_In in Hm. apply filter_In in Hm.
    destruct Hm as [Hin Hs]. apply N.eqb_eq in Hs. tauto.
Qed.

End RecentProps.

(** ** The order of the history *)

Module HistoryOrder.
Import GoStr Base Sql ChatStore.
Import ChatStoreProps KnowledgeSearchProps OrderProps SortedProps RecentProps.
Local Open Scope string_scope.
Local Open Scope list_scope.

Lemma recentFor_spec env w sid :
  newestFirst (recentFor env w sid)
  /\ (List.length (recentFor env w sid) <= 10)%nat
  /\ (forall m, In m (recentFor env w sid) ->
                In m (messages (db w)) /\ msg_SessionID m = sid).
Proof.
  unfold recentFor. destruct (db_fault env SiteRecentMessages).
  - split; [constructor|]. split; [simpl; lia|]. intros m [].
  - apply recentQuery_spec.
Qed.

Lemma filter_length_le {A} (f : A -> bool) (l : list A) :
  (List.length (filter f l) <= List.length l)%nat.
Proof.
  induction l as [|x l IH]; simpl; [lia|]. destruct (f x); simpl; lia.
Qed.

(** EnhancedChatService: the history is the fetched messages without the
    inbound one, in the order of the query: from the newest to the
    oldest; and there are at most ten of them. *)
Lemma enhanced_history env s req w p w2 :
  EnhancedChatService.prepare env s req w = (Ok p, w2) ->
  exists kept,
    EnhancedChatService.historyOf p = map EnhancedChatService.asHistory kept
    /\ UnifiedAIService.Messages (EnhancedChatService.p_aiRequest p)
       = EnhancedChatService.historyOf p
         ++ [ {| Role := "user";
                 Content := EnhancedChatService.Message req |} ]
    /\ newestFirst kept
    /\ (List.length kept <= 10)%nat
    /\ (forall m, In m kept ->
          In m (messages (db w2))
          /\ msg_SessionID m
             = sess_ID (EnhancedChatService.p_session p)).
Proof.
  intros Hprep.
  destruct (EnhancedMessages.prepare_Ok_inv env s req w p w2 Hprep)
    as (session & w1 & _ & _ & Hw2 & Hp).
  cbv zeta in Hw2, Hp.
  set (um := messageMade w1 (sess_ID session) "user"
               (EnhancedChatService.Message req) MetaEmpty) in *.
  destruct (recentFor_spec env w2 (sess_ID session)) as (Hs & Hl & Hin).
  exists (filter (fun m => negb (N.eqb (msg_ID m) (msg_ID um)))
                 (recentFor env w2 (sess_ID session))).
  assert (Hmsgs :
            UnifiedAIService.Messages (EnhancedChatService.p_aiRequest p)
            = map EnhancedChatService.asHistory
                (filter (fun m => negb (N.eqb (msg_ID m) (msg_ID um)))
                        (recentFor env w2 (sess_ID session)))
              ++ [ {| Role := "user";
                      Content := EnhancedChatService.Message req |} ]).
  { rewrite Hp. simpl. rewrite HistoryProps.historyMessages_filter.
    reflexivity. }
  assert (Hh : EnhancedChatService.historyOf p
               = map EnhancedChatService.asHistory
                   (filter (fun m => negb (N.eqb (msg_ID m) (msg_ID um)))
                           (recentFor env w2 (sess_ID session)))).
  { unfold EnhancedChatService.historyOf. rewrite Hmsgs.
    apply HistoryProps.removelast_snoc. }
  split; [exact Hh|]. split; [rewrite Hh; exact Hmsgs|].
  split; [apply StronglySorted_filter; exact Hs|].
  split.
  { pose proof (filter_length_le
                  (fun m => negb (N.eqb (msg_ID m) (msg_ID um)))
                  (recentFor env w2 (sess_ID session))). lia. }
  intros m Hm. apply filter_In in Hm. destruct Hm as [Hm _].
  rewrite Hp. simpl. apply Hin. exact Hm.
Qed.




End HistoryOrder.

(** ** What holds of every request that EnhancedChatService builds *)

Module EnhancedInvariants.
Import GoStr Base Sql ChatStore EnhancedChatService.
Import ChatStoreProps EnhancedProps EnhancedRun EnhancedMessages.
Local Open Scope string_scope.
Local Open Scope list_scope.

Lemma asHistory_not_assistant (msg : ChatMessage) :
  Role (asHistory msg) <> AssistantMessage.
Proof.
  unfold asHistory. simpl.
  destruct (String.eqb_spec (msg_Role msg) "assistant") as [E|E].
  - discriminate.
  - exact E.
Qed.

(** No message that the service hands to the orchestrator carries the
    label "assistant", whichever provider the request goes to. *)
Lemma prepared_never_assistant env s req w p w2 :
  prepare env s req w = (Ok p, w2) ->
  Forall (fun rc => Role rc <> AssistantMessage)
         (UnifiedAIService.Messages (p_aiRequest p)).
Proof.
  intros Hprep.
  destruct (HistoryOrder.enhanced_history env s req w p w2 Hprep)
    as (kept & Hh & Hm & _).
  rewrite Hm, Hh. apply Forall_app. split.
  - apply Forall_forall. intros rc Hrc. apply in_map_iff in Hrc.
    destruct Hrc as (m & <- & _). apply asHistory_not_assistant.
  - constructor; [discriminate|constructor].
Qed.

(** OpenAI receives the messages of the request as they are, after the
    system message. *)
Lemma callOpenAI_wire env us svc aireq w :
  UnifiedAIService.openAIService us = Some svc ->
  calls (snd (UnifiedAIService.callOpenAI env us aireq w))
  = calls w
    ++ [CallOpenAIChat
          ({| Role := "system";
              Content := OpenAIService.buildSystemMessage
                           (UnifiedAIService.Context aireq) |}
           :: UnifiedAIService.Messages aireq)].
Proof.
  intros Ho. unfold UnifiedAIService.callOpenAI. rewrite Ho.
  rewrite UnifiedProps.snd_bind_ret.
  unfold OpenAIService.ChatCompletion, bind, record_call. simpl.
  assert (Hid : forall l : list RoleContent,
             map (fun msg => {| Role := Role msg; Content := Content msg |}) l
             = l).
  { induction l as [|[r c] l IH]; simpl; [reflexivity|].
    rewrite IH. reflexivity. }
  rewrite !Hid.
  destruct (openai_CreateChatCompletion env _ _) as [[|ch chs]|e|e];
    reflexivity.
Qed.

(** A successful call stamps its messages with the clock and advances
    it. *)
Lemma ProcessChat_keeps_stamps env s req w resp w' :
  ProcessChat env s req w = (Ok resp, w') ->
  stamped_before_now w -> stamped_before_now w'.
Proof.
  intros Hrun Hst.
  destruct (TwoTurns.ProcessChat_Ok_store env s req w resp w' Hrun)
    as (session & w1 & am & Hget & _ & _ & H).
  cbv zeta in H. destruct H as (Hmsgs & _ & _ & Hamt & _ & _ & Hclock).
  pose proof (getOrCreateSession_frame env (UserID req) (SessionID req) w)
    as Hframe.
  cbv zeta in Hframe. rewrite Hget in Hframe. simpl in Hframe.
  destruct Hframe as (_ & _ & Hcl).
  intros m Hm. rewrite Hmsgs in Hm. rewrite Hclock.
  apply in_app_or in Hm. destruct Hm as [Hm|[<-|[<-|[]]]].
  - specialize (Hst m Hm). lia.
  - simpl. lia.
  - rewrite Hamt. lia.
Qed.

End EnhancedInvariants.

(** C4 (code bug). Whatever the request, the history that
    EnhancedChatService assembles holds at most ten stored messages of the
    session and the current message comes last, but the stored messages
    stand from the newest to the oldest.  So when a session holds "first
    question" (stamped 1) and then "first answer" (stamped 2) and "second
    question" is sent, the provider receives the answer before the
    question; ChatService hands the same history over from the oldest to
    the newest. *)
Theorem C4_enhanced_history_newest_first
    (env : Env) (s : EnhancedChatService.t)
    (req : EnhancedChatService.EnhancedChatRequest) (w : World) :
  let out := EnhancedChatService.ProcessChat Scenario.env_ok Scenario.enhanced
               Scenario.nextRequest Scenario.talkedWorld in
  let legacy := ChatService.ProcessChat Scenario.env_ok Scenario.legacy
                  Scenario.nextRequestLegacy Scenario.talkedWorld in
  match fst (EnhancedChatService.prepare env s req w) with
  | Ok p =>
      exists kept,
        UnifiedAIService.Messages (EnhancedChatService.p_aiRequest p)
        = map EnhancedChatService.asHistory kept
          ++ [ {| Role := "user"%string;
                  Content := EnhancedChatService.Message req |} ]
        /\ newestFirst kept
        /\ (List.length kept <= 10)%nat
  | _ => True
  end
  /\ (msg_CreatedAt Scenario.firstQuestion
      < msg_CreatedAt Scenario.firstAnswer)%nat
  /\ isOk (fst out) = true
  /\ (exists wire,
         calls (snd out) = [CallOpenAIChat wire]
         /\ map Content (tl wire)
            = [GoStr.lit "first answer"; GoStr.lit "first question";
               GoStr.lit "second question"])
  /\ (exists wire,
         calls (snd legacy) = [CallOpenAIChat wire]
         /\ map Content (tl wire)
            = [GoStr.lit "first question"; GoStr.lit "first answer";
               GoStr.lit "second question"]).
Proof.
  cbv zeta. split.
  - destruct (EnhancedChatService.prepare env s req w) as [[p|e|e] w2] eqn:E;
      simpl; try exact I.
    destruct (HistoryOrder.enhanced_history env s req w p w2 E)
      as (kept & Hh & Hm & Hs & Hl & _).
    exists kept. rewrite Hm, Hh. repeat split; assumption.
  - split; [simpl; lia|]. split; [vm_compute; reflexivity|].
    split; eexists; (split; [vm_compute; reflexivity|vm_compute; reflexivity]).
Qed.

(** The label of an assistant turn is rewritten before a provider is
    chosen. *)
Lemma asHistory_assistant (msg : ChatMessage) :
  msg_Role msg = AssistantMessage ->
  Role (EnhancedChatService.asHistory msg) = "model"%string.
Proof.
  intros H. unfold EnhancedChatService.asHistory. rewrite H. reflexivity.
Qed.

(** C7 (code bug). Whatever the request and the provider it goes to, no
    message that EnhancedChatService hands on carries the label
    "assistant": the label of a stored assistant turn has been rewritten
    to "model", the label of Gemini.  So when the session above is
    continued and the default orchestrator sends the request to OpenAI,
    which answers, the stored assistant turn reaches OpenAI as "model",
    while OpenAI's label for its own turns is "assistant". *)
Theorem C7_assistant_turn_sent_to_openai_as_model
    (env : Env) (s : EnhancedChatService.t)
    (req : EnhancedChatService.EnhancedChatRequest) (w : World) :
  let out := EnhancedChatService.ProcessChat Scenario.env_ok Scenario.enhanced
               Scenario.nextRequest Scenario.talkedWorld in
  match fst (EnhancedChatService.prepare env s req w) with
  | Ok p =>
      Forall (fun rc => Role rc <> AssistantMessage)
             (UnifiedAIService.Messages (EnhancedChatService.p_aiRequest p))
  | _ => True
  end
  /\ exists resp wire,
       fst out = Ok resp
       /\ EnhancedChatService.Provider resp = OpenAIProvider
       /\ calls (snd out) = [CallOpenAIChat wire]
       /\ map Role wire = ["system"; "model"; "user"; "user"]%string
       /\ In {| Role := "model"; Content := GoStr.lit "first answer" |} wire
       /\ UnifiedAIService.ownTurnLabel OpenAIProvider = "assistant"%string
       /\ UnifiedAIService.ownTurnLabel GeminiProvider = "model"%string.
Proof.
  cbv zeta. split.
  - destruct (EnhancedChatService.prepare env s req w) as [[p|e|e] w2] eqn:E;
      simpl; try exact I.
    exact (EnhancedInvariants.prepared_never_assistant env s req w p w2 E).
  - eexists. eexists.
    split; [vm_compute; reflexivity|].
    split; [reflexivity|].
    split; [vm_compute; reflexivity|].
    split; [reflexivity|].
    split; [right; left; reflexivity|].
    split; reflexivity.
Qed.

(** ** ILIKE and substring search *)

Module LikeProps.
Import GoStr Base Sql.
Local Open Scope list_scope.

Lemma like_pct (p s : gostring) :
  like (pct :: p) s
  = like p s || match s with [] => false | _ :: s' => like (pct :: p) s' end.
Proof.
  destruct s as [|x s]; reflexivity.
Qed.

Lemma like_only_pct (s : gostring) : like [pct] s = true.
Proof.
  induction s as [|x s IH].
  - reflexivity.
  - rewrite like_pct, IH. apply orb_true_r.
Qed.

Lemma like_plain (c : rune) (p s : gostring) :
  isPlain c = true ->
  like (c :: p) s
  = match s with [] => false | x :: s' => (x =? c)%N && like p s' end.
Proof.
  unfold isPlain. intros H. apply negb_true_iff in H.
  apply orb_false_iff in H. destruct H as [H Hb].
  apply orb_false_iff in H. destruct H as [Hp Hu].
  simpl. rewrite Hp, Hu, Hb. reflexivity.
Qed.

(** A plain pattern followed by [%] matches the strings it is a prefix
    of. *)
Lemma like_plain_prefix (q s : gostring) :
  wildcardFree q = true -> like (q ++ [pct]) s = isPrefixOf q s.
Proof.
  revert s. induction q as [|c q IH]; intros s H.
  - simpl app. apply like_only_pct.
  - simpl in H. apply andb_true_iff in H. destruct H as [Hc Hq].
    simpl app. rewrite (like_plain c (q ++ [pct]) s Hc).
    destruct s as [|x s]; [reflexivity|].
    simpl. rewrite (IH s Hq). reflexivity.
Qed.

Lemma like_infix (q s : gostring) :
  wildcardFree q = true -> like (pct :: q ++ [pct]) s = hasInfix q s.
Proof.
  intros H. induction s as [|x s IH].
  - rewrite like_pct, (like_plain_prefix q [] H). simpl.
    reflexivity.
  - rewrite like_pct, (like_plain_prefix q (x :: s) H), IH. reflexivity.
Qed.

Lemma toLower_plain (r : rune) : isPlain (toLower r) = isPlain r.
Proof.
  unfold toLower, isPlain, pct, underscore, backslash.
  destruct ((65 <=? r)%N && (r <=? 90)%N) eqn:E; [|reflexivity].
  apply andb_true_iff in E. destruct E as [E1 E2].
  apply N.leb_le in E1. apply N.leb_le in E2.
  repeat match goal with
         | |- context [(?a =? ?b)%N] =>
             destruct (N.eqb_spec a b); try lia
         end; reflexivity.
Qed.

Lemma wildcardFree_toLower (q : gostring) :
  wildcardFree (map toLower q) = wildcardFree q.
Proof.
  unfold wildcardFree. induction q as [|c q IH]; simpl; [reflexivity|].
  rewrite toLower_plain, IH. reflexivity.
Qed.

(** For a query without LIKE operators, [ILIKE '%query%'] is the
    substring search that ignores letter case. *)
Lemma ILIKE_contains (q s : gostring) :
  wildcardFree q = true ->
  ILIKE s ([pct] ++ q ++ [pct]) = containsFold q s.
Proof.
  intros H. unfold ILIKE, containsFold.
  simpl app. rewrite map_cons, map_app. simpl map at 2.
  change (toLower pct) with pct.
  apply like_infix. rewrite wildcardFree_toLower. exact H.
Qed.

Lemma isPrefixOf_spec (q t : gostring) :
  isPrefixOf q t = true <-> exists b, t = q ++ b.
Proof.
  revert t. induction q as [|c q IH]; intros t; simpl.
  - split; [intros _; exists t; reflexivity|reflexivity].
  - destruct t as [|x t].
    + split; [discriminate|]. intros [b Hb]. discriminate.
    + rewrite andb_true_iff, N.eqb_eq, IH. split.
      * intros [-> [b ->]]. exists b. reflexivity.
      * intros [b Hb]. inversion Hb; subst. split; [reflexivity|].
        exists b. reflexivity.
Qed.

(** [hasInfix] finds the strings that hold the query as a substring. *)
Lemma hasInfix_spec (q t : gostring) :
  hasInfix q t = true <-> exists a b, t = a ++ q ++ b.
Proof.
  induction t as [|x t IH]; simpl.
  - rewrite orb_false_r, isPrefixOf_spec. split.
    + intros [b Hb]. exists [], b. exact Hb.
    + intros [a [b Hab]]. destruct a; [exists b; exact Hab|discriminate].
  - rewrite orb_true_iff, isPrefixOf_spec, IH. split.
    + intros [[b Hb]|[a [b Hab]]].
      * exists [], b. exact Hb.
      * exists (x :: a), b. simpl. rewrite Hab. reflexivity.
    + intros [a [b Hab]]. destruct a as [|y a].
      * left. exists b. exact Hab.
      * right. simpl in Hab. inversion Hab; subst. exists a, b. reflexivity.
Qed.

End LikeProps.

(** ** SearchKnowledgeEntries *)

Module SearchProps.
Import GoStr Base Sql KnowledgeService.
Import KnowledgeSearchProps OrderProps SortedProps LikeProps.
Local Open Scope list_scope.

Lemma priority_viewcount_desc_total (a b : KnowledgeEntry) :
  priority_viewcount_desc a b = true \/ priority_viewcount_desc b a = true.
Proof.
  unfold priority_viewcount_desc.
  destruct (Z.ltb_spec (ke_Priority b) (ke_Priority a)); [left; reflexivity|].
  destruct (Z.ltb_spec (ke_Priority a) (ke_Priority b)); [right; reflexivity|].
  assert (E : ke_Priority a = ke_Priority b) by lia.
  rewrite E, Z.eqb_refl. simpl.
  destruct (Z.leb_spec (ke_ViewCount b) (ke_ViewCount a));
    [left; reflexivity|right; apply Z.leb_le; lia].
Qed.

Lemma priority_viewcount_desc_ranked (a b : KnowledgeEntry) :
  priority_viewcount_desc a b = true <-> ranked a b.
Proof.
  unfold priority_viewcount_desc, ranked.
  rewrite orb_true_iff, andb_true_iff, Z.ltb_lt, Z.eqb_eq, Z.leb_le.
  reflexivity.
Qed.

Lemma priority_viewcount_desc_trans (a b c : KnowledgeEntry) :
  priority_viewcount_desc a b = true ->
  priority_viewcount_desc b c = true ->
  priority_viewcount_desc a c = true.
Proof.
  rewrite !priority_viewcount_desc_ranked. unfold ranked. lia.
Qed.

Lemma textMatch_contains (query : gostring) (e : KnowledgeEntry) :
  wildcardFree query = true ->
  textMatch ([pct] ++ query ++ [pct]) e = containsMatch query e.
Proof.
  intros H. unfold textMatch, containsMatch.
  rewrite !(ILIKE_contains query _ H). reflexivity.
Qed.

(** What the text query returns. *)
Lemma textSearch_result (env : Env) (query : gostring) (limit : Z)
    (w : World) (l : list KnowledgeEntry) :
  fst (textSearch env query limit w) = Ok l ->
  l = sql_limit limit
        (order_by priority_viewcount_desc
           (filter (textMatch ([pct] ++ query ++ [pct])) (entries (db w))))
  /\ StronglySorted ranked l
  /\ Forall (fun e => In e (entries (db w)) /\ ke_IsPublished e = true
                      /\ textMatch ([pct] ++ query ++ [pct]) e = true) l.
Proof.
  rewrite textSearch_spec.
  destruct (db_fault env SiteKnowledgeTextFind); [discriminate|].
  simpl. intros H. inversion H as [Hl]; clear H.
  split; [reflexivity|]. split.
  - apply StronglySorted_sql_limit.
    apply (StronglySorted_weaken
             (fun a b => priority_viewcount_desc a b = true)).
    + intros a b. apply priority_viewcount_desc_ranked.
    + apply order_by_sorted.
      * exact priority_viewcount_desc_total.
      * exact priority_viewcount_desc_trans.
  - apply Forall_forall. intros e He.
    apply sql_limit_incl in He. apply order_by_In in He.
    apply filter_In in He. destruct He as [Hin Hm].
    split; [exact Hin|]. split; [|exact Hm].
    unfold textMatch in Hm. apply andb_true_iff in Hm. tauto.
Qed.

End SearchProps.

Import Sql KnowledgeService.

(** C2 (amended). SearchKnowledgeEntries asks the vector client first,
    which refuses every text query, and so always runs the text query:
    the published entries whose title, content or summary matches the
    ILIKE pattern [%query%], ordered by priority and then view count,
    both descending, and cut to [limit] entries when [limit] is not
    negative.  For a query without the LIKE operators [%], [_] and
    backslash that is the case-insensitive substring match.  Neither
    query returns an entry that is not published. *)
Theorem C2_search_text_fallback
    (env : Env) (s : KnowledgeService.t) (query : gostring) (limit : Z)
    (w : World) :
  let out := SearchKnowledgeEntries env s query limit w in
  (forall vs, isOk (VectorService.Search vs query limit) = false)
  /\ out = textSearch env query limit w
  /\ snd out = w
  /\ match fst out with
     | Ok l =>
         l = sql_limit limit
               (order_by priority_viewcount_desc
                  (filter (textMatch ([pct] ++ query ++ [pct]))
                          (entries (db w))))
         /\ StronglySorted ranked l
         /\ Forall (fun e => In e (entries (db w))
                             /\ ke_IsPublished e = true) l
         /\ ((0 <= limit)%Z -> (Z.of_nat (List.length l) <= limit)%Z)
         /\ (wildcardFree query = true ->
             l = sql_limit limit
                   (order_by priority_viewcount_desc
                      (filter (containsMatch query) (entries (db w)))))
     | Err e => db_fault env SiteKnowledgeTextFind = Some e
     | Panic _ => False
     end
  /\ (forall entryIDs e,
         In e (filter (vectorMatch entryIDs) (entries (db w))) ->
         ke_IsPublished e = true).
Proof.
  intros out. subst out.
  rewrite KnowledgeSearchProps.SearchKnowledgeEntries_is_textSearch.
  split; [intros vs; reflexivity|]. split; [reflexivity|].
  split; [rewrite KnowledgeSearchProps.textSearch_spec;
          destruct (db_fault env SiteKnowledgeTextFind); reflexivity|].
  split.
  - destruct (fst (textSearch env query limit w)) as [l|e|e] eqn:E.
    + destruct (SearchProps.textSearch_result env query limit w l E)
        as (Hl & Hs & Hall).
      split; [exact Hl|]. split; [exact Hs|].
      split.
      { apply Forall_forall. intros e He. rewrite Forall_forall in Hall.
        destruct (Hall e He) as (H1 & H2 & _). split; assumption. }
      split.
      { intros Hlim. rewrite Hl. apply OrderProps.sql_limit_length.
        exact Hlim. }
      intros Hq. rewrite Hl. f_equal. f_equal.
      apply filter_ext. intros e.
      apply SearchProps.textMatch_contains. exact Hq.
    + rewrite KnowledgeSearchProps.textSearch_spec in E.
      destruct (db_fault env SiteKnowledgeTextFind); simpl in E;
        [congruence|discriminate].
    + rewrite KnowledgeSearchProps.textSearch_spec in E.
      destruct (db_fault env SiteKnowledgeTextFind); discriminate.
  - intros ids e He. apply filter_In in He. destruct He as [_ He].
    unfold vectorMatch in He. apply andb_true_iff in He. tauto.
Qed.

(** The query "paYMent" with limit 5 over three entries, one of them
    unpublished. *)
Lemma C2_witness :
  let query := GoStr.lit "paYMent" in
  wildcardFree query = true
  /\ (0 <= 5)%Z
  /\ fst (SearchKnowledgeEntries Scenario.env_ok Scenario.knowledge query 5
            Scenario.libraryWorld)
     = Ok [Scenario.entryA].
Proof.
  intros query.
  pose proof (C2_search_text_fallback Scenario.env_ok Scenario.knowledge
                query 5 Scenario.libraryWorld) as H.
  cbv zeta in H. destruct H as (_ & _ & _ & H & _).
  destruct (fst (SearchKnowledgeEntries Scenario.env_ok Scenario.knowledge
                   query 5 Scenario.libraryWorld)) as [l|e|e];
    [|discriminate H|destruct H].
  destruct H as (_ & _ & _ & _ & Hc).
  split; [reflexivity|]. split; [lia|].
  rewrite (Hc eq_refl). reflexivity.
Defined.

(** C2 as stated fails: the query "_" with limit 5 returns both published
    entries, and neither holds an underscore in its title, content or
    summary. *)
Lemma C2_counterexample_underscore :
  let query := GoStr.lit "_" in
  fst (SearchKnowledgeEntries Scenario.env_ok Scenario.knowledge query 5
         Scenario.libraryWorld)
  = Ok [Scenario.entryB; Scenario.entryA]
  /\ containsMatch query Scenario.entryA = false
  /\ containsMatch query Scenario.entryB = false.
Proof. vm_compute. repeat split; reflexivity. Qed.

(** ** The embedding lifecycle *)

Module EmbeddingProps.
Import GoStr Base Chunker Sql KnowledgeService.
Local Open Scope string_scope.
Local Open Scope list_scope.

Lemma CreateEmbedding_frame env svc text w :
  untouched w (snd (OpenAIService.CreateEmbedding env svc text w)).
Proof.
  unfold OpenAIService.CreateEmbedding, bind, record_call, untouched.
  destruct (openai_CreateEmbeddings env _ _) as [[|v vs]|e|e]; simpl;
    split; reflexivity.
Qed.

Lemma Store_frame env vs vector text id w :
  untouched w (snd (VectorService.Store env vs vector text id w)).
Proof.
  unfold VectorService.Store, bind, record_call, lift, untouched.
  destruct (vector_Store env _ _ _ _); simpl; split; reflexivity.
Qed.

Lemma untouched_refl w : untouched w w.
Proof. split; reflexivity. Qed.

Lemma untouched_trans w1 w2 w3 :
  untouched w1 w2 -> untouched w2 w3 -> untouched w1 w3.
Proof. unfold untouched. intros [A B] [C D]. split; congruence. Qed.

(** The embedding loop writes to the transaction only. *)
Lemma embedChunks_frame env s id chunks :
  forall i tx w, untouched w (snd (embedChunks env s id i chunks tx w)).
Proof.
  induction chunks as [|chunk rest IH]; intros i tx w; simpl.
  - apply untouched_refl.
  - unfold bind at 1.
    destruct (openAIService s) as [svc|]; [|apply untouched_refl].
    pose proof (CreateEmbedding_frame env svc chunk w) as H1.
    destruct (OpenAIService.CreateEmbedding env svc chunk w)
      as [[embedding|e|e] w1]; simpl in H1; try exact H1.
    unfold bind at 1.
    destruct (vectorService s) as [vs|]; [|exact H1].
    pose proof (Store_frame env vs embedding chunk id w1) as H2.
    destruct (VectorService.Store env vs embedding chunk id w1)
      as [[vectorID|e|e] w2]; simpl in H2;
      try exact (untouched_trans _ _ _ H1 H2).
    unfold bind at 1, lift.
    destruct (tx_CreateEmbedding env tx id vectorID i chunk) as [tx'|e|e];
      try exact (untouched_trans _ _ _ H1 H2).
    apply (untouched_trans _ _ _ (untouched_trans _ _ _ H1 H2)).
    apply IH.
Qed.

(** What the embedding loop has written to the transaction when it
    returns without error. *)
Lemma embedChunks_Ok env s id chunks :
  forall i tx w tx' w',
    embedChunks env s id i chunks tx w = (Ok tx', w') ->
    exists news,
      embeddings (tx_db tx') = embeddings (tx_db tx) ++ news
      /\ entries (tx_db tx') = entries (tx_db tx)
      /\ sessions (tx_db tx') = sessions (tx_db tx)
      /\ messages (tx_db tx') = messages (tx_db tx)
      /\ tx_stmts tx'
         = tx_stmts tx ++ createStmts id i (List.length chunks)
      /\ map rowView news = indexed i chunks
      /\ Forall (fun v => ve_KnowledgeEntryID v = id) news.
Proof.
  induction chunks as [|chunk rest IH]; intros i tx w tx' w'; simpl.
  - unfold ret. intros H. inversion H; subst. exists [].
    unfold createStmts. simpl. rewrite !app_nil_r.
    repeat split; constructor.
  - unfold bind at 1.
    destruct (openAIService s) as [svc|]; [|discriminate].
    destruct (OpenAIService.CreateEmbedding env svc chunk w)
      as [[embedding|e|e] w1]; try discriminate.
    unfold bind at 1.
    destruct (vectorService s) as [vs|]; [|discriminate].
    destruct (VectorService.Store env vs embedding chunk id w1)
      as [[vectorID|e|e] w2]; try discriminate.
    unfold bind at 1, lift.
    destruct (tx_CreateEmbedding env tx id vectorID i chunk) as [tx1|e|e] eqn:E;
      try discriminate.
    intros H. apply IH in H.
    destruct H as (news & He & Hen & Hs & Hm & Hst & Hv & Hall).
    unfold tx_CreateEmbedding in E.
    destruct (db_fault env (SiteEmbeddingCreate i)); [discriminate|].
    inversion E; subst tx1; clear E. simpl in *.
    eexists (_ :: news).
    split; [rewrite He, <- app_assoc; reflexivity|].
    split; [exact Hen|]. split; [exact Hs|]. split; [exact Hm|].
    split.
    { rewrite Hst, <- app_assoc. unfold createStmts. reflexivity. }
    split.
    { unfold indexed. simpl. unfold indexed in Hv. rewrite Hv. reflexivity. }
    constructor; [reflexivity|exact Hall].
Qed.

Lemma embeddingsOf_app id d news :
  filter (fun v => N.eqb (ve_KnowledgeEntryID v) id) (embeddings d ++ news)
  = embeddingsOf id d
    ++ filter (fun v => N.eqb (ve_KnowledgeEntryID v) id) news.
Proof. unfold embeddingsOf. apply filter_app. Qed.

Lemma filter_all {A} (f : A -> bool) (l : list A) :
  Forall (fun x => f x = true) l -> filter f l = l.
Proof.
  induction 1 as [|x l Hx Hl IH]; simpl; [reflexivity|].
  rewrite Hx, IH. reflexivity.
Qed.

Lemma filter_none {A} (f : A -> bool) (l : list A) :
  Forall (fun x => f x = false) l -> filter f l = [].
Proof.
  induction 1 as [|x l Hx Hl IH]; simpl; [reflexivity|].
  rewrite Hx, IH. reflexivity.
Qed.

Lemma filter_own id news :
  Forall (fun v => ve_KnowledgeEntryID v = id) news ->
  filter (fun v => N.eqb (ve_KnowledgeEntryID v) id) news = news.
Proof.
  intros H. apply filter_all. apply Forall_forall. intros v Hv.
  rewrite Forall_forall in H. rewrite (H v Hv). apply N.eqb_refl.
Qed.

Lemma filter_others_own id (l : list VectorEmbedding) :
  filter (fun v => N.eqb (ve_KnowledgeEntryID v) id)
         (filter (fun v => negb (N.eqb (ve_KnowledgeEntryID v) id)) l)
  = [].
Proof.
  apply filter_none. apply Forall_forall. intros v Hv.
  apply filter_In in Hv. destruct Hv as [_ Hv].
  apply negb_true_iff in Hv. exact Hv.
Qed.

End EmbeddingProps.

Module LifecycleProps.
Import GoStr Base Chunker Sql KnowledgeService EmbeddingProps.
Local Open Scope string_scope.
Local Open Scope list_scope.

(** The transaction was rolled back: nothing was written, whatever the
    handler returns. *)
Ltac rolled_back :=
  split; [left; apply untouched_refl|intros; apply untouched_refl].

Ltac rolled_back_after H := split; [left; exact H|intros; exact H].

Lemma set_ID_same entry : set_ID entry (ke_ID entry) = entry.
Proof. destruct entry; reflexivity. Qed.

Lemma indexed_length {A} (i : nat) (l : list A) :
  List.length (indexed i l) = List.length l.
Proof.
  unfold indexed. rewrite length_combine, length_seq. apply Nat.min_id.
Qed.

Lemma news_length news i chunks :
  map rowView news = indexed i chunks ->
  List.length news = List.length chunks.
Proof.
  intros H. rewrite <- (length_map rowView news), H. apply indexed_length.
Qed.

Lemma CreateKnowledgeEntry_outcome env s entry w :
  let out := CreateKnowledgeEntry env s entry w in
  (untouched w (snd out) \/ createCommitted entry w out)
  /\ (forall e, fst (fst out) = Some e -> untouched w (snd out)).
Proof.
  cbv zeta. unfold CreateKnowledgeEntry, tx_Create.
  destruct (db_fault env SiteEntryCreate) as [e|].
  { rolled_back. }
  simpl entries.
  fold (storedID entry (db w)).
  set (id := storedID entry (db w)).
  destruct (has_entry id (entries (db w))) eqn:Hhas.
  { rolled_back. }
  set (stored := set_ID entry id).
  set (tx1 := with_entries (Begin w) (entries (db w) ++ [stored])
                           (StmtCreateEntry id)).
  destruct (ke_IsPublished stored) eqn:Hpub.
  - pose proof (embedChunks_frame env s (ke_ID stored)
                  (ChunkText (fullText stored) 1000) 0 tx1 w) as Hfr.
    unfold createEmbeddings.
    destruct (embedChunks env s (ke_ID stored) 0
                (ChunkText (fullText stored) 1000) tx1 w)
      as [[tx2|e|e] w1] eqn:E; simpl in Hfr.
    + destruct (embedChunks_Ok env s (ke_ID stored) _ 0 tx1 w tx2 w1 E)
        as (news & He & Hen & _ & _ & Hst & Hv & Hall).
      unfold Commit. destruct (db_fault env SiteCommit) as [e|].
      * rolled_back_after Hfr.
      * split; [|discriminate]. right.
        unfold createCommitted. simpl.
        split; [reflexivity|]. split; [reflexivity|].
        split; [exact Hhas|]. split; [exact Hen|].
        exists news. simpl in He.
        split; [exact He|].
        split.
        { unfold embeddingsOf at 1. rewrite He.
          rewrite embeddingsOf_app, (filter_own id news Hall). reflexivity. }
        split; [unfold expectedRows; rewrite Hpub; exact Hv|].
        destruct Hfr as [_ Hj]. rewrite Hj, Hst.
        rewrite (news_length news 0 _ Hv). reflexivity.
    + rolled_back_after Hfr.
    + rolled_back_after Hfr.
  - unfold Commit. destruct (db_fault env SiteCommit) as [e|].
    + rolled_back.
    + split; [|discriminate]. right.
      unfold createCommitted. simpl.
      split; [reflexivity|]. split; [reflexivity|].
      split; [exact Hhas|]. split; [reflexivity|].
      exists []. rewrite !app_nil_r.
      split; [reflexivity|]. split; [reflexivity|].
      split; [unfold expectedRows; rewrite Hpub; reflexivity|reflexivity].
Qed.


Lemma tx_Save_spec env w entry :
  tx_Save env (Begin w) entry
  = match db_fault env SiteEntrySave with
    | Some e => Err e
    | None =>
        let stored := set_ID entry (storedID entry (db w)) in
        Ok (with_entries (Begin w) (savedEntries entry (db w))
                         (StmtSaveEntry (ke_ID stored)), stored)
    end.
Proof.
  unfold tx_Save, storedID, savedEntries. simpl entries.
  destruct (db_fault env SiteEntrySave); [reflexivity|].
  destruct (N.eqb (ke_ID entry) uuid_Nil); [reflexivity|].
  cbv zeta. rewrite set_ID_same.
  destruct (has_entry (ke_ID entry) (entries (db w))); reflexivity.
Qed.

Lemma UpdateKnowledgeEntry_outcome env s entry w :
  let out := UpdateKnowledgeEntry env s entry w in
  (untouched w (snd out) \/ updateCommitted entry w out)
  /\ (forall e, fst (fst out) = Some e -> untouched w (snd out)).
Proof.
  cbv zeta. unfold UpdateKnowledgeEntry. rewrite tx_Save_spec.
  destruct (db_fault env SiteEntrySave) as [e|].
  { rolled_back. }
  cbv beta iota zeta.
  set (stored := set_ID entry (storedID entry (db w))).
  set (tx1 := with_entries (Begin w) (savedEntries entry (db w))
                           (StmtSaveEntry (ke_ID stored))).
  destruct (ke_IsPublished stored) eqn:Hpub.
  - unfold tx_DeleteEmbeddings.
    destruct (db_fault env SiteEmbeddingsDelete) as [e|].
    { rolled_back. }
    set (tx2 := with_embeddings tx1 _ _).
    pose proof (embedChunks_frame env s (ke_ID stored)
                  (ChunkText (fullText stored) 1000) 0 tx2 w) as Hfr.
    unfold createEmbeddings.
    destruct (embedChunks env s (ke_ID stored) 0
                (ChunkText (fullText stored) 1000) tx2 w)
      as [[tx3|e|e] w1] eqn:E; simpl in Hfr.
    + destruct (embedChunks_Ok env s (ke_ID stored) _ 0 tx2 w tx3 w1 E)
        as (news & He & Hen & _ & _ & Hst & Hv & Hall).
      unfold Commit. destruct (db_fault env SiteCommit) as [e|].
      * rolled_back_after Hfr.
      * split; [|discriminate]. right.
        unfold updateCommitted. simpl.
        split; [reflexivity|]. split; [reflexivity|].
        split; [exact Hen|].
        change (ke_IsPublished entry) with (ke_IsPublished stored).
        rewrite Hpub.
        exists news. simpl in He.
        split; [exact He|].
        split.
        { unfold embeddingsOf. simpl. rewrite He, filter_app.
          rewrite (filter_others_own (storedID entry (db w))).
          rewrite (filter_own (storedID entry (db w)) news Hall).
          reflexivity. }
        split; [exact Hv|].
        destruct Hfr as [_ Hj]. rewrite Hj, Hst.
        rewrite (news_length news 0 _ Hv). reflexivity.
    + rolled_back_after Hfr.
    + rolled_back_after Hfr.
  - unfold Commit. destruct (db_fault env SiteCommit) as [e|].
    + rolled_back.
    + split; [|discriminate]. right.
      unfold updateCommitted. simpl.
      split; [reflexivity|]. split; [reflexivity|].
      split; [reflexivity|].
      change (ke_IsPublished entry) with (ke_IsPublished stored).
      rewrite Hpub. split; reflexivity.
Qed.

Lemma has_entry_removed id (l : list KnowledgeEntry) :
  has_entry id (filter (fun e => negb (N.eqb (ke_ID e) id)) l) = false.
Proof.
  unfold has_entry. induction l as [|e l IH]; simpl; [reflexivity|].
  destruct (N.eqb (ke_ID e) id) eqn:E; simpl; [exact IH|].
  rewrite E. exact IH.
Qed.

Lemma DeleteKnowledgeEntry_outcome env s id w :
  let out := DeleteKnowledgeEntry env s id w in
  (untouched w (snd out) \/ deleteCommitted id w out)
  /\ (forall e, fst (fst out) = Some e -> untouched w (snd out)).
Proof.
  cbv zeta. unfold DeleteKnowledgeEntry, tx_DeleteEmbeddings.
  destruct (db_fault env SiteEmbeddingsDelete) as [e|].
  { rolled_back. }
  unfold tx_DeleteEntry.
  destruct (db_fault env SiteEntryDelete) as [e|].
  { rolled_back. }
  unfold Commit. destruct (db_fault env SiteCommit) as [e|].
  { rolled_back. }
  split; [|discriminate]. right.
  unfold deleteCommitted. simpl.
  split; [reflexivity|]. split; [reflexivity|].
  split; [unfold embeddingsOf; simpl; apply filter_others_own|].
  split; [reflexivity|].
  split; [apply has_entry_removed|reflexivity].
Qed.

End LifecycleProps.

Module LifecycleProgress.
Import GoStr Base Chunker Sql KnowledgeService EmbeddingProps LifecycleProps.
Local Open Scope string_scope.
Local Open Scope list_scope.

(** With both services there and everything answering, the embedding
    loop runs to its end. *)
Lemma embedChunks_runs env s id chunks :
  healthy env -> configured s = true ->
  forall i tx w, isOk (fst (embedChunks env s id i chunks tx w)) = true.
Proof.
  intros (Hdb & Hemb & Hstore) Hconf.
  unfold configured in Hconf.
  destruct (openAIService s) as [svc|] eqn:Ho; [|discriminate].
  destruct (vectorService s) as [vs|] eqn:Hv; [|discriminate].
  induction chunks as [|chunk rest IH]; intros i tx w; simpl.
  - reflexivity.
  - rewrite Ho, Hv.
    unfold bind at 1. unfold OpenAIService.CreateEmbedding, bind, record_call.
    destruct (Hemb (List.length (calls w)) chunk) as (v & vs' & ->).
    unfold ret. unfold VectorService.Store, bind, record_call, lift.
    simpl calls.
    destruct (Hstore (List.length (calls w ++ [CallEmbedding chunk])) v chunk id)
      as (pointID & ->).
    unfold tx_CreateEmbedding. rewrite Hdb.
    apply IH.
Qed.

Lemma Commit_healthy {A} env tx (a : A) w :
  healthy env ->
  Commit env tx a w
  = ((None, a),
     {| db := tx_db tx; clock := clock w; calls := calls w;
        journal := journal w ++ tx_stmts tx |}).
Proof. intros (Hdb & _). unfold Commit. rewrite Hdb. reflexivity. Qed.

(** Then update and delete commit, and so does the create of an entry
    whose identifier is not taken. *)
Lemma lifecycle_commits env s entry id w :
  healthy env -> configured s = true ->
  fst (fst (UpdateKnowledgeEntry env s entry w)) = None
  /\ journal (snd (UpdateKnowledgeEntry env s entry w)) <> journal w
  /\ fst (fst (DeleteKnowledgeEntry env s id w)) = None
  /\ journal (snd (DeleteKnowledgeEntry env s id w)) <> journal w
  /\ (has_entry (storedID entry (db w)) (entries (db w)) = false ->
      fst (fst (CreateKnowledgeEntry env s entry w)) = None
      /\ journal (snd (CreateKnowledgeEntry env s entry w)) <> journal w).
Proof.
  intros Hh Hconf. pose proof Hh as (Hdb & _).
  assert (Hgrow : forall (j : list Stmt) x l, j ++ x :: l <> j).
  { intros j x l H. apply (f_equal (@List.length Stmt)) in H.
    rewrite length_app in H. simpl in H. lia. }
  split; [|split; [|split; [|split]]].
  - unfold UpdateKnowledgeEntry. rewrite tx_Save_spec, Hdb.
    cbv beta iota zeta.
    destruct (ke_IsPublished _).
    + unfold tx_DeleteEmbeddings. rewrite Hdb. unfold createEmbeddings.
      match goal with
      | |- context [embedChunks env s ?i ?n ?c ?tx w] =>
          pose proof (embedChunks_runs env s i c Hh Hconf n tx w) as Hrun;
          destruct (embedChunks env s i n c tx w) as [[tx'|e|e] w']
      end; try discriminate.
      rewrite Commit_healthy by exact Hh. reflexivity.
    + rewrite Commit_healthy by exact Hh. reflexivity.
  - unfold UpdateKnowledgeEntry. rewrite tx_Save_spec, Hdb.
    cbv beta iota zeta.
    destruct (ke_IsPublished _).
    + unfold tx_DeleteEmbeddings. rewrite Hdb. unfold createEmbeddings.
      match goal with
      | |- context [embedChunks env s ?i ?n ?c ?tx w] =>
          pose proof (embedChunks_runs env s i c Hh Hconf n tx w) as Hrun;
          pose proof (embedChunks_frame env s i c n tx w) as Hfr;
          destruct (embedChunks env s i n c tx w) as [[tx'|e|e] w'] eqn:E
      end; try discriminate.
      destruct (embedChunks_Ok env s _ _ _ _ _ _ _ E)
        as (news & _ & _ & _ & _ & Hst & _).
      rewrite Commit_healthy by exact Hh. simpl.
      destruct Hfr as [_ Hj]. simpl in Hj. rewrite Hj, Hst. simpl.
      apply Hgrow.
    + rewrite Commit_healthy by exact Hh. simpl. apply Hgrow.
  - unfold DeleteKnowledgeEntry, tx_DeleteEmbeddings, tx_DeleteEntry.
    rewrite !Hdb. rewrite Commit_healthy by exact Hh. reflexivity.
  - unfold DeleteKnowledgeEntry, tx_DeleteEmbeddings, tx_DeleteEntry.
    rewrite !Hdb. rewrite Commit_healthy by exact Hh. simpl. apply Hgrow.
  - intros Hfree. unfold CreateKnowledgeEntry, tx_Create. rewrite Hdb.
    simpl entries. fold (storedID entry (db w)). rewrite Hfree.
    destruct (ke_IsPublished _).
    + unfold createEmbeddings.
      match goal with
      | |- context [embedChunks env s ?i ?n ?c ?tx w] =>
          pose proof (embedChunks_runs env s i c Hh Hconf n tx w) as Hrun;
          pose proof (embedChunks_frame env s i c n tx w) as Hfr;
          destruct (embedChunks env s i n c tx w) as [[tx'|e|e] w'] eqn:E
      end; try discriminate.
      destruct (embedChunks_Ok env s _ _ _ _ _ _ _ E)
        as (news & _ & _ & _ & _ & Hst & _).
      rewrite Commit_healthy by exact Hh. simpl.
      destruct Hfr as [_ Hj]. simpl in Hj. rewrite Hj, Hst. simpl.
      split; [reflexivity|apply Hgrow].
    + rewrite Commit_healthy by exact Hh. simpl.
      split; [reflexivity|apply Hgrow].
Qed.


Lemma embeddingsOf_without_entry id d :
  rowsHaveEntries d -> has_entry id (entries d) = false ->
  embeddingsOf id d = [].
Proof.
  intros Hinv Hno. unfold embeddingsOf. apply filter_none.
  apply Forall_forall. intros v Hv.
  destruct (N.eqb_spec (ve_KnowledgeEntryID v) id) as [E|E]; [|reflexivity].
  rewrite <- E, (Hinv v Hv) in Hno. discriminate.
Qed.

End LifecycleProgress.

Import KnowledgeService.

(** C1 (amended). Each of create, update and delete either commits or
    leaves the database and the journal as they were, and it leaves them
    so whenever it returns an error; with both services there and
    everything answering, update and delete commit, and so does the create
    of an entry whose identifier is not taken.  A committed create stores
    the entry and adds for it one VectorEmbedding row per chunk of the
    combined text if the entry is published and none otherwise (these are
    all its rows when every stored row belongs to a stored entry).  A committed update
    of a published entry first deletes every row of the entry and then
    creates one row per chunk; a committed update of an entry that is not
    published leaves the embedding table as it was.  A committed delete
    removes the rows of the entry and then the entry. *)
Theorem C1_embedding_lifecycle
    (env : Env) (s : KnowledgeService.t) (entry : KnowledgeEntry) (id : uuid)
    (w : World) :
  let c := CreateKnowledgeEntry env s entry w in
  let u := UpdateKnowledgeEntry env s entry w in
  let d := DeleteKnowledgeEntry env s id w in
  ((untouched w (snd c) \/ createCommitted entry w c)
   /\ (forall e, fst (fst c) = Some e -> untouched w (snd c)))
  /\ ((untouched w (snd u) \/ updateCommitted entry w u)
      /\ (forall e, fst (fst u) = Some e -> untouched w (snd u)))
  /\ ((untouched w (snd d) \/ deleteCommitted id w d)
      /\ (forall e, fst (fst d) = Some e -> untouched w (snd d)))
  /\ (rowsHaveEntries (db w) -> createCommitted entry w c ->
      map rowView (embeddingsOf (ke_ID (snd (fst c))) (db (snd c)))
      = expectedRows (snd (fst c)))
  /\ (healthy env -> configured s = true ->
      updateCommitted entry w u
      /\ deleteCommitted id w d
      /\ (has_entry (storedID entry (db w)) (entries (db w)) = false ->
          createCommitted entry w c)).
Proof.
  intros c u d.
  pose proof (LifecycleProps.CreateKnowledgeEntry_outcome env s entry w) as Hc.
  pose proof (LifecycleProps.UpdateKnowledgeEntry_outcome env s entry w) as Hu.
  pose proof (LifecycleProps.DeleteKnowledgeEntry_outcome env s id w) as Hd.
  cbv zeta in Hc, Hu, Hd. fold c in Hc. fold u in Hu. fold d in Hd.
  split; [exact Hc|]. split; [exact Hu|]. split; [exact Hd|].
  split.
  - intros Hinv (_ & Hst & Hno & _ & news & _ & Hof & Hv & _).
    rewrite Hof.
    rewrite (LifecycleProgress.embeddingsOf_without_entry _ _ Hinv Hno).
    exact Hv.
  - intros Hh Hconf.
    destruct (LifecycleProgress.lifecycle_commits env s entry id w Hh Hconf)
      as (_ & Hju & _ & Hjd & Hcreate).
    fold u in Hju. fold d in Hjd. fold c in Hcreate.
    split; [|split].
    + destruct Hu as [[[_ Hj]|H] _]; [contradiction|exact H].
    + destruct Hd as [[[_ Hj]|H] _]; [contradiction|exact H].
    + intros Hfree. destruct (Hcreate Hfree) as [_ Hjc].
      destruct Hc as [[[_ Hj]|H] _]; [contradiction|exact H].
Qed.

(** C1 as stated fails: the published entry "Alpha" has one
    VectorEmbedding row; the update that takes it back commits, stores
    the entry with the publish flag off, and the row is still there. *)
Lemma C1_counterexample_unpublish_keeps_rows :
  let u := UpdateKnowledgeEntry Scenario.env_ok Scenario.knowledge
             Scenario.unpublished Scenario.publishedWorld in
  List.length (embeddingsOf 1%N (db Scenario.publishedWorld)) = 1
  /\ fst (fst u) = None
  /\ entries (db (snd u)) = [Scenario.unpublished]
  /\ ke_IsPublished Scenario.unpublished = false
  /\ List.length (embeddingsOf 1%N (db (snd u))) = 1.
Proof. vm_compute. repeat split; reflexivity. Qed.

(** Creating the published entry "Alpha" on an empty database, with
    everything answering. *)
Lemma C1_witness :
  let c := CreateKnowledgeEntry Scenario.env_ok Scenario.knowledge
             Scenario.published Scenario.emptyWorld in
  healthy Scenario.env_ok
  /\ configured Scenario.knowledge = true
  /\ rowsHaveEntries (db Scenario.emptyWorld)
  /\ createCommitted Scenario.published Scenario.emptyWorld c
  /\ map rowView (embeddingsOf 1%N (db (snd c)))
     = [(0, GoStr.lit "Alpha Beta Gamma")].
Proof.
  intros c.
  assert (Hh : healthy Scenario.env_ok).
  { split; [intros; reflexivity|].
    split; [intros; eexists; eexists; reflexivity
           |intros; eexists; reflexivity]. }
  assert (Hinv : rowsHaveEntries (db Scenario.emptyWorld))
    by (intros v Hv; destruct Hv).
  pose proof (C1_embedding_lifecycle Scenario.env_ok Scenario.knowledge
                Scenario.published 1%N Scenario.emptyWorld) as H.
  cbv zeta in H. destruct H as (_ & _ & _ & Hrows & Hcommit).
  destruct (Hcommit Hh eq_refl) as (_ & _ & Hcreate).
  specialize (Hcreate eq_refl). specialize (Hrows Hinv Hcreate).
  split; [exact Hh|]. split; [reflexivity|]. split; [exact Hinv|].
  split; [exact Hcreate|].
  exact Hrows.
Defined.

Module LifecycleInvariant.
Import GoStr Base Chunker Sql KnowledgeService EmbeddingProps LifecycleProps.
Local Open Scope string_scope.
Local Open Scope list_scope.

Lemma has_entry_app id l l' :
  has_entry id (l ++ l') = has_entry id l || has_entry id l'.
Proof. unfold has_entry. apply existsb_app. Qed.

Lemma has_entry_replace id entry l :
  has_entry id (replace_entry entry l) = has_entry id l.
Proof.
  unfold has_entry. induction l as [|e l IH]; simpl; [reflexivity|].
  destruct (N.eqb_spec (ke_ID e) (ke_ID entry)) as [E|E]; simpl;
    rewrite IH; [rewrite E|]; reflexivity.
Qed.

Lemma has_entry_saved id entry d :
  has_entry id (entries d) = true ->
  has_entry id (savedEntries entry d) = true.
Proof.
  unfold savedEntries. intros H.
  destruct (N.eqb (ke_ID entry) uuid_Nil);
    [rewrite has_entry_app, H; reflexivity|].
  destruct (has_entry (ke_ID entry) (entries d));
    [rewrite has_entry_replace; exact H|rewrite has_entry_app, H; reflexivity].
Qed.

Lemma has_entry_stored entry d :
  has_entry (storedID entry d) (savedEntries entry d) = true.
Proof.
  unfold savedEntries, storedID.
  destruct (N.eqb (ke_ID entry) uuid_Nil).
  - rewrite has_entry_app. unfold has_entry at 2. simpl.
    rewrite N.eqb_refl. apply orb_true_r.
  - destruct (has_entry (ke_ID entry) (entries d)) eqn:E.
    + rewrite has_entry_replace. exact E.
    + rewrite has_entry_app. unfold has_entry at 2. simpl.
      rewrite N.eqb_refl. apply orb_true_r.
Qed.

Lemma has_entry_other id id' l :
  id' <> id -> has_entry id' l = true ->
  has_entry id' (filter (fun e => negb (N.eqb (ke_ID e) id)) l) = true.
Proof.
  unfold has_entry. intros Hne H. apply existsb_exists in H.
  destruct H as (e & Hin & He). apply existsb_exists. exists e.
  split; [|exact He]. apply filter_In. split; [exact Hin|].
  apply N.eqb_eq in He. rewrite He.
  apply negb_true_iff. apply N.eqb_neq. exact Hne.
Qed.

(** That every row belongs to a stored entry is kept by the three
    operations. *)
Lemma lifecycle_keeps_rowsHaveEntries env s entry id w :
  rowsHaveEntries (db w) ->
  rowsHaveEntries (db (snd (CreateKnowledgeEntry env s entry w)))
  /\ rowsHaveEntries (db (snd (UpdateKnowledgeEntry env s entry w)))
  /\ rowsHaveEntries (db (snd (DeleteKnowledgeEntry env s id w))).
Proof.
  intros Hinv. split; [|split].
  - destruct (CreateKnowledgeEntry_outcome env s entry w) as [[[Hdb _]|H] _].
    + rewrite Hdb. exact Hinv.
    + destruct H as (_ & Hst & _ & Hen & news & He & Hof & _).
      intros v Hv. rewrite Hen, has_entry_app. rewrite He in Hv.
      apply in_app_or in Hv. destruct Hv as [Hv|Hv].
      * rewrite (Hinv v Hv). reflexivity.
      * assert (Hin : In v (embeddingsOf
                              (ke_ID (snd (fst (CreateKnowledgeEntry env s entry w))))
                              (db (snd (CreateKnowledgeEntry env s entry w))))).
        { rewrite Hof. apply in_or_app. right. exact Hv. }
        apply filter_In in Hin. destruct Hin as [_ Hid].
        apply N.eqb_eq in Hid. rewrite Hid.
        unfold has_entry at 2. simpl. rewrite N.eqb_refl.
        apply orb_true_r.
  - destruct (UpdateKnowledgeEntry_outcome env s entry w) as [[[Hdb _]|H] _].
    + rewrite Hdb. exact Hinv.
    + destruct H as (_ & Hst & Hen & H).
      intros v Hv. rewrite Hen.
      destruct (ke_IsPublished _).
      * destruct H as (news & He & Hof & _).
        rewrite He in Hv. apply in_app_or in Hv. destruct Hv as [Hv|Hv].
        -- apply filter_In in Hv. destruct Hv as [Hv _].
           apply has_entry_saved. apply Hinv. exact Hv.
        -- assert (Hin : In v (embeddingsOf
                              (ke_ID (snd (fst (UpdateKnowledgeEntry env s entry w))))
                              (db (snd (UpdateKnowledgeEntry env s entry w))))).
           { rewrite Hof. exact Hv. }
           apply filter_In in Hin. destruct Hin as [_ Hid].
           apply N.eqb_eq in Hid. rewrite Hid, Hst.
           apply has_entry_stored.
      * destruct H as (He & _). rewrite He in Hv.
        apply has_entry_saved. apply Hinv. exact Hv.
  - destruct (DeleteKnowledgeEntry_outcome env s id w) as [[[Hdb _]|H] _].
    + rewrite Hdb. exact Hinv.
    + destruct H as (_ & He & _ & Hen & _).
      intros v Hv. rewrite Hen. rewrite He in Hv.
      apply filter_In in Hv. destruct Hv as [Hv Hid].
      apply negb_true_iff in Hid. apply N.eqb_neq in Hid.
      apply has_entry_other; [exact Hid|]. apply Hinv. exact Hv.
Qed.

End LifecycleInvariant.

Module LifecycleExamples.
Import GoStr Base KnowledgeService.
Local Open Scope list_scope.

(** The long entry gets two rows when it is created, and none are left
    when it is deleted. *)
Example two_chunks_then_delete :
  let c := CreateKnowledgeEntry Scenario.env_ok Scenario.knowledge
             Scenario.longEntry Scenario.emptyWorld in
  let d := DeleteKnowledgeEntry Scenario.env_ok Scenario.knowledge 1%N
             (snd c) in
  ke_ID (snd (fst c)) = 1%N
  /\ map ve_ChunkIndex (embeddingsOf 1%N (db (snd c))) = [0; 1]
  /\ embeddingsOf 1%N (db (snd d)) = []
  /\ entries (db (snd d)) = [].
Proof. vm_compute. repeat split; reflexivity. Qed.

End LifecycleExamples.

(* ===================================================================== *)
(** * Part III: further properties of the services                      *)
(* ===================================================================== *)

(** ** ChunkText: the size and the shape of the chunks *)

Module ChunkShapeProps.
Import GoStr Chunker ChunkShape ChunkerProps.
Local Open Scope list_scope.
Local Open Scope Z_scope.

Lemma Len_app (a b : gostring) : Len (a ++ b) = Len a + Len b.
Proof. induction a as [|r a IH]; simpl; [reflexivity|]. rewrite IH. lia. Qed.

Lemma joinSpace_snoc (g : list gostring) (w : gostring) :
  g <> [] -> joinSpace (g ++ [w]) = joinSpace g ++ space :: w.
Proof.
  induction g as [|x g IH]; intros Hg; [contradiction|].
  destruct g as [|y g]; [reflexivity|].
  change (joinSpace ((x :: y :: g) ++ [w]))
    with (x ++ space :: joinSpace ((y :: g) ++ [w])).
  rewrite IH by discriminate.
  change (joinSpace (x :: y :: g)) with (x ++ space :: joinSpace (y :: g)).
  rewrite <- app_assoc. reflexivity.
Qed.

Lemma dropSpace_word (w s : gostring) :
  isWord w -> dropSpace (w ++ s) = w ++ s.
Proof.
  intros [Hne Hall]. destruct w as [|r w]; [contradiction|].
  simpl in Hall. apply andb_true_iff in Hall. destruct Hall as [Hr _].
  apply negb_true_iff in Hr. simpl. rewrite Hr. reflexivity.
Qed.

Lemma isWord_rev (w : gostring) : isWord w -> isWord (rev w).
Proof.
  intros [Hne Hall]. split.
  - intros E. apply Hne. rewrite <- (rev_involutive w), E. reflexivity.
  - rewrite forallb_rev. exact Hall.
Qed.

(** The words of a group joined by single spaces start and end with a
    word, so [strings.TrimSpace] leaves them as they are. *)
Lemma joinSpace_shape (g : list gostring) :
  g <> [] -> Forall isWord g ->
  exists first rest last init,
    joinSpace g = first ++ rest /\ isWord first
    /\ joinSpace g = init ++ last /\ isWord last.
Proof.
  intros Hg Hw. induction g as [|x g IH]; [contradiction|].
  inversion Hw as [|? ? Hx Hws]; subst.
  destruct g as [|y g].
  - exists x, [], x, []. simpl. rewrite app_nil_r.
    split; [reflexivity|]. split; [exact Hx|]. split; [reflexivity|exact Hx].
  - destruct (IH ltac:(discriminate) Hws) as (f & r & l & i & _ & _ & Hl & Hlw).
    exists x, (space :: joinSpace (y :: g)), l, (x ++ space :: i).
    change (joinSpace (x :: y :: g)) with (x ++ space :: joinSpace (y :: g)).
    split; [reflexivity|]. split; [exact Hx|].
    split; [rewrite Hl, <- app_assoc; reflexivity|exact Hlw].
Qed.

Lemma TrimSpace_joinSpace (g : list gostring) :
  g <> [] -> Forall isWord g -> TrimSpace (joinSpace g) = joinSpace g.
Proof.
  intros Hg Hw.
  destruct (joinSpace_shape g Hg Hw) as (f & r & l & i & Hf & Hfw & Hl & Hlw).
  unfold TrimSpace.
  rewrite Hf at 1. rewrite (dropSpace_word f r Hfw), <- Hf.
  rewrite Hl at 1. rewrite rev_app_distr.
  rewrite (dropSpace_word (rev l) (rev i) (isWord_rev l Hlw)).
  rewrite <- rev_app_distr, rev_involutive. symmetry. exact Hl.
Qed.

Lemma greedy_snoc (n : Z) (gs : list (list gostring)) (g : list gostring)
    (w : gostring) :
  greedy n (gs ++ [g]) -> g <> [] ->
  n < Len (joinSpace g) + Len w + 1 ->
  greedy n ((gs ++ [g]) ++ [[w]]).
Proof.
  intros Hgr Hg Hn. induction gs as [|a gs IH].
  - simpl. split; [exact Hn|exact I].
  - destruct gs as [|b gs].
    + simpl in *. destruct g as [|x g]; [contradiction|].
      destruct Hgr as [H1 _]. split; [exact H1|]. split; [exact Hn|exact I].
    + change (greedy n (a :: (b :: gs) ++ [g])) in Hgr.
      change (greedy n (a :: ((b :: gs) ++ [g]) ++ [[w]])).
      simpl in Hgr. simpl. destruct b as [|x b]; [destruct Hgr as [[] _]|].
      destruct Hgr as [H1 H2]. split; [exact H1|].
      apply IH. exact H2.
Qed.

Lemma greedy_grow (n : Z) (gs : list (list gostring)) (g : list gostring)
    (w : gostring) :
  greedy n (gs ++ [g]) -> g <> [] -> greedy n (gs ++ [g ++ [w]]).
Proof.
  intros Hgr Hg. induction gs as [|a gs IH].
  - simpl. exact I.
  - destruct gs as [|b gs].
    + simpl in *. destruct g as [|x g]; [contradiction|].
      simpl. destruct Hgr as [H1 _]. split; [exact H1|exact I].
    + change (greedy n (a :: (b :: gs) ++ [g])) in Hgr.
      change (greedy n (a :: (b :: gs) ++ [g ++ [w]])).
      simpl in Hgr. simpl. destruct b as [|x b]; [destruct Hgr as [[] _]|].
      destruct Hgr as [H1 H2]. split; [exact H1|].
      apply IH. exact H2.
Qed.

Lemma grouped_step (n : Z) (seen : list gostring) (st : chunk_state)
    (word : gostring) :
  Forall isWord seen -> isWord word -> grouped n seen st ->
  grouped n (seen ++ [word]) (chunk_step n st word).
Proof.
  intros Hseen Hw. destruct st as [chunks cur]. unfold grouped, chunk_step.
  intros [(-> & -> & ->)|(gs & g & Hg & Hcat & -> & -> & Hall & Hgr)].
  - simpl. right. exists [], [word]. simpl.
    split; [discriminate|]. split; [reflexivity|]. split; [reflexivity|].
    split; [reflexivity|]. split; [|exact I].
    constructor; [|constructor]. split; [discriminate|].
    right. exists word. reflexivity.
  - assert (Hgw : Forall isWord g).
    { rewrite <- Hcat in Hseen. apply Forall_app in Hseen. apply Hseen. }
    assert (Hne : joinSpace g <> []).
    { destruct (joinSpace_shape g Hg Hgw) as (f & r & _ & _ & Hf & [Hfn _] & _).
      rewrite Hf. intros E. apply app_eq_nil in E. destruct E. contradiction. }
    rewrite !Len_pos_iff.
    destruct (joinSpace g) as [|r0 cur0] eqn:Ecur; [contradiction|].
    rewrite <- Ecur in *.
    assert (Hpos : negb (isEmpty (joinSpace g)) = true)
      by (rewrite Ecur; reflexivity).
    rewrite Hpos, andb_true_l.
    destruct (n <? Len (joinSpace g) + Len word + 1) eqn:Efit.
    + apply Z.ltb_lt in Efit.
      change (0 <? Len []) with false. cbv iota. rewrite app_nil_l.
      right. exists (gs ++ [g]), [word].
      split; [discriminate|].
      split; [rewrite concat_app; simpl; rewrite app_nil_r, Hcat; reflexivity|].
      split; [rewrite map_app, (TrimSpace_joinSpace g Hg Hgw); reflexivity|].
      split; [reflexivity|].
      split.
      * apply Forall_app. split; [exact Hall|].
        constructor; [|constructor]. split; [discriminate|].
        right. exists word. reflexivity.
      * apply greedy_snoc; assumption.
    + apply Z.ltb_ge in Efit.
      cbv beta iota. rewrite Len_pos_iff, Hpos.
      right. exists gs, (g ++ [word]).
      split; [intros E; apply app_eq_nil in E; destruct E; discriminate|].
      split; [rewrite app_assoc, Hcat; reflexivity|].
      split; [reflexivity|].
      split; [rewrite (joinSpace_snoc g word Hg), <- app_assoc; reflexivity|].
      split.
      * apply Forall_app in Hall. destruct Hall as [Hgs _].
        apply Forall_app. split; [exact Hgs|].
        constructor; [|constructor].
        split; [intros E; apply app_eq_nil in E; destruct E; discriminate|].
        left. rewrite (joinSpace_snoc g word Hg), Len_app.
        change (Len (space :: word)) with (1 + Len word). lia.
      * apply greedy_grow; assumption.
Qed.

Lemma grouped_loop (n : Z) (words seen : list gostring) (st : chunk_state) :
  Forall isWord seen -> Forall isWord words -> grouped n seen st ->
  grouped n (seen ++ words) (fold_left (chunk_step n) words st).
Proof.
  revert seen st. induction words as [|w words IH]; intros seen st Hs Hws Hinv.
  - simpl. rewrite app_nil_r. exact Hinv.
  - inversion Hws; subst. simpl.
    replace (seen ++ w :: words) with ((seen ++ [w]) ++ words)
      by (rewrite <- app_assoc; reflexivity).
    apply IH; [apply Forall_app; split; [assumption|constructor; [assumption|constructor]]
              |assumption|].
    apply grouped_step; assumption.
Qed.

End ChunkShapeProps.

Section ChunkShapeFinal.
Import GoStr Chunker ChunkShape ChunkerProps ChunkShapeProps.
Local Open Scope list_scope.
Local Open Scope Z_scope.

(** X1. Whatever the text and the size, the chunks of ChunkText are
    consecutive groups of the words of the text, each group joined by
    single spaces (so no chunk starts or ends with white space); a chunk
    is longer than the size in force (1000 bytes when the given size is
    not positive) only if it is one word; and a chunk was closed only when
    the next word, with the space before it, would not fit. *)
Theorem X1_ChunkText_chunks_within_size (text : GoStr.gostring)
    (maxChunkSize : Z) :
  let n := ChunkShape.effectiveSize maxChunkSize in
  exists groups : list (list GoStr.gostring),
    List.concat groups = GoStr.Fields text
    /\ Chunker.ChunkText text maxChunkSize = map ChunkShape.joinSpace groups
    /\ Forall (fun g => g <> []
                        /\ ((GoStr.Len (ChunkShape.joinSpace g) <= n)%Z
                            \/ exists w, g = [w]))
              groups
    /\ ChunkShape.greedy n groups.
Proof.
  intros n. unfold ChunkText. fold (effectiveSize maxChunkSize). fold n.
  pose proof (Fields_words text) as Hws.
  destruct (Fields text) as [|w ws] eqn:E.
  - exists []. repeat split; constructor.
  - pose proof (grouped_loop n (w :: ws) [] ([], []) (Forall_nil _) Hws) as H.
    assert (H0 : grouped n [] ([], [])) by (left; repeat split; reflexivity).
    specialize (H H0). simpl app in H.
    destruct (fold_left (chunk_step n) (w :: ws) ([], [])) as [chunks cur].
    destruct H as [(Hc & _)|(gs & g & Hg & Hcat & -> & -> & Hall & Hgr)];
      [discriminate|].
    assert (Hgw : Forall isWord g).
    { rewrite <- Hcat in Hws. apply Forall_app in Hws. apply Hws. }
    assert (Hpos : (0 <? Len (joinSpace g)) = true).
    { rewrite Len_pos_iff.
      destruct (joinSpace_shape g Hg Hgw) as (f & r & _ & _ & Hf & [Hfn _] & _).
      rewrite Hf. destruct f; [contradiction|reflexivity]. }
    rewrite Hpos.
    exists (gs ++ [g]).
    split; [rewrite concat_app; simpl; rewrite app_nil_r; exact Hcat|].
    split; [rewrite map_app, (TrimSpace_joinSpace g Hg Hgw); reflexivity|].
    split; assumption.
Qed.

End ChunkShapeFinal.

(** ** Knowledge operations: an invariant and the requests they make *)

Module KnowledgeOpsProps.
Import GoStr Base Chunker Sql KnowledgeService WorldOps KnowledgeOps.
Import EmbeddingProps LifecycleProps.
Local Open Scope string_scope.
Local Open Scope list_scope.

Lemma runOp_keeps s w op :
  rowsHaveEntries (db w) -> rowsHaveEntries (db (runOp s w op)).
Proof.
  intros H. destruct op as [env entry|env entry|env id]; simpl.
  - apply (LifecycleInvariant.lifecycle_keeps_rowsHaveEntries
             env s entry 0%N w H).
  - apply (LifecycleInvariant.lifecycle_keeps_rowsHaveEntries
             env s entry 0%N w H).
  - apply (LifecycleInvariant.lifecycle_keeps_rowsHaveEntries
             env s Scenario.published id w H).
Qed.








End KnowledgeOpsProps.

(** X2. In every database that a sequence of creates, updates and deletes
    of KnowledgeService leads to, whatever fails on the way, each
    VectorEmbedding row belongs to a stored knowledge entry, if that was
    so before the sequence. *)
Theorem X2_embedding_rows_keep_their_entry
    (s : KnowledgeService.t) (ops : list KnowledgeOps.Op) (w : Base.World) :
  KnowledgeService.rowsHaveEntries (Base.db w) ->
  KnowledgeService.rowsHaveEntries
    (Base.db (KnowledgeOps.runOps s ops w)).
Proof.
  revert w. unfold KnowledgeOps.runOps.
  induction ops as [|op ops IH]; intros w H; simpl.
  - exact H.
  - apply IH. apply KnowledgeOpsProps.runOp_keeps. exact H.
Qed.

(** A create, an update that takes the entry back, a delete of another
    entry and a failing create, from the empty database. *)
Lemma X2_witness :
  let ops := [KnowledgeOps.OpCreate Scenario.env_ok Scenario.published;
              KnowledgeOps.OpUpdate Scenario.env_ok Scenario.unpublished;
              KnowledgeOps.OpDelete Scenario.env_ok 5%N;
              KnowledgeOps.OpCreate KnowledgeOps.env_commit_fails
                                    Scenario.longEntry] in
  KnowledgeService.rowsHaveEntries (Base.db Scenario.emptyWorld)
  /\ KnowledgeService.rowsHaveEntries
       (Base.db (KnowledgeOps.runOps Scenario.knowledge ops
                   Scenario.emptyWorld)).
Proof.
  intros ops.
  assert (H : KnowledgeService.rowsHaveEntries (Base.db Scenario.emptyWorld))
    by (intros v Hv; destruct Hv).
  split; [exact H|].
  exact (X2_embedding_rows_keep_their_entry Scenario.knowledge ops
           Scenario.emptyWorld H).
Defined.



(** ** The orchestrator and the provider adapters *)

Module UnifiedMore.
Import GoStr Base UnifiedAIService UnifiedProps UnifiedRequests.
Local Open Scope string_scope.
Local Open Scope list_scope.

(** What an attempt that succeeds hands back. *)
Lemma callProvider_Ok env s req p w r :
  fst (callProvider env s req p w) = Ok r ->
  Sources r = Context req /\ RespSessionID r = SessionID req
  /\ ((p = OpenAIProvider /\ Model r = "openai"
       /\ exists svc, openAIService s = Some svc)
      \/ (p = GeminiProvider
          /\ exists svc, geminiService s = Some svc
                         /\ Model r = GeminiService.model svc)).
Proof.
  unfold callProvider.
  destruct (String.eqb_spec p OpenAIProvider) as [->|Hno].
  - unfold callOpenAI. destruct (openAIService s) as [svc|]; [|discriminate].
    rewrite fst_bind_ret.
    unfold OpenAIService.ChatCompletion, bind, record_call.
    destruct (openai_CreateChatCompletion env _ _) as [[|ch chs]|e|e];
      simpl; try discriminate.
    intros H. inversion H; subst r; clear H. simpl.
    split; [reflexivity|]. split; [reflexivity|].
    left. split; [reflexivity|]. split; [reflexivity|]. exists svc. reflexivity.
  - destruct (String.eqb_spec p GeminiProvider) as [->|Hng]; [|discriminate].
    unfold callGemini. destruct (geminiService s) as [svc|]; [|discriminate].
    rewrite fst_bind_ret.
    unfold GeminiService.ChatCompletion. simpl GeminiService.Messages.
    destruct (GeminiService.splitLast _) as [[earlier cur]|]; [|discriminate].
    unfold bind, record_call.
    destruct (gemini_SendMessage env _ _ _ _) as [[|ch chs]|e|e];
      simpl; try discriminate.
    intros H. inversion H; subst r; clear H. simpl.
    split; [reflexivity|]. split; [reflexivity|].
    right. split; [reflexivity|]. exists svc. split; reflexivity.
Qed.

Lemma splitLast_snoc (init : list RoleContent) (last : RoleContent) :
  GeminiService.splitLast (init ++ [last]) = Some (init, last).
Proof.
  induction init as [|x init IH]; [reflexivity|].
  simpl. rewrite IH. destruct (init ++ [last]) eqn:E; [|reflexivity].
  apply app_eq_nil in E. destruct E. discriminate.
Qed.

Lemma convertRole_cases (role : string) :
  GeminiService.convertRole role
  = if isModelRole role then "model" else "user".
Proof.
  unfold GeminiService.convertRole, isModelRole.
  destruct (String.eqb_spec (GeminiService.ToLower role) "user") as [E|E].
  - rewrite E. reflexivity.
  - destruct (_ || _); reflexivity.
Qed.

End UnifiedMore.

Section ResponseFields.
Import GoStr Base UnifiedAIService UnifiedProps UnifiedRequests.
Import UnifiedMore.
Local Open Scope string_scope.
Local Open Scope list_scope.

(** X4. A response of the orchestrator hands back the context and the
    session identifier of the request, and it names one of the two
    providers, whose service is there, whatever provider the request
    preferred.  Its model field is the constant "openai" when OpenAI
    answered (not the model that the OpenAI service is configured with)
    and the configured Gemini model when Gemini answered. *)
Theorem X4_response_names_provider_and_model
    (env : Base.Env) (s : UnifiedAIService.t)
    (req : UnifiedAIService.UnifiedChatRequest) (w : Base.World)
    (resp : UnifiedAIService.UnifiedChatResponse) :
  fst (UnifiedAIService.ChatCompletion env s req w) = Base.Ok resp ->
  UnifiedAIService.Sources resp = UnifiedAIService.Context req
  /\ UnifiedAIService.RespSessionID resp = UnifiedAIService.SessionID req
  /\ ((UnifiedAIService.Provider resp = Base.OpenAIProvider
       /\ UnifiedAIService.Model resp = "openai"%string
       /\ exists svc, UnifiedAIService.openAIService s = Some svc)
      \/ (UnifiedAIService.Provider resp = Base.GeminiProvider
          /\ exists svc,
               UnifiedAIService.geminiService s = Some svc
               /\ UnifiedAIService.Model resp = GeminiService.model svc)).
Proof.
  unfold ChatCompletion, catch.
  pose proof (callProvider_Ok env s req (selectedProvider s req) w) as H1.
  destruct (callProvider env s req (selectedProvider s req) w)
    as [[r|e|e] w1]; simpl in H1.
  - unfold ret. simpl. intros H. inversion H; subst resp; clear H.
    destruct (H1 r eq_refl) as (A & B & C). simpl.
    split; [exact A|]. split; [exact B|exact C].
  - pose proof (callProvider_Ok env s req (fallbackProvider s) w1) as H2.
    destruct (callProvider env s req (fallbackProvider s) w1)
      as [[r|e2|e2] w2]; simpl in H2; unfold ret, fail, panic; simpl;
      try discriminate.
    intros H. inversion H; subst resp; clear H.
    destruct (H2 r eq_refl) as (A & B & C). simpl.
    split; [exact A|]. split; [exact B|exact C].
  - unfold panic. simpl. discriminate.
Qed.

End ResponseFields.

(** The default orchestrator answers "hello" through OpenAI, whose
    service is configured with the model "gpt-4". *)
Lemma X4_witness :
  exists resp,
    fst (UnifiedAIService.ChatCompletion Scenario.env_ok Scenario.unified
           (Scenario.chatRequest EmptyString) Scenario.emptyWorld)
    = Base.Ok resp
    /\ UnifiedAIService.Model resp = "openai"%string
    /\ OpenAIService.model Scenario.oai = "gpt-4"%string.
Proof.
  destruct (UnifiedAIService.ChatCompletion Scenario.env_ok Scenario.unified
              (Scenario.chatRequest EmptyString) Scenario.emptyWorld)
    as [r w'] eqn:E.
  destruct r as [resp|e|e];
    [|vm_compute in E; discriminate|vm_compute in E; discriminate].
  exists resp. split; [reflexivity|].
  assert (H : fst (UnifiedAIService.ChatCompletion Scenario.env_ok
                     Scenario.unified (Scenario.chatRequest EmptyString)
                     Scenario.emptyWorld) = Base.Ok resp)
    by (rewrite E; reflexivity).
  destruct (X4_response_names_provider_and_model _ _ _ _ _ H)
    as (_ & _ & [(_ & Hm & _)|(Hp & _)]).
  - split; [exact Hm|reflexivity].
  - vm_compute in E. inversion E; subst resp. discriminate.
Defined.

(** X5. A request without messages makes the Gemini adapter index the
    last element of an empty slice: when the attempt against Gemini is
    the first one, the orchestrator panics before anything is sent, and
    when Gemini is the fallback of a first attempt that returned an error,
    it panics instead of returning the error of both providers.  A panic
    is not an error: no fallback is tried after it. *)
Theorem X5_gemini_panics_without_messages
    (env : Base.Env) (s : UnifiedAIService.t)
    (req : UnifiedAIService.UnifiedChatRequest) (w : Base.World)
    (svc : GeminiService.t) :
  UnifiedAIService.Messages req = [] ->
  UnifiedAIService.geminiService s = Some svc ->
  (UnifiedAIService.selectedProvider s req = Base.GeminiProvider ->
   UnifiedAIService.ChatCompletion env s req w
   = (Base.Panic "runtime error: index out of range [-1]", w))
  /\ (UnifiedAIService.fallbackProvider s = Base.GeminiProvider ->
      forall e,
        fst (UnifiedAIService.callProvider env s req
               (UnifiedAIService.selectedProvider s req) w) = Base.Err e ->
        fst (UnifiedAIService.ChatCompletion env s req w)
        = Base.Panic "runtime error: index out of range [-1]").
Proof.
  intros Hm Hg.
  assert (Hcall : forall w0,
             UnifiedAIService.callProvider env s req Base.GeminiProvider w0
             = (Base.Panic "runtime error: index out of range [-1]", w0)).
  { intros w0. unfold UnifiedAIService.callProvider. simpl.
    unfold UnifiedAIService.callGemini. rewrite Hg.
    unfold Base.bind, GeminiService.ChatCompletion. simpl. rewrite Hm.
    reflexivity. }
  split.
  - intros Hsel. unfold UnifiedAIService.ChatCompletion, Base.catch.
    rewrite Hsel, Hcall. reflexivity.
  - intros Hfb e He. unfold UnifiedAIService.ChatCompletion, Base.catch.
    destruct (UnifiedAIService.callProvider env s req
                (UnifiedAIService.selectedProvider s req) w)
      as [r w1]. simpl in He. subst r.
    rewrite Hfb, Hcall. reflexivity.
Qed.

(** The default orchestrator and a request without messages that prefers
    Gemini. *)
Lemma X5_witness :
  UnifiedAIService.ChatCompletion Scenario.env_ok Scenario.unified
    (UnifiedRequests.emptyRequest Base.GeminiProvider) Scenario.emptyWorld
  = (Base.Panic "runtime error: index out of range [-1]",
     Scenario.emptyWorld).
Proof.
  apply (X5_gemini_panics_without_messages Scenario.env_ok Scenario.unified
           (UnifiedRequests.emptyRequest Base.GeminiProvider)
           Scenario.emptyWorld Scenario.gem);
    reflexivity.
Defined.

(** X6. The Gemini adapter sends the content of the last message as the
    current message, whatever its role, and the messages before it as the
    history, in order and with their content unchanged; every turn of
    the history is labelled "model" or "user": "model" when its role is
    "assistant" or "model" in any letter case, "user" otherwise (a
    "system" message becomes a user turn). *)
Theorem X6_gemini_history_roles
    (env : Base.Env) (svc : GeminiService.t)
    (req : GeminiService.GeminiChatRequest) (w : Base.World)
    (init : list Base.RoleContent) (last : Base.RoleContent) :
  GeminiService.Messages req = init ++ [last] ->
  exists history,
    Base.calls (snd (GeminiService.ChatCompletion env svc req w))
    = Base.calls w
      ++ [Base.CallGeminiChat
            (GeminiService.buildSystemInstruction
               (GeminiService.Context req) (GeminiService.SystemPrompt req))
            history (Base.Content last)]
    /\ map Base.Content history = map Base.Content init
    /\ map Base.Role history
       = map (fun m => if UnifiedRequests.isModelRole (Base.Role m)
                       then "model"%string else "user"%string) init.
Proof.
  intros Hm. unfold GeminiService.ChatCompletion.
  rewrite Hm, UnifiedMore.splitLast_snoc.
  eexists. split.
  - unfold Base.bind, Base.record_call.
    destruct (Base.gemini_SendMessage env _ _ _ _) as [[|ch chs]|e|e];
      reflexivity.
  - split.
    + rewrite map_map. reflexivity.
    + rewrite map_map. apply map_ext. intros m. simpl.
      apply UnifiedMore.convertRole_cases.
Qed.

(** A system message, a user turn and an assistant turn before the
    current message, which is itself labelled "assistant". *)
Lemma X6_witness :
  exists system history,
    Base.calls (snd (GeminiService.ChatCompletion Scenario.env_ok Scenario.gem
                       UnifiedRequests.geminiRequest Scenario.emptyWorld))
    = [Base.CallGeminiChat system history (GoStr.lit "are you there")]
    /\ map Base.Role history = ["user"; "user"; "model"]%string.
Proof.
  destruct (X6_gemini_history_roles Scenario.env_ok Scenario.gem
              UnifiedRequests.geminiRequest Scenario.emptyWorld
              (removelast (GeminiService.Messages UnifiedRequests.geminiRequest))
              {| Base.Role := "assistant";
                 Base.Content := GoStr.lit "are you there" |} eq_refl)
    as (history & Hc & _ & Hr).
  eexists. exists history. split; [exact Hc|exact Hr].
Defined.

(** X7. When no Gemini service is configured, the system prompt of a
    chat request has no effect at all: ProcessChat returns the same result
    and leaves the same state (database, requests sent) whatever the
    prompt is, since the OpenAI adapter never reads it. *)
Theorem X7_system_prompt_is_dropped_without_gemini
    (env : Base.Env) (s : EnhancedChatService.t)
    (req : EnhancedChatService.EnhancedChatRequest) (prompt : GoStr.gostring)
    (w : Base.World) :
  UnifiedAIService.geminiService (EnhancedChatService.unifiedAIService s)
  = None ->
  EnhancedChatService.ProcessChat env s
    (UnifiedRequests.withSystemPrompt req prompt) w
  = EnhancedChatService.ProcessChat env s req w.
Proof.
  intros Hg.
  assert (Hcc : forall msgs ctx sid ukb pref p p' w0,
             UnifiedAIService.ChatCompletion env
               (EnhancedChatService.unifiedAIService s)
               {| UnifiedAIService.Messages := msgs;
                  UnifiedAIService.Context := ctx;
                  UnifiedAIService.SessionID := sid;
                  UnifiedAIService.UseKnowledgeBase := ukb;
                  UnifiedAIService.SystemPrompt := p;
                  UnifiedAIService.PreferredProvider := pref |} w0
             = UnifiedAIService.ChatCompletion env
                 (EnhancedChatService.unifiedAIService s)
                 {| UnifiedAIService.Messages := msgs;
                    UnifiedAIService.Context := ctx;
                    UnifiedAIService.SessionID := sid;
                    UnifiedAIService.UseKnowledgeBase := ukb;
                    UnifiedAIService.SystemPrompt := p';
                    UnifiedAIService.PreferredProvider := pref |} w0).
  { intros. unfold UnifiedAIService.ChatCompletion,
      UnifiedAIService.selectedProvider, UnifiedAIService.callProvider,
      UnifiedAIService.callOpenAI, UnifiedAIService.callGemini.
    rewrite Hg. reflexivity. }
  rewrite !EnhancedProps.ProcessChat_eq, !EnhancedProps.prepare_eq.
  simpl EnhancedChatService.UserID. simpl EnhancedChatService.SessionID.
  simpl EnhancedChatService.Message.
  destruct (EnhancedChatService.getOrCreateSession env
              (EnhancedChatService.UserID req)
              (EnhancedChatService.SessionID req) w)
    as [[session|e|e] w1]; try reflexivity.
  destruct (Base.db_fault env Base.SiteUserMessageCreate); [reflexivity|].
  cbv zeta. unfold EnhancedChatService.preparedFor.
  simpl EnhancedChatService.p_aiRequest.
  simpl EnhancedChatService.p_session.
  simpl EnhancedChatService.p_knowledgeEntries.
  simpl EnhancedChatService.Message.
  simpl EnhancedChatService.PreferredProvider.
  simpl EnhancedChatService.SystemPrompt.
  rewrite (Hcc _ _ _ _ _ prompt (EnhancedChatService.SystemPrompt req)).
  reflexivity.
Qed.

(** The service with OpenAI only: the second question with and without
    a system prompt. *)
Lemma X7_witness :
  EnhancedChatService.ProcessChat Scenario.env_ok
    UnifiedRequests.enhanced_no_gemini
    (UnifiedRequests.withSystemPrompt Scenario.nextRequest
       (GoStr.lit "Answer in French"))
    Scenario.talkedWorld
  = EnhancedChatService.ProcessChat Scenario.env_ok
      UnifiedRequests.enhanced_no_gemini Scenario.nextRequest
      Scenario.talkedWorld.
Proof.
  apply (X7_system_prompt_is_dropped_without_gemini Scenario.env_ok
           UnifiedRequests.enhanced_no_gemini Scenario.nextRequest
           (GoStr.lit "Answer in French") Scenario.talkedWorld).
  reflexivity.
Defined.

(** X8. SetPrimaryProvider accepts a provider exactly when
    GetAvailableProviders lists it, that is "openai" when the OpenAI
    service is there and "gemini" when the Gemini service is there, and
    nothing else; an accepted provider is what GetPrimaryProvider returns
    afterwards, a rejected one leaves the service as it was; and the list
    of available providers is the same after the call. *)
Theorem X8_SetPrimaryProvider_accepts_the_available
    (s : UnifiedAIService.t) (provider : Base.AIProvider) :
  let out := UnifiedAIService.SetPrimaryProvider s provider in
  (snd out = None <-> In provider (UnifiedAIService.GetAvailableProviders s))
  /\ (In provider (UnifiedAIService.GetAvailableProviders s)
      <-> (provider = Base.OpenAIProvider
           /\ UnifiedAIService.openAIService s <> None)
          \/ (provider = Base.GeminiProvider
              /\ UnifiedAIService.geminiService s <> None))
  /\ (snd out = None ->
      UnifiedAIService.GetPrimaryProvider (fst out) = provider)
  /\ (snd out <> None -> fst out = s)
  /\ UnifiedAIService.GetAvailableProviders (fst out)
     = UnifiedAIService.GetAvailableProviders s.
Proof.
  cbv zeta. unfold UnifiedAIService.SetPrimaryProvider.
  destruct (existsb (fun available => String.eqb available provider)
                    (UnifiedAIService.GetAvailableProviders s)) eqn:E.
  - apply existsb_exists in E. destruct E as (a & Hin & Heq).
    apply String.eqb_eq in Heq. subst a. simpl.
    split; [split; [intros _; exact Hin|reflexivity]|].
    split.
    { unfold UnifiedAIService.GetAvailableProviders in *.
      destruct (UnifiedAIService.openAIService s);
        destruct (UnifiedAIService.geminiService s); simpl in *;
        intuition (subst; try discriminate; auto). }
    split; [reflexivity|]. split; [intros H; contradiction|reflexivity].
  - simpl.
    assert (Hnot : ~ In provider (UnifiedAIService.GetAvailableProviders s)).
    { intros Hin.
      assert (H : existsb (fun available => String.eqb available provider)
                          (UnifiedAIService.GetAvailableProviders s) = true).
      { apply existsb_exists. exists provider. split; [exact Hin|].
        apply String.eqb_refl. }
      rewrite H in E. discriminate. }
    split; [split; [discriminate|intros H; contradiction]|].
    split.
    { unfold UnifiedAIService.GetAvailableProviders in *.
      destruct (UnifiedAIService.openAIService s);
        destruct (UnifiedAIService.geminiService s); simpl in *;
        intuition (subst; try discriminate; auto). }
    split; [discriminate|]. split; reflexivity.
Qed.

(** ** The chat services: what a call stores and what it sends *)

Module ChatMore.
Import GoStr Base Sql ChatStore WorldOps.
Import ChatStoreProps KnowledgeSearchProps EnhancedProps EnhancedRun.
Import EnhancedMessages.
Local Open Scope string_scope.
Local Open Scope list_scope.


(** The session that [getOrCreateSession] returns is stored afterwards,
    active and owned by the user; the sessions stored before are kept. *)
Lemma getOrCreateSession_session env userID sessionID w session w1 :
  EnhancedChatService.getOrCreateSession env userID sessionID w
  = (Ok session, w1) ->
  In session (sessions (db w1))
  /\ sess_UserID session = userID /\ sess_IsActive session = true
  /\ (exists news, sessions (db w1) = sessions (db w) ++ news
                   /\ (List.length news <= 1)%nat)
  /\ messages (db w1) = messages (db w)
  /\ entries (db w1) = entries (db w)
  /\ embeddings (db w1) = embeddings (db w)
  /\ calls w1 = calls w.
Proof.
  rewrite getOrCreateSession_eq.
  destruct (lookupFor env w userID sessionID) as [s0|] eqn:E.
  - intros H. inversion H; subst s0 w1; clear H.
    unfold lookupFor in E. destruct sessionID as [id|]; [|discriminate].
    destruct (db_fault env SiteSessionLookup); [discriminate|].
    destruct (find_some _ _ E) as [Hin Hf].
    apply andb_true_iff in Hf. destruct Hf as [Hf Hact].
    apply andb_true_iff in Hf. destruct Hf as [_ Huser].
    apply N.eqb_eq in Huser.
    split; [exact Hin|]. split; [exact Huser|]. split; [exact Hact|].
    split; [exists []; rewrite app_nil_r; split; [reflexivity|simpl; lia]|].
    repeat split; reflexivity.
  - rewrite createSession_spec.
    destruct (db_fault env SiteSessionCreate); [discriminate|].
    intros H. inversion H; subst session w1; clear H. simpl.
    split; [apply in_or_app; right; left; reflexivity|].
    split; [reflexivity|]. split; [reflexivity|].
    split; [eexists; split; [reflexivity|simpl; lia]|].
    repeat split; reflexivity.
Qed.

(** Without a session, nothing was written. *)
Lemma getOrCreateSession_failed env userID sessionID w r w1 :
  EnhancedChatService.getOrCreateSession env userID sessionID w = (r, w1) ->
  isOk r = false -> w1 = w /\ exists e, r = Err e.
Proof.
  rewrite getOrCreateSession_eq.
  destruct (lookupFor env w userID sessionID) as [s0|].
  - intros H. inversion H; subst. discriminate.
  - rewrite createSession_spec.
    destruct (db_fault env SiteSessionCreate) as [e|].
    + intros H _. inversion H; subst. split; [reflexivity|exists e; reflexivity].
    + intros H. inversion H; subst. discriminate.
Qed.



(** Whatever the outcome, the enhanced service only appends. *)
Lemma ProcessChat_appends env s req w :
  let w' := snd (EnhancedChatService.ProcessChat env s req w) in
  (exists news, sessions (db w') = sessions (db w) ++ news
                /\ (List.length news <= 1)%nat)
  /\ (exists news, messages (db w') = messages (db w) ++ news
                   /\ (List.length news <= 2)%nat)
  /\ entries (db w') = entries (db w)
  /\ embeddings (db w') = embeddings (db w).
Proof.
  cbv zeta. rewrite ProcessChat_eq, prepare_eq.
  pose proof (getOrCreateSession_session env
                (EnhancedChatService.UserID req)
                (EnhancedChatService.SessionID req) w) as Hs.
  pose proof (getOrCreateSession_failed env
                (EnhancedChatService.UserID req)
                (EnhancedChatService.SessionID req) w) as Hf.
  destruct (EnhancedChatService.getOrCreateSession env
              (EnhancedChatService.UserID req)
              (EnhancedChatService.SessionID req) w)
    as [[session|e|e] w1].
  2,3: destruct (Hf _ _ eq_refl eq_refl) as (-> & _); simpl;
       (split; [exists []; rewrite app_nil_r; split; [reflexivity|simpl; lia]|]);
       (split; [exists []; rewrite app_nil_r; split; [reflexivity|simpl; lia]|]);
       split; reflexivity.
  destruct (Hs session w1 eq_refl)
    as (_ & _ & _ & Hsess & Hmsg & Hent & Hemb & _).
  clear Hs Hf.
  destruct (db_fault env SiteUserMessageCreate) as [e|].
  { simpl. split; [exact Hsess|].
    split; [exists []; rewrite app_nil_r; split; [exact Hmsg|simpl; lia]|].
    split; assumption. }
  cbv zeta.
  set (um := messageMade w1 (sess_ID session) "user"
               (EnhancedChatService.Message req) MetaEmpty).
  set (w2 := afterMessage w1 um).
  set (p := EnhancedChatService.preparedFor env s req session um w2).
  destruct (ChatCompletion_only_calls env
              (EnhancedChatService.unifiedAIService s)
              (EnhancedChatService.p_aiRequest p) w2) as [tr (Hdb & _)].
  destruct (UnifiedAIService.ChatCompletion env
              (EnhancedChatService.unifiedAIService s)
              (EnhancedChatService.p_aiRequest p) w2) as [[ai|e|e] w3];
    simpl in Hdb.
  2,3: simpl; rewrite Hdb; simpl;
       (split; [exact Hsess|]);
       (split; [exists [um]; rewrite Hmsg; split; [reflexivity|simpl; lia]|]);
       split; assumption.
  destruct (db_fault env SiteAssistantMessageCreate) as [e|].
  { simpl. rewrite Hdb. simpl. split; [exact Hsess|].
    split; [exists [um]; rewrite Hmsg; split; [reflexivity|simpl; lia]|].
    split; assumption. }
  cbv zeta. simpl. rewrite Hdb. simpl.
  split; [exact Hsess|].
  split.
  { eexists [um; _]. rewrite Hmsg, <- app_assoc.
    split; [reflexivity|simpl; lia]. }
  split; assumption.
Qed.




End ChatMore.

Section LegacyRequest.
Import GoStr Base Sql ChatStore WorldOps.
Import ChatStoreProps KnowledgeSearchProps EnhancedProps EnhancedRun.
Import EnhancedMessages.
Import ChatMore.
Local Open Scope string_scope.
Local Open Scope list_scope.


End LegacyRequest.

Section StoredTurns.
Import GoStr Base Sql ChatStore WorldOps.
Import ChatStoreProps KnowledgeSearchProps EnhancedProps EnhancedRun.
Import EnhancedMessages.
Import ChatMore.
Local Open Scope string_scope.
Local Open Scope list_scope.

(** X10. A call of EnhancedChatService.ProcessChat that returns a
    response has appended exactly two messages: the inbound message with
    role "user" and empty metadata, then the reply with role "assistant",
    the text of the response and metadata that name the provider and the
    model of the response.  Both belong to the session of the response,
    which is a stored, active session of the requesting user; their
    identifiers are new and distinct, and the reply is stamped after the
    inbound message, with the time that the response carries. *)
Theorem X10_ProcessChat_stores_both_turns
    (env : Base.Env) (s : EnhancedChatService.t)
    (req : EnhancedChatService.EnhancedChatRequest) (w : Base.World)
    (resp : EnhancedChatService.EnhancedChatResponse) (w' : Base.World) :
  EnhancedChatService.ProcessChat env s req w = (Base.Ok resp, w') ->
  exists session um am,
    Base.messages (Base.db w') = Base.messages (Base.db w) ++ [um; am]
    /\ In session (Base.sessions (Base.db w'))
    /\ Base.sess_ID session = EnhancedChatService.RespSessionID resp
    /\ Base.sess_UserID session = EnhancedChatService.UserID req
    /\ Base.sess_IsActive session = true
    /\ Base.msg_SessionID um = Base.sess_ID session
    /\ Base.msg_Role um = "user"%string
    /\ Base.msg_Content um = EnhancedChatService.Message req
    /\ Base.msg_Metadata um = Base.MetaEmpty
    /\ Base.msg_SessionID am = Base.sess_ID session
    /\ Base.msg_Role am = "assistant"%string
    /\ Base.msg_Content am = EnhancedChatService.Response resp
    /\ (exists sources,
           Base.msg_Metadata am
           = Base.MetaJSON (EnhancedChatService.Provider resp)
                           (EnhancedChatService.Model resp) sources)
    /\ Base.msg_CreatedAt am = EnhancedChatService.CreatedAt resp
    /\ (Base.msg_CreatedAt um < Base.msg_CreatedAt am)%nat
    /\ NoDup (map Base.msg_ID [um; am])
    /\ (forall m, In m (Base.messages (Base.db w)) ->
                  Base.msg_ID m <> Base.msg_ID um
                  /\ Base.msg_ID m <> Base.msg_ID am).
Proof.
  intros Hrun.
  destruct (ProcessChat_Ok_inv env s req w resp w' Hrun)
    as (session & w1 & ai & w3 & tr & Hget & Hu & Ha & H).
  cbv zeta in H.
  destruct H as (Hprep & Hcc & (Hdb & Hclock & _) & Hw' & Hresp & Hid & Hprov).
  destruct (getOrCreateSession_session env _ _ w session w1 Hget)
    as (Hin & Huser & Hact & _ & Hmsg & _).
  set (um := messageMade w1 (sess_ID session) "user"
               (EnhancedChatService.Message req) MetaEmpty) in *.
  set (am := messageMade w3 (sess_ID session) "assistant"
               (UnifiedAIService.Message ai)
               (MetaJSON (UnifiedAIService.Provider ai)
                         (UnifiedAIService.Model ai)
                         (UnifiedAIService.Sources ai))) in *.
  assert (Hm3 : messages (db w3) = messages (db w) ++ [um]).
  { rewrite Hdb. simpl. rewrite Hmsg. reflexivity. }
  assert (Hresp' : resp
                   = {| EnhancedChatService.Response := UnifiedAIService.Message ai;
                        EnhancedChatService.RespSessionID := sess_ID session;
                        EnhancedChatService.Sources :=
                          map ke_ID
                            (EnhancedChatService.p_knowledgeEntries
                               (EnhancedChatService.preparedFor env s req
                                  session um (afterMessage w1 um)));
                        EnhancedChatService.Provider := UnifiedAIService.Provider ai;
                        EnhancedChatService.Model := UnifiedAIService.Model ai;
                        EnhancedChatService.CreatedAt := msg_CreatedAt am |}).
  { rewrite ProcessChat_eq, Hprep, Hcc, Ha in Hrun. cbv zeta in Hrun.
    inversion Hrun. reflexivity. }
  assert (Hfresh_um : ~ In (msg_ID um) (map msg_ID (messages (db w)))).
  { unfold um, messageMade. simpl. rewrite Hmsg. apply fresh_id_fresh. }
  assert (Hfresh_am : ~ In (msg_ID am) (map msg_ID (messages (db w) ++ [um]))).
  { unfold am, messageMade. simpl. rewrite Hm3. apply fresh_id_fresh. }
  exists session, um, am.
  split.
  { rewrite Hw'. simpl. rewrite Hm3, <- app_assoc. reflexivity. }
  split.
  { rewrite Hw'. simpl. rewrite Hdb. simpl. exact Hin. }
  split; [symmetry; exact Hid|]. split; [exact Huser|]. split; [exact Hact|].
  split; [reflexivity|]. split; [reflexivity|]. split; [reflexivity|].
  split; [reflexivity|]. split; [reflexivity|]. split; [reflexivity|].
  split; [rewrite Hresp'; reflexivity|].
  split; [exists (UnifiedAIService.Sources ai); rewrite Hresp'; reflexivity|].
  split; [rewrite Hresp'; reflexivity|].
  split; [unfold am, um, messageMade; simpl; rewrite Hclock; simpl; lia|].
  split.
  { constructor; [|constructor; [intros []|constructor]].
    intros [E|[]]. apply Hfresh_am. rewrite map_app. apply in_or_app.
    right. left. symmetry. exact E. }
  intros m Hm. split.
  - intros E. apply Hfresh_um. rewrite <- E. apply in_map. exact Hm.
  - intros E. apply Hfresh_am. rewrite <- E. apply in_map.
    apply in_or_app. left. exact Hm.
Qed.

End StoredTurns.

(** The second question in the session that holds one exchange. *)
Lemma X10_witness :
  let out := EnhancedChatService.ProcessChat Scenario.env_ok Scenario.enhanced
               Scenario.nextRequest Scenario.talkedWorld in
  exists um am,
    Base.messages (Base.db (snd out))
    = [Scenario.firstQuestion; Scenario.firstAnswer; um; am]
    /\ Base.msg_Role um = "user"%string
    /\ Base.msg_Role am = "assistant"%string.
Proof.
  intros out. destruct out as [r w'] eqn:E.
  destruct r as [resp|e|e];
    [|vm_compute in E; discriminate|vm_compute in E; discriminate].
  destruct (X10_ProcessChat_stores_both_turns Scenario.env_ok
              Scenario.enhanced Scenario.nextRequest Scenario.talkedWorld
              resp w' E)
    as (session & um & am & Hm & _ & _ & _ & _ & _ & Hu & _ & _ & _ & Ha & _).
  exists um, am. split; [exact Hm|]. split; [exact Hu|exact Ha].
Defined.

(** X11. Whatever a call of EnhancedChatService.ProcessChat returns, it
    has only appended to the chat tables: at most one session and at most
    two messages, after the rows that were there, which are unchanged;
    and it has written nothing to the knowledge entries and their
    embedding rows. *)
Theorem X11_ProcessChat_only_appends
    (env : Base.Env) (s : EnhancedChatService.t)
    (req : EnhancedChatService.EnhancedChatRequest) (w : Base.World) :
  let w' := snd (EnhancedChatService.ProcessChat env s req w) in
  (exists news,
      Base.sessions (Base.db w') = Base.sessions (Base.db w) ++ news
      /\ (List.length news <= 1)%nat)
  /\ (exists news,
         Base.messages (Base.db w') = Base.messages (Base.db w) ++ news
         /\ (List.length news <= 2)%nat)
  /\ Base.entries (Base.db w') = Base.entries (Base.db w)
  /\ Base.embeddings (Base.db w') = Base.embeddings (Base.db w).
Proof. exact (ChatMore.ProcessChat_appends env s req w). Qed.



(** ** Reading a knowledge entry *)

Module KnowledgeReadsProps.
Import GoStr Base KnowledgeReads.
Local Open Scope string_scope.
Local Open Scope list_scope.
Local Open Scope Z_scope.

Lemma sameButViews_refl e : sameButViews e e.
Proof. repeat split; reflexivity. Qed.

(** The increment keeps the rows, their order and everything but the
    count of the rows it is for. *)
Lemma incrementViewCount_rows fault id d :
  Forall2 (fun a b => sameButViews a b /\ (ke_ID a <> id -> b = a)
                      /\ (ke_ViewCount a <= ke_ViewCount b <= ke_ViewCount a + 1))
          (entries d) (entries (incrementViewCount fault id d))
  /\ sessions (incrementViewCount fault id d) = sessions d
  /\ messages (incrementViewCount fault id d) = messages d
  /\ embeddings (incrementViewCount fault id d) = embeddings d.
Proof.
  assert (Hsame : forall l : list KnowledgeEntry,
             Forall2 (fun a b => sameButViews a b /\ (ke_ID a <> id -> b = a)
                                 /\ (ke_ViewCount a <= ke_ViewCount b
                                     <= ke_ViewCount a + 1)) l l).
  { induction l as [|e l IH]; constructor; [|exact IH].
    split; [apply sameButViews_refl|]. split; [reflexivity|lia]. }
  unfold incrementViewCount.
  destruct (fault SiteViewCountUpdate);
    [split; [apply Hsame|repeat split; reflexivity]|].
  destruct (existsb _ _);
    [split; [apply Hsame|repeat split; reflexivity]|].
  split; [|repeat split; reflexivity].
  simpl. induction (entries d) as [|e l IH]; simpl; constructor; [|exact IH].
  destruct (N.eqb_spec (ke_ID e) id) as [E|E].
  - split; [repeat split; reflexivity|].
    split; [intros H; contradiction|simpl; lia].
  - split; [apply sameButViews_refl|]. split; [reflexivity|lia].
Qed.

Lemma find_id_In (id : uuid) (l : list KnowledgeEntry) e :
  find (fun e => N.eqb (ke_ID e) id) l = Some e -> In e l /\ ke_ID e = id.
Proof.
  intros H. destruct (find_some _ _ H) as [Hin Hid].
  apply N.eqb_eq in Hid. split; assumption.
Qed.

(** With identifiers that are unique, the row of [id] after the
    increment. *)
Lemma find_after_increment id (l : list KnowledgeEntry) e :
  NoDup (map ke_ID l) ->
  find (fun e => N.eqb (ke_ID e) id) l = Some e ->
  find (fun e => N.eqb (ke_ID e) id)
       (map (fun e => if N.eqb (ke_ID e) id
                      then with_ViewCount e (ke_ViewCount e + 1) else e) l)
  = Some (with_ViewCount e (ke_ViewCount e + 1))
  /\ NoDup (map ke_ID
              (map (fun e => if N.eqb (ke_ID e) id
                             then with_ViewCount e (ke_ViewCount e + 1)
                             else e) l)).
Proof.
  intros Hnd Hf. split.
  - clear Hnd. induction l as [|x l IH]; simpl in *; [discriminate|].
    destruct (N.eqb (ke_ID x) id) eqn:E.
    + inversion Hf; subst. simpl. rewrite E. reflexivity.
    + rewrite E. apply IH. exact Hf.
  - rewrite map_map.
    replace (map (fun x => ke_ID (if N.eqb (ke_ID x) id
                                  then with_ViewCount x (ke_ViewCount x + 1)
                                  else x)) l)
      with (map ke_ID l); [exact Hnd|].
    apply map_ext. intros x. destruct (N.eqb (ke_ID x) id); reflexivity.
Qed.

(** Whether the increment applies depends, with unique identifiers, on
    the count of the one row. *)
Lemma overflow_check id (l : list KnowledgeEntry) e :
  NoDup (map ke_ID l) ->
  find (fun e => N.eqb (ke_ID e) id) l = Some e ->
  existsb (fun e => N.eqb (ke_ID e) id && (maxViewCount <=? ke_ViewCount e)) l
  = (maxViewCount <=? ke_ViewCount e).
Proof.
  intros Hnd Hf. induction l as [|x l IH]; simpl in *; [discriminate|].
  inversion Hnd as [|? ? Hx Hl]; subst.
  destruct (N.eqb (ke_ID x) id) eqn:E.
  - inversion Hf; subst. simpl.
    assert (Hrest : existsb (fun e0 => N.eqb (ke_ID e0) id
                                       && (maxViewCount <=? ke_ViewCount e0)) l
                    = false).
    { destruct (existsb _ l) eqn:Ex; [|reflexivity].
      apply existsb_exists in Ex. destruct Ex as (y & Hy & Hc).
      apply andb_true_iff in Hc. destruct Hc as [Hid _].
      apply N.eqb_eq in Hid. apply N.eqb_eq in E.
      exfalso. apply Hx. rewrite E, <- Hid. apply in_map. exact Hy. }
    rewrite Hrest. apply orb_false_r.
  - simpl. apply IH; assumption.
Qed.

(** What one read does when nothing fails. *)
Lemma read_once id d e :
  NoDup (map ke_ID (entries d)) ->
  find (fun e => N.eqb (ke_ID e) id) (entries d) = Some e ->
  ke_ViewCount e < maxViewCount ->
  GetKnowledgeEntryByID noFaults id d
  = (Ok e,
     with_entries d
       (map (fun x => if N.eqb (ke_ID x) id
                      then with_ViewCount x (ke_ViewCount x + 1) else x)
            (entries d))).
Proof.
  intros Hnd Hf Hlt. unfold GetKnowledgeEntryByID. simpl. rewrite Hf.
  destruct (find_id_In id _ e Hf) as [_ Hid].
  unfold incrementViewCount. simpl. rewrite Hid.
  rewrite (overflow_check id _ e Hnd Hf).
  destruct (Z.leb_spec maxViewCount (ke_ViewCount e)); [lia|reflexivity].
Qed.

End KnowledgeReadsProps.

(** X13.  [GetKnowledgeEntryByID] returns the row as it was read, that
    is with the view count from before this read, and then raises the
    stored count of that row by one.  A read never adds, drops or
    reorders rows, it leaves the identifier, title, content, summary,
    publish flag and priority of every row and the other tables as they
    were, and when it returns an error the database is as it was. *)
Theorem X13_read_returns_the_count_before_it (fault : KnowledgeReads.ReadFaults)
    (id : Base.uuid) (d : Base.DB) :
  let out := KnowledgeReads.GetKnowledgeEntryByID fault id d in
  Forall2 (fun a b => KnowledgeReads.sameButViews a b
                      /\ (Base.ke_ID a <> id -> b = a)
                      /\ (Base.ke_ViewCount a <= Base.ke_ViewCount b
                          <= Base.ke_ViewCount a + 1)%Z)
          (Base.entries d) (Base.entries (snd out))
  /\ Base.sessions (snd out) = Base.sessions d
  /\ Base.messages (snd out) = Base.messages d
  /\ Base.embeddings (snd out) = Base.embeddings d
  /\ match fst out with
     | Base.Ok e =>
         In e (Base.entries d) /\ Base.ke_ID e = id
         /\ (fault KnowledgeReads.SiteViewCountUpdate = None ->
             NoDup (map Base.ke_ID (Base.entries d)) ->
             (Base.ke_ViewCount e < KnowledgeReads.maxViewCount)%Z ->
             find (fun x => N.eqb (Base.ke_ID x) id) (Base.entries (snd out))
             = Some (KnowledgeReads.with_ViewCount e
                       (Base.ke_ViewCount e + 1)%Z))
     | _ => snd out = d
     end.
Proof.
  cbv zeta. unfold KnowledgeReads.GetKnowledgeEntryByID.
  assert (Hsame : Forall2
            (fun a b => KnowledgeReads.sameButViews a b
                        /\ (Base.ke_ID a <> id -> b = a)
                        /\ (Base.ke_ViewCount a <= Base.ke_ViewCount b
                            <= Base.ke_ViewCount a + 1)%Z)
            (Base.entries d) (Base.entries d)).
  { induction (Base.entries d) as [|e l IH]; constructor; [|exact IH].
    split; [apply KnowledgeReadsProps.sameButViews_refl|].
    split; [reflexivity|lia]. }
  destruct (fault KnowledgeReads.SiteEntryFind) as [err|] eqn:Ef.
  { simpl. repeat split; try reflexivity. exact Hsame. }
  destruct (find _ (Base.entries d)) as [e|] eqn:Efind.
  2:{ simpl. repeat split; try reflexivity. exact Hsame. }
  destruct (KnowledgeReadsProps.find_id_In id _ e Efind) as [Hin Hid].
  cbn [fst snd]. rewrite Hid.
  destruct (KnowledgeReadsProps.incrementViewCount_rows fault id d)
    as (Hrows & Hs & Hm & Hv).
  split; [exact Hrows|]. split; [exact Hs|]. split; [exact Hm|].
  split; [exact Hv|]. split; [exact Hin|]. split; [reflexivity|].
  intros Hu Hnd Hlt. unfold KnowledgeReads.incrementViewCount.
  rewrite Hu, (KnowledgeReadsProps.overflow_check id _ e Hnd Efind).
  destruct (Z.leb_spec KnowledgeReads.maxViewCount (Base.ke_ViewCount e));
    [lia|].
  exact (proj1 (KnowledgeReadsProps.find_after_increment id _ e Hnd Efind)).
Qed.

(** X14.  With unique identifiers and no failing statement, [n] reads
    of an entry in a row return view counts [c], [c + 1], ...,
    [c + n - 1], where [c] is the stored count before the first read,
    and leave the stored count at [c + n]: the count a caller sees is
    always one behind the stored one. *)
Theorem X14_reads_count_up_one_behind (id : Base.uuid) (n : nat)
    (d : Base.DB) (e : Base.KnowledgeEntry) :
  NoDup (map Base.ke_ID (Base.entries d)) ->
  find (fun x => N.eqb (Base.ke_ID x) id) (Base.entries d) = Some e ->
  (Base.ke_ViewCount e + Z.of_nat n <= KnowledgeReads.maxViewCount)%Z ->
  let out := KnowledgeReads.readTimes KnowledgeReads.noFaults id n d in
  fst out
  = map (fun k => Base.Ok (KnowledgeReads.with_ViewCount e
                             (Base.ke_ViewCount e + Z.of_nat k)%Z))
        (seq 0 n)
  /\ find (fun x => N.eqb (Base.ke_ID x) id) (Base.entries (snd out))
     = Some (KnowledgeReads.with_ViewCount e
               (Base.ke_ViewCount e + Z.of_nat n)%Z).
Proof.
  intros Hnd Hf Hle. cbv zeta.
  revert d e Hnd Hf Hle. induction n as [|n IH]; intros d e Hnd Hf Hle.
  - simpl. split; [reflexivity|]. rewrite Hf. f_equal.
    destruct e; unfold KnowledgeReads.with_ViewCount; simpl. f_equal. lia.
  - cbn [KnowledgeReads.readTimes].
    rewrite (KnowledgeReadsProps.read_once id d e Hnd Hf) by lia.
    destruct (KnowledgeReadsProps.find_after_increment id (Base.entries d) e
                Hnd Hf) as [Hf' Hnd'].
    set (d1 := KnowledgeReads.with_entries d _).
    specialize (IH d1 (KnowledgeReads.with_ViewCount e
                         (Base.ke_ViewCount e + 1)%Z) Hnd' Hf').
    simpl Base.ke_ViewCount in IH.
    destruct (KnowledgeReads.readTimes KnowledgeReads.noFaults id n d1)
      as [rs d2].
    destruct (IH ltac:(lia)) as [Hrs Hfind]. simpl in Hrs, Hfind |- *.
    split.
    + f_equal.
      * f_equal. destruct e; unfold KnowledgeReads.with_ViewCount; simpl.
        f_equal. lia.
      * rewrite Hrs, <- seq_shift, map_map. apply map_ext. intros k.
        f_equal. unfold KnowledgeReads.with_ViewCount. simpl. f_equal. lia.
    + rewrite Hfind. f_equal. unfold KnowledgeReads.with_ViewCount. simpl.
      f_equal. lia.
Qed.

Lemma X14_witness :
  fst (KnowledgeReads.readTimes KnowledgeReads.noFaults 7%N 3
         ReadScenario.library)
  = [Base.Ok (ReadScenario.seen 7%N 5%Z); Base.Ok (ReadScenario.seen 7%N 6%Z);
     Base.Ok (ReadScenario.seen 7%N 7%Z)]
  /\ find (fun x => N.eqb (Base.ke_ID x) 7%N)
          (Base.entries (snd (KnowledgeReads.readTimes KnowledgeReads.noFaults
                                7%N 3 ReadScenario.library)))
     = Some (ReadScenario.seen 7%N 8%Z).
Proof.
  refine (X14_reads_count_up_one_behind 7%N 3 ReadScenario.library
            (ReadScenario.seen 7%N 5%Z) _ _ _).
  - repeat constructor; simpl; intuition discriminate.
  - reflexivity.
  - vm_compute. discriminate.
Defined.

(** ** The knowledge routes *)

Module StrconvProps.
Import GoStr Strconv.
Local Open Scope list_scope.
Local Open Scope Z_scope.

Lemma lit_String a s : lit (String a s) = N_of_ascii a :: lit s.
Proof. reflexivity. Qed.

(** The digits that [fmt] writes are read back. *)
Lemma digits_of_uint (d : Decimal.uint) (acc : nat) :
  digits (Z.of_nat acc) (lit (DecimalString.NilEmpty.string_of_uint d))
  = Some (Z.of_nat (Nat.of_uint_acc d acc)).
Proof.
  revert acc.
  induction d as [|d IH|d IH|d IH|d IH|d IH|d IH|d IH|d IH|d IH|d IH];
    intros acc; [reflexivity|..];
    cbn [DecimalString.NilEmpty.string_of_uint Nat.of_uint_acc];
    rewrite lit_String; cbn [digits];
    match goal with
    | |- context [digit ?r] =>
        let v := eval vm_compute in (digit r) in
        change (digit r) with v
    end;
    cbv beta iota; rewrite <- IH; f_equal;
    rewrite ?Nat2Z.inj_succ, Nat.tail_mul_spec, Nat2Z.inj_mul;
    simpl Z.of_nat; lia.
Qed.

Lemma string_of_uint_nonempty (n : nat) :
  lit (DecimalString.NilEmpty.string_of_uint (Nat.to_uint n)) <> [].
Proof.
  intros H.
  assert (E : Nat.to_uint n = Decimal.Nil).
  { destruct (Nat.to_uint n); try discriminate H. reflexivity. }
  pose proof (Unsigned.of_to n) as Hn. rewrite E in Hn.
  change (Nat.of_uint Decimal.Nil) with 0%nat in Hn. subst n. discriminate E.
Qed.

Lemma first_is_digit (d : Decimal.uint) r s :
  lit (DecimalString.NilEmpty.string_of_uint d) = r :: s ->
  (48 <= r <= 57)%N.
Proof.
  destruct d; try discriminate; simpl; intros H; inversion H; subst;
    vm_compute; split; discriminate.
Qed.

Lemma Atoi_decimal (n : nat) :
  Z.of_nat n <= maxInt ->
  Atoi (OpenAIService.decimal n) = Some (Z.of_nat n).
Proof.
  intros Hle. unfold Atoi, OpenAIService.decimal.
  pose proof (string_of_uint_nonempty n) as Hne.
  pose proof (digits_of_uint (Nat.to_uint n) 0) as Hd.
  change (Z.of_nat 0) with 0 in Hd.
  change (Nat.of_uint_acc (Nat.to_uint n) 0)
    with (Nat.of_uint (Nat.to_uint n)) in Hd.
  rewrite Unsigned.of_to in Hd.
  destruct (lit _) as [|r s] eqn:E; [contradiction|].
  pose proof (first_is_digit _ _ _ E) as Hr.
  destruct (N.eqb_spec r 43) as [E43|_]; [lia|].
  destruct (N.eqb_spec r 45) as [E45|_]; [lia|].
  rewrite Hd.
  assert (Hmin : minInt <= Z.of_nat n) by (unfold minInt; lia).
  destruct (Z.leb_spec minInt (Z.of_nat n)); [|lia].
  destruct (Z.leb_spec (Z.of_nat n) maxInt); [|lia].
  reflexivity.
Qed.

End StrconvProps.

Module RouteProps.
Import GoStr Base Sql KnowledgeService KnowledgeRoutes.
Local Open Scope string_scope.
Local Open Scope list_scope.
Local Open Scope Z_scope.

Lemma Atoi_range s v : Strconv.Atoi s = Some v -> v <= Strconv.maxInt.
Proof.
  unfold Strconv.Atoi.
  destruct (match s with [] => _ | _ => _ end) as [negative ds].
  destruct ds as [|r ds]; [discriminate|].
  destruct (Strconv.digits 0 (r :: ds)) as [n|]; [|discriminate].
  cbv zeta.
  destruct (Strconv.minInt <=? (if negative then - n else n)); simpl;
    [|discriminate].
  destruct (Z.leb_spec (if negative then - n else n) Strconv.maxInt);
    [|discriminate].
  intros Hv. inversion Hv. subst. assumption.
Qed.

Lemma searchLimit_range limitParam :
  1 <= searchLimit limitParam <= Strconv.maxInt.
Proof.
  unfold searchLimit.
  destruct (Strconv.Atoi _) as [v|] eqn:E; [|vm_compute; split; discriminate].
  apply Atoi_range in E.
  destruct (Z.leb_spec v 0); [vm_compute; split; discriminate|lia].
Qed.

(** The default stands in for every parameter that is not a positive
    [int]. *)
Lemma searchLimit_eq (limitParam : gostring) :
  searchLimit limitParam
  = match Strconv.Atoi limitParam with
    | Some v => if 0 <? v then v else 10
    | None => 10
    end.
Proof.
  unfold searchLimit, Query. destruct limitParam as [|r t]; [reflexivity|].
  cbn [isEmpty]. destruct (Strconv.Atoi (r :: t)) as [v|]; [|reflexivity].
  destruct (Z.leb_spec v 0); destruct (Z.ltb_spec 0 v); try reflexivity; lia.
Qed.

Lemma searchLimit_decimal (n : nat) :
  1 <= Z.of_nat n <= Strconv.maxInt ->
  searchLimit (OpenAIService.decimal n) = Z.of_nat n.
Proof.
  intros [H1 H2]. unfold searchLimit, Query.
  pose proof (StrconvProps.string_of_uint_nonempty n) as Hne.
  fold (OpenAIService.decimal n) in Hne.
  destruct (OpenAIService.decimal n) as [|r t] eqn:E; [contradiction|].
  cbn [isEmpty]. rewrite <- E, (StrconvProps.Atoi_decimal n H2).
  destruct (Z.leb_spec (Z.of_nat n) 0); [lia|reflexivity].
Qed.

Lemma filter_filter_same {A} (f : A -> bool) (l : list A) :
  filter f (filter f l) = filter f l.
Proof.
  induction l as [|x l IH]; simpl; [reflexivity|].
  destruct (f x) eqn:E; simpl; [rewrite E, IH|]; auto.
Qed.

Lemma filter_nothing_iff {A} (f : A -> bool) (l : list A) :
  filter (fun x => negb (f x)) l = l <-> filter f l = [].
Proof.
  induction l as [|x l IH]; simpl; [tauto|].
  destruct (f x) eqn:E; simpl.
  - split; [|discriminate]. intros H.
    assert (Hl : (List.length (filter (fun x => negb (f x)) l)
                  <= List.length l)%nat) by apply filter_length_le.
    rewrite H in Hl. simpl in Hl. lia.
  - split; intros H.
    + inversion H as [H']. rewrite H'. apply IH. exact H'.
    + f_equal. apply IH. exact H.
Qed.

(** A delete whose statements all work. *)
Lemma DeleteKnowledgeEntry_works env s id w :
  deleteWorks env ->
  DeleteKnowledgeEntry env s id w
  = ((None, tt),
     {| db := {| sessions := sessions (db w);
                 messages := messages (db w);
                 entries := filter (fun e => negb (N.eqb (ke_ID e) id))
                                   (entries (db w));
                 embeddings :=
                   filter (fun v => negb (N.eqb (ve_KnowledgeEntryID v) id))
                          (embeddings (db w)) |};
        clock := clock w; calls := calls w;
        journal := journal w
                   ++ [StmtDeleteEmbeddings id; StmtDeleteEntry id] |}).
Proof.
  intros (H1 & H2 & H3).
  unfold DeleteKnowledgeEntry, tx_DeleteEmbeddings, tx_DeleteEntry, Commit.
  rewrite H1, H2, H3. reflexivity.
Qed.

End RouteProps.

(** X15.  The search route answers 400 for an empty [q] and otherwise
    runs the search with a limit that is at least 1: the number given as
    [limit] when that is a positive decimal [int], and 10 when the
    parameter is missing, not a number, zero, negative or too large.
    A 200 answer therefore never holds more entries than that limit,
    all of them published and in ranking order; a failing query gives
    500.  The route changes nothing. *)
Theorem X15_search_route_bounds_its_answer (env : Base.Env)
    (s : KnowledgeService.t) (q limitParam : GoStr.gostring)
    (w : Base.World) :
  let limit := KnowledgeRoutes.searchLimit limitParam in
  let out := KnowledgeRoutes.searchKnowledgeEntries env s q limitParam w in
  (1 <= limit <= Strconv.maxInt)%Z
  /\ limit = match Strconv.Atoi limitParam with
             | Some v => if (0 <? v)%Z then v else 10%Z
             | None => 10%Z
             end
  /\ (forall n : nat,
         (1 <= Z.of_nat n <= Strconv.maxInt)%Z ->
         KnowledgeRoutes.searchLimit (OpenAIService.decimal n) = Z.of_nat n)
  /\ snd out = w
  /\ exists resp,
       fst out = Base.Ok resp
       /\ if GoStr.isEmpty q
          then resp
               = {| KnowledgeRoutes.Status := 400;
                    KnowledgeRoutes.Json :=
                      KnowledgeRoutes.ErrorBody
                        "Query parameter 'q' is required" |}
          else match Base.db_fault env Base.SiteKnowledgeTextFind with
               | Some _ =>
                   resp
                   = {| KnowledgeRoutes.Status := 500;
                        KnowledgeRoutes.Json :=
                          KnowledgeRoutes.ErrorBody
                            "Failed to search knowledge entries" |}
               | None =>
                   exists l,
                     resp = {| KnowledgeRoutes.Status := 200;
                               KnowledgeRoutes.Json :=
                                 KnowledgeRoutes.EntriesBody l |}
                     /\ (Z.of_nat (List.length l) <= limit)%Z
                     /\ StronglySorted KnowledgeService.ranked l
                     /\ Forall (fun e => In e (Base.entries (Base.db w))
                                         /\ Base.ke_IsPublished e = true) l
               end.
Proof.
  cbv zeta.
  pose proof (RouteProps.searchLimit_range limitParam) as Hrange.
  split; [exact Hrange|]. split; [apply RouteProps.searchLimit_eq|].
  split; [exact RouteProps.searchLimit_decimal|].
  unfold KnowledgeRoutes.searchKnowledgeEntries.
  destruct (GoStr.isEmpty q).
  { split; [reflexivity|]. eexists. split; reflexivity. }
  unfold Base.catch.
  rewrite KnowledgeSearchProps.SearchKnowledgeEntries_is_textSearch.
  pose proof (SearchProps.textSearch_result env q
                (KnowledgeRoutes.searchLimit limitParam) w) as Hres.
  rewrite KnowledgeSearchProps.textSearch_spec in Hres |- *.
  destruct (Base.db_fault env Base.SiteKnowledgeTextFind) as [e|].
  { split; [reflexivity|]. eexists. split; reflexivity. }
  split; [reflexivity|]. eexists. split; [reflexivity|].
  eexists. split; [reflexivity|].
  destruct (Hres _ eq_refl) as (_ & Hsorted & Hall).
  split; [apply OrderProps.sql_limit_length; lia|].
  split; [exact Hsorted|].
  apply Forall_forall. intros e He. rewrite Forall_forall in Hall.
  destruct (Hall e He) as (H1 & H2 & _). split; assumption.
Qed.

(** X16.  The route that reads one entry answers 400 when the
    identifier does not parse, and 404 for every failure of the read,
    an entry that is missing and a failing query alike; both leave the
    database as it was.  A 200 answer carries a stored row with the
    requested identifier, as it was before this read; of the columns of
    an entry the read changes at most the view count. *)
Theorem X16_get_route_reports_failure_as_not_found
    (uuid_Parse : GoStr.gostring -> option Base.uuid)
    (fault : KnowledgeReads.ReadFaults) (idStr : GoStr.gostring)
    (d : Base.DB) :
  let out := KnowledgeRoutes.getKnowledgeEntry uuid_Parse fault idStr d in
  Forall2 KnowledgeReads.sameButViews (Base.entries d)
          (Base.entries (snd out))
  /\ match uuid_Parse idStr with
     | None =>
         fst out = {| KnowledgeRoutes.Status := 400;
                      KnowledgeRoutes.Json :=
                        KnowledgeRoutes.ErrorBody
                          "Invalid knowledge entry ID" |}
         /\ snd out = d
     | Some id =>
         match fault KnowledgeReads.SiteEntryFind,
               find (fun e => N.eqb (Base.ke_ID e) id) (Base.entries d) with
         | None, Some e =>
             fst out = {| KnowledgeRoutes.Status := 200;
                          KnowledgeRoutes.Json :=
                            KnowledgeRoutes.EntryBody e |}
             /\ In e (Base.entries d) /\ Base.ke_ID e = id
         | _, _ =>
             fst out = {| KnowledgeRoutes.Status := 404;
                          KnowledgeRoutes.Json :=
                            KnowledgeRoutes.ErrorBody
                              "Knowledge entry not found" |}
             /\ snd out = d
         end
     end.
Proof.
  cbv zeta.
  assert (Hsame : Forall2 KnowledgeReads.sameButViews (Base.entries d)
                          (Base.entries d)).
  { induction (Base.entries d) as [|e l IH]; constructor; [|exact IH].
    apply KnowledgeReadsProps.sameButViews_refl. }
  unfold KnowledgeRoutes.getKnowledgeEntry.
  destruct (uuid_Parse idStr) as [id|]; [|split; [exact Hsame|split; reflexivity]].
  unfold KnowledgeReads.GetKnowledgeEntryByID.
  destruct (fault KnowledgeReads.SiteEntryFind) as [err|];
    [split; [exact Hsame|split; reflexivity]|].
  destruct (find _ (Base.entries d)) as [e|] eqn:Efind;
    [|split; [exact Hsame|split; reflexivity]].
  destruct (KnowledgeReadsProps.find_id_In id _ e Efind) as [Hin Hid].
  cbn [fst snd]. split.
  - destruct (KnowledgeReadsProps.incrementViewCount_rows fault
                (Base.ke_ID e) d) as (Hrows & _).
    clear - Hrows. induction Hrows as [|a b l l' Hab _ IH]; constructor.
    + exact (proj1 Hab).
    + exact IH.
  - split; [reflexivity|]. split; assumption.
Qed.

(** X17.  When the statements of a delete work, the delete route
    answers 204 for every identifier that parses, also for one that has
    no entry, and a second delete of the same identifier answers 204
    again and leaves the database as the first one left it.  After it
    no entry and no embedding row carries the identifier; the other
    rows stay, and a delete of an identifier that no row carries
    changes no table.  No request is sent to the vector index. *)
Theorem X17_delete_route_is_idempotent
    (uuid_Parse : GoStr.gostring -> option Base.uuid) (env : Base.Env)
    (s : KnowledgeService.t) (idStr : GoStr.gostring) (id : Base.uuid)
    (w : Base.World) :
  KnowledgeRoutes.deleteWorks env ->
  uuid_Parse idStr = Some id ->
  let first := KnowledgeRoutes.deleteKnowledgeEntry uuid_Parse env s idStr w in
  let second :=
    KnowledgeRoutes.deleteKnowledgeEntry uuid_Parse env s idStr (snd first) in
  fst first = {| KnowledgeRoutes.Status := 204;
                 KnowledgeRoutes.Json := KnowledgeRoutes.NoBody |}
  /\ fst second = fst first
  /\ Base.db (snd second) = Base.db (snd first)
  /\ Base.entries (Base.db (snd first))
     = filter (fun e => negb (N.eqb (Base.ke_ID e) id))
              (Base.entries (Base.db w))
  /\ Base.embeddings (Base.db (snd first))
     = filter (fun v => negb (N.eqb (Base.ve_KnowledgeEntryID v) id))
              (Base.embeddings (Base.db w))
  /\ (KnowledgeService.has_entry id (Base.entries (Base.db w)) = false ->
      KnowledgeService.embeddingsOf id (Base.db w) = [] ->
      Base.db (snd first) = Base.db w)
  /\ Base.calls (snd second) = Base.calls w.
Proof.
  intros Hworks Hparse. cbv zeta.
  unfold KnowledgeRoutes.deleteKnowledgeEntry. rewrite Hparse.
  rewrite (RouteProps.DeleteKnowledgeEntry_works env s id w Hworks).
  cbn [fst snd].
  rewrite (RouteProps.DeleteKnowledgeEntry_works env s id _ Hworks).
  cbn [fst snd Base.db Base.calls Base.entries Base.embeddings
       Base.sessions Base.messages].
  split; [reflexivity|]. split; [reflexivity|].
  split; [rewrite !RouteProps.filter_filter_same; reflexivity|].
  split; [reflexivity|]. split; [reflexivity|].
  split; [|reflexivity].
  intros Hno Hrows. destruct (Base.db w) as [ss ms es vs] eqn:Edb.
  cbn [Base.sessions Base.messages Base.entries Base.embeddings] in *.
  f_equal.
  - apply (proj2 (RouteProps.filter_nothing_iff
                    (fun e => N.eqb (Base.ke_ID e) id) es)).
    unfold KnowledgeService.has_entry in Hno.
    destruct (filter _ es) as [|x l] eqn:Ef; [reflexivity|].
    assert (Hx : In x (filter (fun e => N.eqb (Base.ke_ID e) id) es))
      by (rewrite Ef; left; reflexivity).
    apply filter_In in Hx. destruct Hx as [Hin Hid].
    assert (Hex : existsb (fun e => N.eqb (Base.ke_ID e) id) es = true)
      by (apply existsb_exists; exists x; split; assumption).
    rewrite Hex in Hno. discriminate.
  - apply (proj2 (RouteProps.filter_nothing_iff
                    (fun v => N.eqb (Base.ve_KnowledgeEntryID v) id) vs)).
    exact Hrows.
Qed.

Lemma X17_witness :
  let first :=
    KnowledgeRoutes.deleteKnowledgeEntry RouteScenario.parseSeven
      Scenario.env_ok Scenario.knowledge
      (GoStr.lit "00000000-0000-0000-0000-000000000007")
      Scenario.publishedWorld in
  fst first = {| KnowledgeRoutes.Status := 204;
                 KnowledgeRoutes.Json := KnowledgeRoutes.NoBody |}
  /\ Base.db (snd first) = Base.db Scenario.publishedWorld.
Proof.
  assert (Hw : KnowledgeRoutes.deleteWorks Scenario.env_ok)
    by (repeat split; reflexivity).
  destruct (X17_delete_route_is_idempotent RouteScenario.parseSeven
              Scenario.env_ok Scenario.knowledge
              (GoStr.lit "00000000-0000-0000-0000-000000000007") 7%N
              Scenario.publishedWorld Hw eq_refl)
    as (H1 & _ & _ & _ & _ & H6 & _).
  split; [exact H1|]. apply H6; reflexivity.
Defined.

(** ** Trimming, splitting and cutting *)

Module TextProps.
Import GoStr Strings ChunkerProps.
Local Open Scope list_scope.

Lemma dropSpace_head (s : gostring) :
  match dropSpace s with
  | [] => True
  | r :: _ => IsSpace r = false
  end.
Proof.
  induction s as [|r s IH]; simpl; [exact I|].
  destruct (IsSpace r) eqn:E; [exact IH|exact E].
Qed.

(** No white space at either end. *)
Lemma trimmed_iff (s : gostring) :
  trimmed s = true
  <-> (forall r t, s = r :: t -> IsSpace r = false)
      /\ (forall t x, s = t ++ [x] -> IsSpace x = false).
Proof.
  destruct s as [|r0 s0].
  - split; [|reflexivity]. intros _. split.
    + intros r t H. discriminate.
    + intros t x H. destruct t; discriminate.
  - unfold trimmed. rewrite andb_true_iff, !negb_true_iff. split.
    + intros [H1 H2]. split.
      * intros r t H. inversion H; subst. exact H1.
      * intros t x H. rewrite H, last_last in H2. exact H2.
    + intros [H1 H2]. split; [apply (H1 r0 s0); reflexivity|].
      destruct (exists_last (l := r0 :: s0)) as (t & x & E);
        [discriminate|].
      rewrite E, last_last. apply (H2 t x). exact E.
Qed.

Lemma TrimSpace_trimmed (s : gostring) : trimmed s = true -> TrimSpace s = s.
Proof.
  intros H. apply trimmed_iff in H. destruct H as [H1 H2].
  destruct s as [|r0 s0]; [reflexivity|].
  unfold TrimSpace.
  assert (E1 : dropSpace (r0 :: s0) = r0 :: s0).
  { simpl. rewrite (H1 r0 s0 eq_refl). reflexivity. }
  rewrite E1.
  destruct (exists_last (l := r0 :: s0)) as (t & x & E); [discriminate|].
  rewrite E, rev_app_distr. simpl. rewrite (H2 t x E).
  change (x :: rev t) with (rev [x] ++ rev t).
  rewrite <- rev_app_distr, rev_involutive. reflexivity.
Qed.

Lemma trimmed_TrimSpace (s : gostring) : trimmed (TrimSpace s) = true.
Proof.
  apply trimmed_iff. unfold TrimSpace. split.
  - intros r t H.
    destruct (dropSpace_split (rev (dropSpace s))) as (p & Hp & _).
    pose proof (dropSpace_head s) as Hd.
    assert (E : dropSpace s = rev (dropSpace (rev (dropSpace s))) ++ rev p).
    { rewrite <- rev_app_distr, <- Hp, rev_involutive. reflexivity. }
    rewrite H in E. rewrite E in Hd. exact Hd.
  - intros t x H.
    pose proof (dropSpace_head (rev (dropSpace s))) as Hd.
    apply (f_equal (@rev rune)) in H.
    rewrite rev_involutive, rev_app_distr in H. simpl in H.
    rewrite H in Hd. exact Hd.
Qed.

Lemma trimmed_of_fix (s : gostring) : TrimSpace s = s -> trimmed s = true.
Proof. intros H. rewrite <- H. apply trimmed_TrimSpace. Qed.

Lemma trimmed_app (a m b : gostring) :
  trimmed a = true -> trimmed b = true -> a <> [] -> b <> [] ->
  trimmed (a ++ m ++ b) = true.
Proof.
  intros Ha Hb Hane Hbne.
  apply trimmed_iff in Ha. apply trimmed_iff in Hb. apply trimmed_iff.
  destruct Ha as [Ha1 _]. destruct Hb as [_ Hb2]. split.
  - intros r t H. destruct a as [|r0 a0]; [contradiction|].
    inversion H; subst. apply (Ha1 r a0). reflexivity.
  - intros t x H.
    destruct (exists_last Hbne) as (b' & x0 & E). subst b.
    rewrite !app_assoc in H. apply app_inj_tail in H. destruct H as [_ ->].
    apply (Hb2 b' x). reflexivity.
Qed.

Lemma In_dropSpace r (s : gostring) : In r (dropSpace s) -> In r s.
Proof.
  destruct (dropSpace_split s) as (p & Hp & _). intros H.
  rewrite Hp. apply in_or_app. right. exact H.
Qed.

Lemma In_TrimSpace r (s : gostring) : In r (TrimSpace s) -> In r s.
Proof.
  unfold TrimSpace. intros H. apply In_dropSpace.
  apply in_rev in H. apply In_dropSpace in H. apply in_rev in H. exact H.
Qed.

Lemma Len_rev (s : gostring) : Len (rev s) = Len s.
Proof.
  induction s as [|r s IH]; simpl; [reflexivity|].
  rewrite ChunkShapeProps.Len_app, IH. simpl. lia.
Qed.

Lemma Len_dropSpace (s : gostring) : (Len (dropSpace s) <= Len s)%Z.
Proof.
  induction s as [|r s IH]; simpl; [lia|].
  pose proof (RuneLen_pos r). destruct (IsSpace r); simpl; lia.
Qed.

Lemma Len_TrimSpace (s : gostring) : (Len (TrimSpace s) <= Len s)%Z.
Proof.
  unfold TrimSpace. rewrite Len_rev.
  pose proof (Len_dropSpace (rev (dropSpace s))) as H1.
  rewrite Len_rev in H1. pose proof (Len_dropSpace s). lia.
Qed.

Lemma length_le_Len (s : gostring) : (Z.of_nat (List.length s) <= Len s)%Z.
Proof.
  induction s as [|r s IH]; simpl List.length; simpl Len; [lia|].
  pose proof (RuneLen_pos r). lia.
Qed.

(** *** Bytes *)

Lemma length_encodeRune (r : rune) :
  Z.of_nat (List.length (Utf8.encodeRune r)) = RuneLen r.
Proof.
  unfold Utf8.encodeRune, RuneLen.
  destruct (r <? 128)%N; [reflexivity|].
  destruct (r <? 2048)%N; [reflexivity|].
  destruct (r <? 65536)%N; reflexivity.
Qed.

Lemma length_encode (s : gostring) :
  Z.of_nat (List.length (Utf8.encode s)) = Len s.
Proof.
  induction s as [|r s IH]; [reflexivity|].
  unfold Utf8.encode in *. cbn [flat_map Len].
  rewrite length_app, Nat2Z.inj_add, length_encodeRune, IH. reflexivity.
Qed.

(** The cut is the prefix of the bytes. *)
Lemma cut_firstn (s : gostring) :
  forall n, (0 <= n)%Z ->
  Utf8.bytesOf (Utf8.cut n s) = firstn (Z.to_nat n) (Utf8.encode s).
Proof.
  unfold Utf8.bytesOf.
  induction s as [|r s IH]; intros n Hn; simpl.
  - rewrite firstn_nil. reflexivity.
  - pose proof (length_encodeRune r) as Hr. pose proof (RuneLen_pos r).
    destruct (Z.leb_spec (RuneLen r) n).
    + specialize (IH (n - RuneLen r)%Z ltac:(lia)).
      destruct (Utf8.cut (n - RuneLen r) s) as [whole broken].
      simpl in IH |- *. rewrite <- app_assoc, IH.
      replace (Z.to_nat n)
        with (List.length (Utf8.encodeRune r) + Z.to_nat (n - RuneLen r))%nat
        by lia.
      rewrite firstn_app_2. reflexivity.
    + simpl. rewrite firstn_app.
      replace (Z.to_nat n - List.length (Utf8.encodeRune r))%nat with 0%nat
        by lia.
      rewrite firstn_O, app_nil_r. reflexivity.
Qed.

Lemma length_cut (s : gostring) (n : Z) :
  (0 <= n)%Z ->
  (Z.of_nat (List.length (Utf8.bytesOf (Utf8.cut n s))) <= n)%Z.
Proof.
  intros Hn. rewrite (cut_firstn s n Hn).
  pose proof (firstn_le_length (Z.to_nat n) (Utf8.encode s)).
  rewrite length_firstn. lia.
Qed.

Lemma length_trimCut (c : gostring * Utf8.bytes) :
  (List.length (Utf8.bytesOf (Utf8.trimCut c))
   <= List.length (Utf8.bytesOf c))%nat.
Proof.
  destruct c as [whole broken]. unfold Utf8.trimCut, Utf8.bytesOf.
  cbn [fst snd].
  pose proof (length_encode whole) as H0.
  destruct broken as [|b broken]; cbn [fst snd]; rewrite !length_app.
  - pose proof (length_encode (TrimSpace whole)).
    pose proof (Len_TrimSpace whole). simpl. lia.
  - pose proof (length_encode (dropSpace whole)).
    pose proof (Len_dropSpace whole). lia.
Qed.

(** *** Split and Join *)

Lemma splitRune_nonnil sep (s : gostring) : splitRune sep s <> [].
Proof.
  destruct s as [|r s]; simpl; [discriminate|].
  destruct (N.eqb r sep); [discriminate|].
  destruct (splitRune sep s); discriminate.
Qed.

Lemma splitBlank_nonnil (s : gostring) : splitBlank s <> [].
Proof.
  destruct s as [|r s]; simpl; [discriminate|].
  destruct s as [|r' s]; [discriminate|].
  destruct (N.eqb r newline && N.eqb r' newline); [discriminate|].
  destruct (splitBlank (r' :: s)); discriminate.
Qed.

Lemma Join_cons_head r (w : gostring) ws sep :
  Join ((r :: w) :: ws) sep = r :: Join (w :: ws) sep.
Proof. destruct ws; reflexivity. Qed.

Lemma splitBlank_eq r r' (s : gostring) :
  splitBlank (r :: r' :: s)
  = if N.eqb r newline && N.eqb r' newline then [] :: splitBlank s
    else match splitBlank (r' :: s) with
         | w :: ws => (r :: w) :: ws
         | [] => [[r]]
         end.
Proof. reflexivity. Qed.

(** Joining the paragraphs gives the text back. *)
Lemma Join_splitBlank (s : gostring) :
  Join (splitBlank s) [newline; newline] = s.
Proof.
  assert (H : forall n (s : gostring), (List.length s <= n)%nat ->
                Join (splitBlank s) [newline; newline] = s).
  { clear s. induction n as [|n IH]; intros s Hlen.
    - destruct s; [reflexivity|simpl in Hlen; lia].
    - destruct s as [|r [|r' s]]; [reflexivity|reflexivity|].
      rewrite splitBlank_eq.
      destruct (N.eqb_spec r newline) as [Er|Er];
        destruct (N.eqb_spec r' newline) as [Er'|Er']; cbn [andb].
      + subst. pose proof (IH s ltac:(simpl in Hlen; lia)) as Hs.
        destruct (splitBlank s) as [|w ws] eqn:E;
          [exfalso; exact (splitBlank_nonnil s E)|].
        change (Join ([] :: w :: ws) [newline; newline])
          with (newline :: newline :: Join (w :: ws) [newline; newline]).
        rewrite Hs. reflexivity.
      + pose proof (IH (r' :: s) ltac:(simpl in Hlen |- *; lia)) as Hs.
        destruct (splitBlank (r' :: s)) as [|w ws] eqn:E;
          [exfalso; exact (splitBlank_nonnil _ E)|].
        rewrite Join_cons_head, Hs. reflexivity.
      + pose proof (IH (r' :: s) ltac:(simpl in Hlen |- *; lia)) as Hs.
        destruct (splitBlank (r' :: s)) as [|w ws] eqn:E;
          [exfalso; exact (splitBlank_nonnil _ E)|].
        rewrite Join_cons_head, Hs. reflexivity.
      + pose proof (IH (r' :: s) ltac:(simpl in Hlen |- *; lia)) as Hs.
        destruct (splitBlank (r' :: s)) as [|w ws] eqn:E;
          [exfalso; exact (splitBlank_nonnil _ E)|].
        rewrite Join_cons_head, Hs. reflexivity. }
  apply (H (List.length s)). apply Nat.le_refl.
Qed.

Lemma Fields_Join_blank (l : list gostring) :
  Fields (Join l [newline; newline]) = List.concat (map Fields l).
Proof.
  induction l as [|a [|b rest] IH]; [reflexivity| |].
  - simpl. rewrite app_nil_r. reflexivity.
  - change (Join (a :: b :: rest) [newline; newline])
      with (a ++ newline :: newline :: Join (b :: rest) [newline; newline]).
    rewrite (Fields_app a _ newline eq_refl).
    rewrite (Fields_space_cons newline _ eq_refl), IH. reflexivity.
Qed.

(** The words of the paragraphs are the words of the text. *)
Lemma Fields_splitBlank (s : gostring) :
  List.concat (map Fields (splitBlank s)) = Fields s.
Proof. rewrite <- Fields_Join_blank, Join_splitBlank. reflexivity. Qed.

(** A paragraph in front of a blank line is the first piece. *)
Lemma splitBlank_app (a b : gostring) :
  a <> [] -> splitBlank a = [a] -> trimmed a = true ->
  splitBlank (a ++ newline :: newline :: b) = a :: splitBlank b.
Proof.
  intros Hne Hsplit Htrim. apply trimmed_iff in Htrim.
  destruct Htrim as [_ Hlast].
  induction a as [|r a IH]; [contradiction|].
  destruct a as [|r' a].
  - assert (Hr : IsSpace r = false) by (apply (Hlast [] r); reflexivity).
    change (([r] ++ newline :: newline :: b))
      with (r :: newline :: newline :: b).
    rewrite splitBlank_eq.
    destruct (N.eqb_spec r newline) as [E|E]; [subst; discriminate Hr|].
    cbn [andb]. rewrite splitBlank_eq. rewrite N.eqb_refl. reflexivity.
  - rewrite splitBlank_eq in Hsplit.
    change ((r :: r' :: a) ++ newline :: newline :: b)
      with (r :: r' :: (a ++ newline :: newline :: b)).
    rewrite splitBlank_eq.
    destruct (N.eqb r newline && N.eqb r' newline); [discriminate|].
    destruct (splitBlank (r' :: a)) as [|w ws] eqn:E;
      [exfalso; exact (splitBlank_nonnil _ E)|].
    inversion Hsplit; subst.
    change (r' :: a ++ newline :: newline :: b)
      with ((r' :: a) ++ newline :: newline :: b).
    rewrite IH; [reflexivity|discriminate|reflexivity|].
    intros t x Ht. apply (Hlast (r :: t) x). rewrite Ht. reflexivity.
Qed.

End TextProps.

(** ** Keywords, titles and summaries *)

Module KeywordProps.
Import GoStr Base Strings GeminiText ChunkerProps TextProps.
Local Open Scope list_scope.

Lemma splitRune_eq sep r (s : gostring) :
  splitRune sep (r :: s)
  = if N.eqb r sep then [] :: splitRune sep s
    else match splitRune sep s with
         | w :: ws => (r :: w) :: ws
         | [] => [[r]]
         end.
Proof. reflexivity. Qed.

(** No piece holds the separator. *)
Lemma splitRune_pieces sep (s : gostring) :
  Forall (fun w => ~ In sep w) (splitRune sep s).
Proof.
  induction s as [|r s IH]; [constructor; [intros []|constructor]|].
  rewrite splitRune_eq. destruct (N.eqb_spec r sep) as [E|E].
  - constructor; [intros []|exact IH].
  - destruct (splitRune sep s) as [|w ws].
    + constructor; [|constructor]. intros [H|[]]. congruence.
    + inversion IH; subst. constructor; [|assumption].
      intros [H|H]; [congruence|contradiction].
Qed.

Lemma splitRune_plain sep (s : gostring) :
  ~ In sep s -> splitRune sep s = [s].
Proof.
  induction s as [|r s IH]; intros H; [reflexivity|].
  rewrite splitRune_eq. destruct (N.eqb_spec r sep) as [E|E].
  - exfalso. apply H. left. exact E.
  - rewrite IH; [reflexivity|]. intros Hin. apply H. right. exact Hin.
Qed.

Lemma splitRune_app sep (a b : gostring) :
  ~ In sep a -> splitRune sep (a ++ sep :: b) = a :: splitRune sep b.
Proof.
  induction a as [|r a IH]; intros H.
  - simpl. rewrite N.eqb_refl. reflexivity.
  - change ((r :: a) ++ sep :: b) with (r :: (a ++ sep :: b)).
    rewrite splitRune_eq. destruct (N.eqb_spec r sep) as [E|E].
    + exfalso. apply H. left. exact E.
    + rewrite IH; [reflexivity|]. intros Hin. apply H. right. exact Hin.
Qed.

Lemma TrimSpace_space_cons sp (s : gostring) :
  IsSpace sp = true -> TrimSpace (sp :: s) = TrimSpace s.
Proof. intros H. unfold TrimSpace. simpl. rewrite H. reflexivity. Qed.

(** White space in front of the text is dropped with the first item. *)
Lemma cleanKeywords_space sp (s : gostring) :
  IsSpace sp = true -> sp <> comma ->
  cleanKeywords (sp :: s) = cleanKeywords s.
Proof.
  intros Hsp Hc. unfold cleanKeywords. rewrite splitRune_eq.
  destruct (N.eqb_spec sp comma) as [E|_]; [contradiction|].
  destruct (splitRune comma s) as [|w ws] eqn:E;
    [exfalso; exact (splitRune_nonnil _ _ E)|].
  cbn [map]. rewrite (TrimSpace_space_cons sp w Hsp). reflexivity.
Qed.

Lemma cleanKeywords_keywords (text : gostring) :
  Forall isKeyword (cleanKeywords text).
Proof.
  unfold cleanKeywords. apply Forall_forall. intros k Hk.
  apply filter_In in Hk. destruct Hk as [Hin Hne].
  apply in_map_iff in Hin. destruct Hin as (piece & <- & Hpiece).
  split; [destruct (TrimSpace piece); [discriminate|discriminate]|].
  split; [apply TrimSpace_trimmed, trimmed_TrimSpace|].
  intros Hc. apply In_TrimSpace in Hc.
  pose proof (splitRune_pieces comma text) as Hall.
  rewrite Forall_forall in Hall. exact (Hall piece Hpiece Hc).
Qed.

Lemma cleanKeywords_one (k : gostring) :
  isKeyword k -> cleanKeywords k = [k].
Proof.
  intros (Hne & Htrim & Hc). unfold cleanKeywords.
  rewrite (splitRune_plain comma k Hc). cbn [map]. rewrite Htrim.
  destruct k; [contradiction|reflexivity].
Qed.

(** The items of a comma-separated list are read back. *)
Lemma cleanKeywords_Join (ks : list gostring) :
  Forall isKeyword ks -> cleanKeywords (Join ks (lit ", ")) = ks.
Proof.
  induction ks as [|a [|b rest] IH]; intros Hall; [reflexivity| |].
  - inversion Hall; subst. apply cleanKeywords_one. assumption.
  - inversion Hall as [|? ? Ha Hrest]; subst.
    change (Join (a :: b :: rest) (lit ", "))
      with (a ++ comma :: space :: Join (b :: rest) (lit ", ")).
    pose proof Ha as (Hne & Htrim & Hc).
    assert (E : cleanKeywords (a ++ comma :: space
                                 :: Join (b :: rest) (lit ", "))
                = a :: cleanKeywords (space :: Join (b :: rest) (lit ", "))).
    { unfold cleanKeywords. rewrite (splitRune_app comma a _ Hc).
      cbn [map]. rewrite Htrim. destruct a; [contradiction|reflexivity]. }
    rewrite E, cleanKeywords_space, (IH Hrest);
      [reflexivity|reflexivity|discriminate].
Qed.

Lemma trimmed_Join (ks : list gostring) (sep : gostring) :
  Forall isKeyword ks -> trimmed (Join ks sep) = true.
Proof.
  induction ks as [|a [|b rest] IH]; intros Hall; [reflexivity| |].
  - inversion Hall as [|? ? (_ & Htrim & _) _]; subst.
    apply trimmed_of_fix. exact Htrim.
  - inversion Hall as [|? ? (Hne & Htrim & _) Hrest]; subst.
    change (Join (a :: b :: rest) sep) with (a ++ sep ++ Join (b :: rest) sep).
    apply trimmed_app.
    + apply trimmed_of_fix. exact Htrim.
    + apply IH. exact Hrest.
    + exact Hne.
    + inversion Hrest as [|? ? (Hb & _) _]; subst.
      destruct rest; [exact Hb|]. destruct b; [contradiction|discriminate].
Qed.

End KeywordProps.

(** X18.  The keywords that [GeminiService.ExtractKeywords] returns are
    the items of the answer between its commas, trimmed, the empty ones
    left out: no keyword is empty, starts or ends with white space or
    holds a comma.  When the model answers with a list of such items
    separated by a comma and a space, exactly these items come back, in
    the order of the answer and with their repetitions. *)
Theorem X18_keywords_are_the_items_between_commas
    (GenerateContent : Utf8.bytes -> Base.Result (list GeminiText.Candidate))
    (content : GoStr.gostring) :
  match GeminiText.ExtractKeywords GenerateContent content with
  | Base.Ok keywords => Forall GeminiText.isKeyword keywords
  | _ => True
  end
  /\ forall (items : list GoStr.gostring) (parts : list GoStr.gostring)
            (candidates : list GeminiText.Candidate),
       Forall GeminiText.isKeyword items ->
       GenerateContent (GeminiText.keywordsPrompt content)
       = Base.Ok (Some (Strings.Join items (GoStr.lit ", ") :: parts)
                  :: candidates) ->
       GeminiText.ExtractKeywords GenerateContent content = Base.Ok items.
Proof.
  split.
  - unfold GeminiText.ExtractKeywords.
    destruct (GeminiText.firstPart _ _ _ _) as [text|e|e];
      [apply KeywordProps.cleanKeywords_keywords|exact I|exact I].
  - intros items parts candidates Hitems Hanswer.
    unfold GeminiText.ExtractKeywords, GeminiText.firstPart.
    rewrite Hanswer.
    rewrite (TextProps.TrimSpace_trimmed _
               (KeywordProps.trimmed_Join items _ Hitems)).
    rewrite (KeywordProps.cleanKeywords_Join items Hitems). reflexivity.
Qed.

(** X19.  Without a Gemini service the title of a text is made of its
    first 50 runes, while the three dots are added by the length in
    bytes: a text of more than 50 runes gives its first 50 runes and the
    dots, a text of at most 50 bytes gives itself, and a text of at most
    50 runes that takes more than 50 bytes gives the whole text followed
    by the dots.  The summary is made the same way with 200, and the
    keywords are the same two words for every text.  None of the three
    fails. *)
Theorem X19_titles_without_gemini
    (GenerateContent : Utf8.bytes -> Base.Result (list GeminiText.Candidate))
    (s : UnifiedAIService.t) (content : GoStr.gostring) :
  UnifiedAIService.geminiService s = None ->
  exists title summary,
    UnifiedText.GenerateTitle GenerateContent s content = Base.Ok title
    /\ UnifiedText.SummarizeContent GenerateContent s content
       = Base.Ok summary
    /\ UnifiedText.ExtractKeywords GenerateContent s content
       = Base.Ok [GoStr.lit "content"; GoStr.lit "document"]
    /\ ((50 < List.length content)%nat ->
        title = firstn 50 content ++ GoStr.lit "...")
    /\ ((GoStr.Len content <= 50)%Z -> title = content)
    /\ ((List.length content <= 50)%nat -> (50 < GoStr.Len content)%Z ->
        title = content ++ GoStr.lit "...")
    /\ ((200 < List.length content)%nat ->
        summary = firstn 200 content ++ GoStr.lit "...")
    /\ ((GoStr.Len content <= 200)%Z -> summary = content)
    /\ ((List.length content <= 200)%nat -> (200 < GoStr.Len content)%Z ->
        summary = content ++ GoStr.lit "...").
Proof.
  intros Hnone.
  unfold UnifiedText.GenerateTitle, UnifiedText.SummarizeContent,
    UnifiedText.ExtractKeywords.
  rewrite Hnone. cbv zeta.
  pose proof (TextProps.length_le_Len content) as Hlen.
  eexists. eexists. split; [reflexivity|]. split; [reflexivity|].
  split; [reflexivity|].
  split; [|split; [|split; [|split; [|split]]]].
  - intros H. destruct (Z.ltb_spec 50 (GoStr.Len content)); [reflexivity|lia].
  - intros H. destruct (Z.ltb_spec 50 (GoStr.Len content)); [lia|].
    apply firstn_all2. lia.
  - intros H1 H2. destruct (Z.ltb_spec 50 (GoStr.Len content)); [|lia].
    rewrite firstn_all2 by exact H1. reflexivity.
  - intros H. destruct (Z.ltb_spec 200 (GoStr.Len content)); [reflexivity|lia].
  - intros H. destruct (Z.ltb_spec 200 (GoStr.Len content)); [lia|].
    apply firstn_all2. lia.
  - intros H1 H2. destruct (Z.ltb_spec 200 (GoStr.Len content)); [|lia].
    rewrite firstn_all2 by exact H1. reflexivity.
Qed.

Lemma X19_witness :
  exists title summary,
    UnifiedText.GenerateTitle (fun _ => Base.Ok [])
      (UnifiedAIService.NewUnifiedAIService None None
         Base.OpenAIProvider)
      (repeat 233%N 30)
    = Base.Ok title
    /\ UnifiedText.SummarizeContent (fun _ => Base.Ok [])
         (UnifiedAIService.NewUnifiedAIService None None
            Base.OpenAIProvider)
         (repeat 233%N 30)
       = Base.Ok summary
    /\ title = repeat 233%N 30 ++ GoStr.lit "..."
    /\ summary = repeat 233%N 30.
Proof.
  destruct (X19_titles_without_gemini (fun _ => Base.Ok [])
              (UnifiedAIService.NewUnifiedAIService None None
                 Base.OpenAIProvider)
              (repeat 233%N 30) eq_refl)
    as (title & summary & Ht & Hs & _ & _ & _ & H3 & _ & H5 & _).
  exists title, summary. split; [exact Ht|]. split; [exact Hs|].
  split; [apply H3; [rewrite repeat_length; lia|reflexivity]|].
  apply H5. vm_compute. intros H; discriminate H.
Defined.

(** ** The sections of a document *)

Module SectionProps.
Import GoStr Base Strings DocumentService ChunkerProps TextProps.
Local Open Scope list_scope.
Local Open Scope Z_scope.

Lemma firstTitleLine_bounds (lines : list gostring) (line : gostring) :
  firstTitleLine lines = Some line -> 10 < Len line < 100.
Proof.
  induction lines as [|l lines IH]; simpl; [discriminate|].
  destruct (Z.ltb_spec 10 (Len (TrimSpace l)));
    destruct (Z.ltb_spec (Len (TrimSpace l)) 100); simpl; try exact IH.
  intros Hsome. inversion Hsome; subst. lia.
Qed.

(** The title of a section of more than 50 bytes. *)
Lemma title_bounds (content : gostring) (order : Z) :
  50 < Len content ->
  (0 < List.length (generateSectionTitle content order) <= 99)%nat.
Proof.
  intros Hlen. unfold generateSectionTitle.
  destruct (firstTitleLine _) as [line|] eqn:E.
  - apply firstTitleLine_bounds in E.
    pose proof (length_encode line). lia.
  - destruct (Z.ltb_spec 50 (Len content)); [|lia].
    rewrite length_app.
    pose proof (length_trimCut (Utf8.cut 50 content)).
    pose proof (length_cut content 50 ltac:(lia)).
    change (List.length (Utf8.encode (lit "..."))) with 3%nat. lia.
Qed.

(** A section made of a trimmed text of more than 100 bytes. *)
Lemma newSection_ok (cur : gostring) (ord : Z) :
  trimmed cur = true -> minSectionLength < Len cur ->
  regular (newSection cur ord).
Proof.
  intros Htrim Hlen. unfold regular, newSection. cbn [WordCount Content Title].
  rewrite Fields_TrimSpace, (TrimSpace_trimmed cur Htrim).
  split; [reflexivity|]. split; [exact Hlen|]. split; [exact Htrim|].
  apply title_bounds. unfold minSectionLength in Hlen. lia.
Qed.

Lemma sectionWords_snoc (l : list DocumentSection) (s : DocumentSection) :
  sectionWords (l ++ [s]) = sectionWords l ++ Fields (Content s).
Proof.
  unfold sectionWords.
  apply (concat_map_snoc (fun x => Fields (Content x))).
Qed.

Lemma orders_snoc (l : list DocumentSection) (s : DocumentSection) :
  map Order l = map Z.of_nat (seq 0 (List.length l)) ->
  Order s = Z.of_nat (List.length l) ->
  map Order (l ++ [s]) = map Z.of_nat (seq 0 (List.length (l ++ [s]))).
Proof.
  intros Hl Hs. rewrite length_app, seq_app, !map_app, Hl. simpl.
  rewrite Hs. reflexivity.
Qed.

Lemma splitting_start :
  splitting [] {| sections := []; currentSection := []; sectionOrder := 0 |}.
Proof.
  unfold splitting. simpl. repeat split; try reflexivity. constructor.
Qed.

(** One round of the loop keeps the invariant. *)
Lemma split_step_keeps (seen : list gostring) (st : split_state)
    (p : gostring) :
  splitting seen st -> splitting (seen ++ [p]) (split_step st p).
Proof.
  destruct st as [secs cur ord]. unfold splitting, split_step.
  cbn [sections currentSection sectionOrder].
  intros (Hord & Hnext & Hall & Htrim & Hwords).
  rewrite concat_map_snoc, <- Hwords, <- (Fields_TrimSpace p).
  pose proof (trimmed_TrimSpace p) as Hq.
  destruct (TrimSpace p) as [|r q'] eqn:Eq.
  - cbn [isEmpty sections currentSection sectionOrder].
    rewrite Fields_nil, app_nil_r. repeat split; assumption.
  - cbn [isEmpty].
    destruct ((maxSectionLength <? Len cur + Len (r :: q'))
              && (minSectionLength <? Len cur)) eqn:Ec.
    + apply andb_true_iff in Ec. destruct Ec as [_ Emin].
      apply Z.ltb_lt in Emin.
      destruct cur as [|c cur'];
        [simpl in Emin; unfold minSectionLength in Emin; lia|].
      cbn [isEmpty negb sections currentSection sectionOrder app].
      pose proof (newSection_ok (c :: cur') ord Htrim Emin) as Hnew.
      split; [apply orders_snoc; [exact Hord|exact Hnext]|].
      split; [rewrite length_app, Nat2Z.inj_add, Hnext; reflexivity|].
      split; [apply Forall_app; split; [exact Hall|];
              constructor; [exact Hnew|constructor]|].
      split; [exact Hq|].
      rewrite sectionWords_snoc. unfold newSection. cbn [Content].
      rewrite Fields_TrimSpace, <- app_assoc. reflexivity.
    + cbn [sections currentSection sectionOrder].
      split; [exact Hord|]. split; [exact Hnext|]. split; [exact Hall|].
      destruct cur as [|c cur'].
      * cbn [isEmpty negb app]. split; [exact Hq|].
        rewrite Fields_nil, app_nil_r. reflexivity.
      * cbn [isEmpty negb]. rewrite <- app_assoc. split.
        -- apply trimmed_app; [exact Htrim|exact Hq|discriminate|discriminate].
        -- change ([newline; newline] ++ r :: q')
             with (newline :: newline :: r :: q').
           rewrite (Fields_app (c :: cur') _ newline eq_refl).
           rewrite (Fields_space_cons newline _ eq_refl).
           rewrite app_assoc. reflexivity.
Qed.

Lemma split_loop (ps seen : list gostring) (st : split_state) :
  splitting seen st -> splitting (seen ++ ps) (fold_left split_step ps st).
Proof.
  revert seen st. induction ps as [|p ps IH]; intros seen st H.
  - rewrite app_nil_r. exact H.
  - simpl. replace (seen ++ p :: ps) with ((seen ++ [p]) ++ ps)
      by (rewrite <- app_assoc; reflexivity).
    apply IH. apply split_step_keeps. exact H.
Qed.

(** The first paragraph opens the current section. *)
Lemma split_step_start (p : gostring) :
  trimmed p = true -> p <> [] ->
  split_step {| sections := []; currentSection := []; sectionOrder := 0 |} p
  = {| sections := []; currentSection := p; sectionOrder := 0 |}.
Proof.
  intros Ht Hne. unfold split_step. rewrite (TrimSpace_trimmed p Ht).
  destruct p as [|r p']; [contradiction|].
  cbn [isEmpty sections currentSection sectionOrder].
  change (minSectionLength <? Len []) with false.
  rewrite andb_false_r. reflexivity.
Qed.

(** A paragraph that does not fit closes the current section. *)
Lemma split_step_flush (secs : list DocumentSection) (cur : gostring)
    (ord : Z) (p : gostring) :
  trimmed p = true -> p <> [] ->
  maxSectionLength < Len cur + Len p -> minSectionLength < Len cur ->
  split_step {| sections := secs; currentSection := cur;
                sectionOrder := ord |} p
  = {| sections := secs ++ [newSection cur ord]; currentSection := p;
       sectionOrder := ord + 1 |}.
Proof.
  intros Ht Hne Hmax Hmin. unfold split_step.
  rewrite (TrimSpace_trimmed p Ht).
  destruct p as [|r p']; [contradiction|].
  cbn [isEmpty sections currentSection sectionOrder].
  destruct (Z.ltb_spec maxSectionLength (Len cur + Len (r :: p'))); [|lia].
  destruct (Z.ltb_spec minSectionLength (Len cur)); [|lia].
  destruct cur as [|c cur'];
    [simpl in Hmin; unfold minSectionLength in Hmin; lia|].
  reflexivity.
Qed.

(** How [splitIntoSections] ends, [st] being the variables after the
    loop. *)
Lemma splitIntoSections_cases (content : gostring) :
  exists st,
    splitting (splitBlank content) st
    /\ ((content <> []
         /\ minSectionLength < Len (currentSection st)
         /\ splitIntoSections content
            = sections st
              ++ [newSection (currentSection st) (sectionOrder st)])
        \/ (content <> []
            /\ Len (currentSection st) <= minSectionLength
            /\ sections st <> []
            /\ splitIntoSections content = sections st)
        \/ (content <> []
            /\ Len (currentSection st) <= minSectionLength
            /\ sections st = []
            /\ splitIntoSections content = [wholeDocument content])
        \/ (content = [] /\ splitIntoSections content = [])).
Proof.
  destruct content as [|r0 content0].
  { exists {| sections := []; currentSection := []; sectionOrder := 0 |}.
    split; [apply (split_loop [[]] [] _ splitting_start)|].
    right. right. right. split; reflexivity. }
  assert (Hne : r0 :: content0 <> []) by discriminate.
  set (content := r0 :: content0) in *.
  unfold splitIntoSections.
  set (st := fold_left split_step (splitBlank content) _).
  exists st. split.
  { apply (split_loop (splitBlank content) [] _ splitting_start). }
  cbv zeta.
  assert (Hcur : isEmpty (currentSection st) = true ->
                 Len (currentSection st) <= minSectionLength).
  { destruct (currentSection st); [intros _; vm_compute; discriminate|].
    discriminate. }
  destruct (negb (isEmpty (currentSection st))
            && (minSectionLength <? Len (currentSection st))) eqn:E.
  - apply andb_true_iff in E. destruct E as [_ E]. apply Z.ltb_lt in E.
    left. split; [exact Hne|]. split; [exact E|].
    rewrite length_app. simpl List.length.
    destruct (Z.eqb_spec (Z.of_nat (List.length (sections st) + 1)) 0);
      [lia|reflexivity].
  - assert (Hle : Len (currentSection st) <= minSectionLength).
    { apply andb_false_iff in E. destruct E as [E|E].
      - apply negb_false_iff in E. apply Hcur. exact E.
      - apply Z.ltb_ge in E. exact E. }
    right. destruct (sections st) as [|s0 l] eqn:Es.
    + right. left. repeat split; try assumption.
    + left. split; [exact Hne|]. split; [exact Hle|].
      split; [discriminate|]. reflexivity.
Qed.

Lemma Fields_trimmed (s : gostring) :
  s <> [] -> trimmed s = true -> Fields s <> [].
Proof.
  intros Hne Htrim. apply trimmed_iff in Htrim. destruct Htrim as [Hhead _].
  destruct s as [|r t]; [contradiction|].
  pose proof (Hhead r t eq_refl) as Hr.
  unfold Fields. simpl. rewrite Hr.
  destruct (splitSpace t); simpl; discriminate.
Qed.

End SectionProps.

(** X20.  The sections that [splitIntoSections] returns are numbered
    0, 1, 2, ... in their order, each carries as word count the number
    of words of its own content, none has an empty content, and every
    title has between 1 and 99 bytes.  There is no section exactly when
    the document is empty.  Either every section is a trimmed text of
    more than 100 bytes, or the only section is the whole document,
    untrimmed, under the title "Document Content". *)
Theorem X20_sections_are_numbered_and_counted (content : GoStr.gostring) :
  let sections := DocumentService.splitIntoSections content in
  map DocumentService.Order sections
  = map Z.of_nat (seq 0 (List.length sections))
  /\ Forall (fun s =>
               DocumentService.WordCount s
               = Z.of_nat (List.length
                             (GoStr.Fields (DocumentService.Content s)))
               /\ DocumentService.Content s <> []
               /\ (0 < List.length (DocumentService.Title s) <= 99)%nat)
            sections
  /\ (sections = [] <-> content = [])
  /\ (Forall (fun s =>
                (100 < GoStr.Len (DocumentService.Content s))%Z
                /\ GoStr.TrimSpace (DocumentService.Content s)
                   = DocumentService.Content s)
             sections
      \/ sections = [DocumentService.wholeDocument content]).
Proof.
  cbv zeta.
  destruct (SectionProps.splitIntoSections_cases content)
    as (st & (Hord & Hnext & Hall & Htrim & _) & Hcases).
  assert (Hgood :
            forall l,
              Forall DocumentService.regular l ->
              Forall (fun s =>
                        DocumentService.WordCount s
                        = Z.of_nat (List.length
                                      (GoStr.Fields (DocumentService.Content s)))
                        /\ DocumentService.Content s <> []
                        /\ (0 < List.length (DocumentService.Title s)
                            <= 99)%nat) l
              /\ Forall (fun s =>
                           (100 < GoStr.Len (DocumentService.Content s))%Z
                           /\ GoStr.TrimSpace (DocumentService.Content s)
                              = DocumentService.Content s) l).
  { intros l Hl. split; apply Forall_forall; intros s Hs;
      rewrite Forall_forall in Hl; destruct (Hl s Hs) as (H1 & H2 & H3 & H4).
    - split; [exact H1|]. split; [|exact H4].
      intros E. rewrite E in H2. simpl in H2.
      unfold DocumentService.minSectionLength in H2. lia.
    - split; [exact H2|]. apply TextProps.TrimSpace_trimmed. exact H3. }
  destruct Hcases as [(Hc & Hlen & ->)|[(Hc & Hlen & Hne & ->)
                                       |[(Hc & Hlen & Hnil & ->)
                                        |(-> & ->)]]].
  - assert (Hall' : Forall DocumentService.regular
                             (DocumentService.sections st
                              ++ [DocumentService.newSection
                                    (DocumentService.currentSection st)
                                    (DocumentService.sectionOrder st)])).
    { apply Forall_app. split; [exact Hall|].
      constructor; [|constructor].
      exact (SectionProps.newSection_ok _ _ Htrim Hlen). }
    destruct (Hgood _ Hall') as [G1 G2].
    split; [apply SectionProps.orders_snoc; [exact Hord|exact Hnext]|].
    split; [exact G1|]. split; [|left; exact G2].
    split; [intros E; destruct (DocumentService.sections st); discriminate E|].
    intros E. contradiction.
  - destruct (Hgood _ Hall) as [G1 G2].
    split; [exact Hord|]. split; [exact G1|]. split; [|left; exact G2].
    split; [intros E; contradiction|].
    intros E. contradiction.
  - split; [reflexivity|]. split.
    + constructor; [|constructor]. split; [reflexivity|].
      split; [exact Hc|]. vm_compute. split; [lia|lia].
    + split; [|right; reflexivity].
      split; [discriminate|]. intros E. contradiction.
  - split; [reflexivity|]. split; [constructor|].
    split; [split; reflexivity|]. left. constructor.
Qed.

(** X21.  The words of the sections are the words of the document in
    their order, up to a last stretch of at most 100 bytes that is left
    out; a stretch is left out only when the text before it has filled
    at least one section. *)
Theorem X21_sections_keep_the_words_up_to_a_short_tail
    (content : GoStr.gostring) :
  exists dropped : GoStr.gostring,
    GoStr.Fields content
    = DocumentService.sectionWords (DocumentService.splitIntoSections content)
      ++ GoStr.Fields dropped
    /\ (GoStr.Len dropped <= 100)%Z
    /\ (dropped = []
        \/ (DocumentService.splitIntoSections content <> []
            /\ Forall (fun s =>
                         (100 < GoStr.Len (DocumentService.Content s))%Z)
                      (DocumentService.splitIntoSections content))).
Proof.
  destruct (SectionProps.splitIntoSections_cases content)
    as (st & (_ & _ & Hall & Htrim & Hwords) & Hcases).
  rewrite TextProps.Fields_splitBlank in Hwords.
  destruct Hcases as [(Hc & Hlen & ->)|[(Hc & Hlen & Hne & ->)
                                       |[(Hc & Hlen & Hnil & ->)
                                        |(-> & ->)]]].
  - exists []. rewrite SectionProps.sectionWords_snoc.
    unfold DocumentService.newSection. cbn [DocumentService.Content].
    rewrite ChunkerProps.Fields_TrimSpace, app_nil_r.
    split; [symmetry; exact Hwords|]. split; [simpl; lia|left; reflexivity].
  - exists (DocumentService.currentSection st).
    split; [symmetry; exact Hwords|]. split; [exact Hlen|].
    right. split; [exact Hne|].
    apply Forall_forall. intros s Hs. rewrite Forall_forall in Hall.
    destruct (Hall s Hs) as (_ & H2 & _). exact H2.
  - exists []. unfold DocumentService.sectionWords. simpl.
    rewrite !app_nil_r. split; [reflexivity|]. split; [lia|left; reflexivity].
  - exists []. split; [reflexivity|]. split; [simpl; lia|left; reflexivity].
Qed.

(** X22.  A document of two paragraphs, the first of more than 100
    bytes, the second of at most 100, that together exceed 2000 bytes,
    gives one section, the first paragraph: the words of the second
    paragraph are in no section. *)
Theorem X22_short_last_paragraph_is_left_out (a b : GoStr.gostring) :
  DocumentService.isParagraph a ->
  DocumentService.isParagraph b ->
  (100 < GoStr.Len a)%Z ->
  (GoStr.Len b <= 100)%Z ->
  (2000 < GoStr.Len a + GoStr.Len b)%Z ->
  let content := a ++ [GoStr.newline; GoStr.newline] ++ b in
  DocumentService.splitIntoSections content = [DocumentService.newSection a 0]
  /\ DocumentService.Content (DocumentService.newSection a 0) = a
  /\ DocumentService.sectionWords (DocumentService.splitIntoSections content)
     = GoStr.Fields a
  /\ GoStr.Fields content = GoStr.Fields a ++ GoStr.Fields b
  /\ GoStr.Fields b <> [].
Proof.
  intros (Hane & Hatrim & Hasplit) (Hbne & Hbtrim & Hbsplit) Ha Hb Hab.
  cbv zeta.
  assert (Hsec : DocumentService.splitIntoSections
                   (a ++ [GoStr.newline; GoStr.newline] ++ b)
                 = [DocumentService.newSection a 0]).
  { unfold DocumentService.splitIntoSections.
    change (a ++ [GoStr.newline; GoStr.newline] ++ b)
      with (a ++ GoStr.newline :: GoStr.newline :: b).
    rewrite (TextProps.splitBlank_app a b Hane Hasplit Hatrim), Hbsplit.
    cbn [fold_left].
    rewrite (SectionProps.split_step_start a Hatrim Hane).
    rewrite (SectionProps.split_step_flush [] a 0 b Hbtrim Hbne Hab Ha).
    cbn [DocumentService.sections DocumentService.currentSection
         DocumentService.sectionOrder app].
    destruct (Z.ltb_spec DocumentService.minSectionLength (GoStr.Len b));
      [unfold DocumentService.minSectionLength in *; lia|].
    rewrite andb_false_r. reflexivity. }
  rewrite Hsec.
  assert (Hcontent : DocumentService.Content (DocumentService.newSection a 0)
                     = a).
  { unfold DocumentService.newSection. cbn [DocumentService.Content].
    apply TextProps.TrimSpace_trimmed. exact Hatrim. }
  split; [reflexivity|]. split; [exact Hcontent|].
  split; [unfold DocumentService.sectionWords; simpl;
          rewrite ChunkerProps.Fields_TrimSpace, app_nil_r; reflexivity|].
  split.
  - change (a ++ [GoStr.newline; GoStr.newline] ++ b)
      with (a ++ GoStr.newline :: GoStr.newline :: b).
    rewrite (ChunkerProps.Fields_app a _ GoStr.newline eq_refl).
    rewrite (ChunkerProps.Fields_space_cons GoStr.newline _ eq_refl).
    reflexivity.
  - apply SectionProps.Fields_trimmed; assumption.
Qed.

Lemma X22_witness :
  DocumentService.splitIntoSections
    (SectionScenario.body ++ [GoStr.newline; GoStr.newline]
     ++ SectionScenario.closing)
  = [DocumentService.newSection SectionScenario.body 0]
  /\ GoStr.Fields SectionScenario.closing
     = [GoStr.lit "Call"; GoStr.lit "the"; GoStr.lit "help";
        GoStr.lit "desk."].
Proof.
  assert (Ha : DocumentService.isParagraph SectionScenario.body).
  { split; [intros H; discriminate H|]. split; vm_compute; reflexivity. }
  assert (Hb : DocumentService.isParagraph SectionScenario.closing).
  { split; [intros H; discriminate H|]. split; vm_compute; reflexivity. }
  destruct (X22_short_last_paragraph_is_left_out SectionScenario.body
              SectionScenario.closing Ha Hb)
    as (H1 & _); try (vm_compute; reflexivity).
  - vm_compute. intros H; discriminate H.
  - split; [exact H1|reflexivity].
Defined.

(** ** The helpers of [internal/utils] *)

Module UtilsProps.
Import GoStr Base Strings Utils ChunkerProps TextProps.
Local Open Scope list_scope.
Local Open Scope Z_scope.




(** *** Hexadecimal digits *)





(** *** Keywords *)

Lemma SliceContains_In (l : list gostring) (x : gostring) :
  SliceContains l x = true <-> In x l.
Proof.
  unfold SliceContains. rewrite existsb_exists. split.
  - intros (y & Hin & Heq). unfold gostring_eqb in Heq.
    destruct (list_eq_dec N.eq_dec x y); [subst; exact Hin|discriminate].
  - intros Hin. exists x. split; [exact Hin|].
    unfold gostring_eqb. destruct (list_eq_dec N.eq_dec x x);
      [reflexivity|contradiction].
Qed.

Lemma SliceContains_false (l : list gostring) (x : gostring) :
  SliceContains l x = false <-> ~ In x l.
Proof.
  rewrite <- SliceContains_In. destruct (SliceContains l x); split;
    intros H; try reflexivity; try discriminate; try (intros E; discriminate).
  exfalso. apply H. reflexivity.
Qed.

(** What the loop keeps: the keys of the map are the keywords found,
    which are distinct, keepable and trimmed words of the text. *)
Lemma keywordLoop_inv (m : Z) (all : list gostring) (words : list gostring) :
  forall keywords result,
    incl words all ->
    (forall w, In w keywords <-> In w result) ->
    NoDup result ->
    Forall (fun k => keepable k
                     /\ exists word, In word all
                                     /\ k = Trim word (lit ".,!?;:"))
           result ->
    NoDup (keywordLoop m words keywords result)
    /\ Forall (fun k => keepable k
                        /\ exists word, In word all
                                        /\ k = Trim word (lit ".,!?;:"))
              (keywordLoop m words keywords result).
Proof.
  induction words as [|word rest IH]; intros keywords result Hincl Hkeys Hnd Hall.
  - split; assumption.
  - cbn [keywordLoop]. cbv zeta.
    assert (Hrest : incl rest all)
      by (intros x Hx; apply Hincl; right; exact Hx).
    destruct ((2 <? Len (Trim word (lit ".,!?;:")))
              && negb (SliceContains stopWords (Trim word (lit ".,!?;:")))
              && negb (SliceContains keywords (Trim word (lit ".,!?;:"))))
      eqn:E; [|apply IH; assumption].
    apply andb_true_iff in E. destruct E as [E E3].
    apply andb_true_iff in E. destruct E as [E1 E2].
    apply Z.ltb_lt in E1. apply negb_true_iff in E2, E3.
    apply SliceContains_false in E2, E3.
    set (k := Trim word (lit ".,!?;:")) in *.
    assert (Hnd' : NoDup (result ++ [k])).
    { apply NoDup_app; [exact Hnd|repeat constructor; intros []|].
      intros x Hx [Hk|[]]. subst x. apply E3. apply Hkeys. exact Hx. }
    assert (Hall' : Forall (fun k => keepable k
                                     /\ exists word, In word all
                                          /\ k = Trim word (lit ".,!?;:"))
                           (result ++ [k])).
    { apply Forall_app. split; [exact Hall|]. constructor; [|constructor].
      split; [split; assumption|]. exists word. split; [|reflexivity].
      apply Hincl. left. reflexivity. }
    destruct (m <=? Z.of_nat (List.length (result ++ [k])));
      [split; assumption|].
    apply IH; try assumption.
    intros w. simpl. rewrite in_app_iff, Hkeys. simpl. tauto.
Qed.

(** The loop stops at the bound once it holds. *)
Lemma keywordLoop_bound (m : Z) (words : list gostring) :
  forall keywords result,
    Z.of_nat (List.length result) < m ->
    Z.of_nat (List.length (keywordLoop m words keywords result)) <= m.
Proof.
  induction words as [|word rest IH]; intros keywords result Hlt.
  - simpl. lia.
  - cbn [keywordLoop]. cbv zeta.
    destruct (_ && _ && _); [|apply IH; exact Hlt].
    destruct (Z.leb_spec m (Z.of_nat (List.length
                                        (result ++ [Trim word (lit ".,!?;:")])))).
    + rewrite length_app in *. simpl in *. lia.
    + apply IH. assumption.
Qed.

(** A bound of at most one gives the first keyword. *)
Lemma keywordLoop_first (m : Z) (words : list gostring) :
  m <= 1 ->
  forall keywords,
    keywordLoop m words keywords [] = keywordLoop 1 words keywords []
    /\ (List.length (keywordLoop 1 words keywords []) <= 1)%nat.
Proof.
  intros Hm. induction words as [|word rest IH]; intros keywords.
  - split; [reflexivity|simpl; lia].
  - cbn [keywordLoop]. cbv zeta.
    destruct (_ && _ && _); [|apply IH].
    cbn [app List.length].
    destruct (Z.leb_spec m (Z.of_nat 1)); [|lia].
    split; [reflexivity|simpl; lia].
Qed.

End UtilsProps.



(** X24.  [TruncateString] panics for every negative length.  For a
    length that is not negative it returns the string itself when that
    has at most [length] bytes, and otherwise its first [length] bytes
    followed by three dots, [length + 3] bytes in all: a string of one
    or two bytes more than [length] comes back longer than it was. *)
Theorem X24_TruncateString_cuts_bytes_and_adds_dots (s : GoStr.gostring)
    (length : Z) :
  ((length < 0)%Z ->
   exists msg, Utils.TruncateString s length = Base.Panic msg)
  /\ ((0 <= length)%Z ->
      exists r,
        Utils.TruncateString s length = Base.Ok r
        /\ ((GoStr.Len s <= length)%Z -> r = Utf8.encode s)
        /\ ((length < GoStr.Len s)%Z ->
            r = firstn (Z.to_nat length) (Utf8.encode s)
                ++ Utf8.encode (GoStr.lit "...")
            /\ Z.of_nat (List.length r) = (length + 3)%Z)).
Proof.
  unfold Utils.TruncateString. pose proof (ChunkerProps.Len_nonneg s) as Hs.
  split.
  - intros Hneg. destruct (Z.leb_spec (GoStr.Len s) length); [lia|].
    destruct (Z.ltb_spec length 0); [|lia]. eexists. reflexivity.
  - intros Hpos. destruct (Z.leb_spec (GoStr.Len s) length).
    + eexists. split; [reflexivity|]. split; [reflexivity|lia].
    + destruct (Z.ltb_spec length 0); [lia|].
      eexists. split; [reflexivity|]. split; [lia|]. intros _.
      rewrite (TextProps.cut_firstn s length Hpos).
      split; [reflexivity|].
      rewrite length_app, length_firstn.
      pose proof (TextProps.length_encode s) as Hlen.
      change (List.length (Utf8.encode (GoStr.lit "..."))) with 3%nat. lia.
Qed.


(** X26.  [SanitizeString] returns a string of printable runes of its
    argument without white space at either end, and sanitizing the
    result again changes nothing. *)
Theorem X26_SanitizeString_is_idempotent (unicode_IsPrint : GoStr.rune -> bool)
    (s : GoStr.gostring) :
  let r := Utils.SanitizeString unicode_IsPrint s in
  Forall (fun c => unicode_IsPrint c = true /\ In c s) r
  /\ GoStr.TrimSpace r = r
  /\ Utils.SanitizeString unicode_IsPrint r = r.
Proof.
  cbv zeta. unfold Utils.SanitizeString.
  assert (Hall : Forall (fun c => unicode_IsPrint c = true /\ In c s)
                        (GoStr.TrimSpace (filter unicode_IsPrint s))).
  { apply Forall_forall. intros c Hc. apply TextProps.In_TrimSpace in Hc.
    apply filter_In in Hc. tauto. }
  assert (Htrim : GoStr.TrimSpace (GoStr.TrimSpace (filter unicode_IsPrint s))
                  = GoStr.TrimSpace (filter unicode_IsPrint s))
    by apply TextProps.TrimSpace_trimmed, TextProps.trimmed_TrimSpace.
  split; [exact Hall|]. split; [exact Htrim|].
  assert (Hfilter : forall t : GoStr.gostring,
             Forall (fun c => unicode_IsPrint c = true /\ In c s) t ->
             filter unicode_IsPrint t = t).
  { intros t. induction t as [|c t IH]; intros Ht; [reflexivity|].
    inversion Ht as [|? ? Hc Ht']; subst. destruct Hc as [Hc _].
    simpl. rewrite Hc.
    f_equal. apply IH. exact Ht'. }
  rewrite (Hfilter _ Hall). exact Htrim.
Qed.

(** X27.  The keywords that [utils.ExtractKeywords] returns are
    distinct; each is a word of the lower-cased text with the
    punctuation at its ends removed, longer than two bytes and not a
    stop word.  There are at most [maxKeywords] of them, but never less
    than one is allowed: every bound below 1 gives what the bound 1
    gives. *)
Theorem X27_keywords_are_distinct_and_bounded
    (unicode_ToLower : GoStr.rune -> GoStr.rune) (text : GoStr.gostring)
    (maxKeywords : Z) :
  let keywords := Utils.ExtractKeywords unicode_ToLower text maxKeywords in
  NoDup keywords
  /\ Forall (fun k =>
               Utils.keepable k
               /\ exists word,
                    In word (GoStr.Fields (map unicode_ToLower text))
                    /\ k = Utils.Trim word (GoStr.lit ".,!?;:"))
            keywords
  /\ (Z.of_nat (List.length keywords) <= Z.max maxKeywords 1)%Z
  /\ ((maxKeywords <= 1)%Z ->
      keywords = Utils.ExtractKeywords unicode_ToLower text 1).
Proof.
  cbv zeta. unfold Utils.ExtractKeywords.
  set (words := GoStr.Fields (map unicode_ToLower text)).
  destruct (UtilsProps.keywordLoop_inv maxKeywords words words [] [])
    as [Hnd Hall].
  { intros x Hx. exact Hx. }
  { intros w. tauto. }
  { constructor. }
  { constructor. }
  split; [exact Hnd|]. split; [exact Hall|]. split.
  - destruct (Z.lt_ge_cases 1 maxKeywords) as [Hm|Hm].
    + pose proof (UtilsProps.keywordLoop_bound maxKeywords words [] []
                    ltac:(simpl; lia)). lia.
    + destruct (UtilsProps.keywordLoop_first maxKeywords words
                  ltac:(lia) []) as [E Hlen].
      rewrite E. lia.
  - intros Hm.
    exact (proj1 (UtilsProps.keywordLoop_first maxKeywords words Hm [])).
Qed.

(** ** OpenAIAssistantService *)

Module AssistantProps.
Import GoStr Base OpenAIAssistant.
Local Open Scope string_scope.
Local Open Scope list_scope.
Local Open Scope Z_scope.

Lemma pollsWithin_nonneg (left : Z) : 0 <= pollsWithin left.
Proof.
  unfold pollsWithin, Second. destruct (Z.leb_spec left 0); [lia|].
  assert (0 <= (left - 1) / (11 * 1000000000)) by (apply Z.div_pos; lia). lia.
Qed.

Lemma pollsWithin_mono (a b : Z) : a <= b -> pollsWithin a <= pollsWithin b.
Proof.
  intros H. unfold pollsWithin, Second.
  destruct (Z.leb_spec a 0); destruct (Z.leb_spec b 0); try lia.
  - assert (0 <= (b - 1) / (11 * 1000000000)) by (apply Z.div_pos; lia). lia.
  - assert ((a - 1) / (11 * 1000000000) <= (b - 1) / (11 * 1000000000))
      by (apply Z.div_le_mono; lia).
    lia.
Qed.

Lemma pollsWithin_step (left : Z) :
  0 < left -> 1 + pollsWithin (left - 11 * Second) <= pollsWithin left.
Proof.
  intros H. unfold pollsWithin, Second.
  destruct (Z.leb_spec left 0); [lia|].
  destruct (Z.leb_spec (left - 11 * 1000000000) 0).
  - assert (0 <= (left - 1) / (11 * 1000000000)) by (apply Z.div_pos; lia). lia.
  - replace (left - 11 * 1000000000 - 1)
      with (left - 1 + (-1) * (11 * 1000000000)) by lia.
    rewrite Z.div_add by lia. lia.
Qed.

Lemma pollsWithin_pos (left : Z) : 0 < left -> 1 <= pollsWithin left.
Proof.
  intros H. unfold pollsWithin, Second. destruct (Z.leb_spec left 0); [lia|].
  assert (0 <= (left - 1) / (11 * 1000000000)) by (apply Z.div_pos; lia). lia.
Qed.

(** The loop returns when its fuel covers the time that is left, after
    at most as many retrievals as fit into that time. *)
Lemma waitLoop_spec (s : t) (threadID runID : gostring) (deadline : Z) :
  forall fuel tl,
    (1 <= fuel)%nat ->
    deadline - now tl <= 11 * Second * (Z.of_nat fuel - 1) ->
    exists r tl',
      waitLoop fuel s threadID runID deadline tl = Some (r, tl')
      /\ (retrievals tl <= retrievals tl')%nat
      /\ Z.of_nat (retrievals tl' - retrievals tl)
         <= pollsWithin (deadline - now tl)
      /\ waited r
      /\ (retrievalsReturn (client s) -> forall e, r <> Panic e)
      /\ (deadline <= now tl ->
          tl' = tl
          /\ r = Ok (EmptyString, Some "timeout waiting for run completion")).
Proof.
  induction fuel as [|fuel IH]; intros tl Hfuel Hleft; [lia|].
  cbn [waitLoop].
  destruct (Z.ltb_spec (now tl) deadline) as [Hlt|Hge].
  2:{ exists (Ok (EmptyString, Some "timeout waiting for run completion")), tl.
      split; [reflexivity|]. split; [lia|].
      split; [rewrite Nat.sub_diag; apply pollsWithin_nonneg|].
      split; [left; reflexivity|]. split; [intros _ e; discriminate|].
      intros _. split; reflexivity. }
  pose proof (pollsWithin_pos (deadline - now tl) ltac:(lia)) as Hone.
  unfold getRunStatus.
  destruct (RetrieveRun (client s) (retrievals tl) threadID runID)
    as [[status|e|e] taken] eqn:ER.
  - destruct (String.eqb_spec status "completed") as [Ec|Ec].
    { eexists. eexists. split; [reflexivity|]. cbn [retrievals now].
      split; [lia|]. split; [lia|]. split; [exact Ec|].
      split; [intros _ e; discriminate|]. intros H. lia. }
    destruct (String.eqb status "failed" || String.eqb status "cancelled"
              || String.eqb status "expired") eqn:Ef.
    { eexists. eexists. split; [reflexivity|]. cbn [retrievals now].
      split; [lia|]. split; [lia|]. split.
      - simpl. apply orb_true_iff in Ef. destruct Ef as [Ef|Ef].
        + apply orb_true_iff in Ef. destruct Ef as [Ef|Ef];
            apply String.eqb_eq in Ef; subst; tauto.
        + apply String.eqb_eq in Ef. subst. tauto.
      - split; [intros _ e; discriminate|]. intros H. lia. }
    destruct (String.eqb_spec status "requires_action") as [Er|Er].
    { eexists. eexists. split; [reflexivity|]. cbn [retrievals now].
      split; [lia|]. split; [lia|]. split; [simpl; subst; tauto|].
      split; [intros _ e; discriminate|]. intros H. lia. }
    set (tl2 := {| now := now tl + Z.of_N taken + 11 * Second;
                   retrievals := S (retrievals tl) |}).
    assert (Hfuel' : (1 <= fuel)%nat).
    { destruct fuel; [|lia]. unfold Second in Hleft. simpl in Hleft. lia. }
    destruct (IH tl2 Hfuel') as (r & tl' & Hrun & Hmono & Hpolls & Hw & Hp & _).
    { unfold tl2. cbn [now]. unfold Second in *. lia. }
    exists r, tl'. split; [exact Hrun|].
    unfold tl2 in Hmono, Hpolls. cbn [now retrievals] in Hmono, Hpolls.
    split; [lia|]. split.
    + pose proof (pollsWithin_mono
                    (deadline - (now tl + Z.of_N taken + 11 * Second))
                    (deadline - now tl - 11 * Second) ltac:(lia)) as Hm.
      pose proof (pollsWithin_step (deadline - now tl) ltac:(lia)) as Hs.
      lia.
    + split; [exact Hw|]. split; [exact Hp|]. intros H. lia.
  - eexists. eexists. split; [reflexivity|]. cbn [retrievals now].
    split; [lia|]. split; [lia|]. split; [left; reflexivity|].
    split; [intros _ e'; discriminate|]. intros H. lia.
  - eexists. eexists. split; [reflexivity|]. cbn [retrievals now].
    split; [lia|]. split; [lia|]. split; [exact I|].
    split; [|intros H; lia].
    intros Hret e' _. apply (Hret (retrievals tl) threadID runID e).
    rewrite ER. reflexivity.
Qed.

(** The fuel of [WaitForRunCompletion] covers its timeout. *)
Lemma rounds_cover (timeout : Z) :
  (1 <= rounds timeout)%nat
  /\ timeout <= 11 * Second * (Z.of_nat (rounds timeout) - 1).
Proof.
  unfold rounds, Second. split; [lia|].
  destruct (Z.le_gt_cases 0 timeout) as [H|H].
  - pose proof (Z.div_mod timeout (11 * 1000000000) ltac:(lia)) as Hdm.
    pose proof (Z.mod_pos_bound timeout (11 * 1000000000) ltac:(lia)) as Hm.
    assert (0 <= timeout / (11 * 1000000000)) by (apply Z.div_pos; lia).
    rewrite Nat2Z.inj_add, Z2Nat.id by lia. simpl Z.of_nat. lia.
  - lia.
Qed.

Lemma WaitForRunCompletion_spec (s : t) (threadID runID : gostring)
    (timeout : Z) (tl : Timeline) :
  exists r tl',
    WaitForRunCompletion s threadID runID timeout tl = Some (r, tl')
    /\ (retrievals tl <= retrievals tl')%nat
    /\ Z.of_nat (retrievals tl' - retrievals tl) <= pollsWithin timeout
    /\ waited r
    /\ (retrievalsReturn (client s) -> forall e, r <> Panic e)
    /\ (timeout <= 0 ->
        tl' = tl
        /\ r = Ok (EmptyString, Some "timeout waiting for run completion")).
Proof.
  unfold WaitForRunCompletion. cbv zeta.
  destruct (rounds_cover timeout) as [H1 H2].
  destruct (waitLoop_spec s threadID runID (now tl + timeout)
              (rounds timeout) tl H1 ltac:(lia))
    as (r & tl' & Hrun & Hmono & Hpolls & Hw & Hp & Hz).
  exists r, tl'. split; [exact Hrun|]. split; [exact Hmono|].
  replace (now tl + timeout - now tl) with timeout in Hpolls by lia.
  split; [exact Hpolls|]. split; [exact Hw|]. split; [exact Hp|].
  intros H. apply Hz. lia.
Qed.

End AssistantProps.

(** X28.  [WaitForRunCompletion] returns for every timeout and every
    behaviour of the API.  It asks for the status at most once per 11
    seconds of the timeout, rounded up, and not at all when the timeout
    is not positive, which gives the timeout error at once.  Without an
    error the status returned is "completed"; with an error it is empty
    (timeout, failed retrieval) or one of "failed", "cancelled",
    "expired" and "requires_action". *)
Theorem X28_WaitForRunCompletion_returns_within_its_polls
    (s : OpenAIAssistant.t) (threadID runID : GoStr.gostring) (timeout : Z)
    (tl : OpenAIAssistant.Timeline) :
  exists r tl',
    OpenAIAssistant.WaitForRunCompletion s threadID runID timeout tl
    = Some (r, tl')
    /\ (Z.of_nat (OpenAIAssistant.retrievals tl'
                  - OpenAIAssistant.retrievals tl)
        <= OpenAIAssistant.pollsWithin timeout)%Z
    /\ OpenAIAssistant.pollsWithin (30 * OpenAIAssistant.Second) = 3%Z
    /\ OpenAIAssistant.waited r
    /\ (OpenAIAssistant.retrievalsReturn (OpenAIAssistant.client s) ->
        exists status err, r = Base.Ok (status, err))
    /\ ((timeout <= 0)%Z ->
        tl' = tl
        /\ r = Base.Ok (EmptyString,
                        Some "timeout waiting for run completion"%string)).
Proof.
  destruct (AssistantProps.WaitForRunCompletion_spec s threadID runID
              timeout tl)
    as (r & tl' & Hrun & _ & Hpolls & Hw & Hp & Hz).
  exists r, tl'. split; [exact Hrun|]. split; [exact Hpolls|].
  split; [reflexivity|]. split; [exact Hw|]. split; [|exact Hz].
  intros Hret. specialize (Hp Hret).
  destruct r as [[status err]|e|e].
  - exists status, err. reflexivity.
  - contradiction.
  - exfalso. apply (Hp e). reflexivity.
Qed.

(** X29.  [ChatWithAssistant] returns for every request.  When the
    message and the run are created and the messages can be listed, it
    returns a response and no error whatever the wait gave: a run that
    failed, was cancelled, expired, needs action or did not finish in
    time comes back as a response with that status, or with an empty
    one.  The response holds the listed messages that carry the
    identifier of the run, and no others.  A timeout that is not
    positive is taken as 30 seconds, which allows three retrievals. *)
Theorem X29_ChatWithAssistant_returns_a_failed_run_as_a_response
    (s : OpenAIAssistant.t) (req : OpenAIAssistant.ChatAssistantRequest)
    (tl : OpenAIAssistant.Timeline) :
  exists r tl',
    OpenAIAssistant.ChatWithAssistant s req tl = Some (r, tl')
    /\ (Z.of_nat (OpenAIAssistant.retrievals tl'
                  - OpenAIAssistant.retrievals tl)
        <= OpenAIAssistant.pollsWithin (OpenAIAssistant.timeoutOf req))%Z
    /\ ((OpenAIAssistant.req_TimeoutSeconds req <= 0)%Z ->
        OpenAIAssistant.pollsWithin (OpenAIAssistant.timeoutOf req) = 3%Z)
    /\ match r with
       | Base.Ok resp =>
           OpenAIAssistant.resp_ThreadID resp
           = OpenAIAssistant.threadOf s req
           /\ In (OpenAIAssistant.resp_Status resp)
                 ["completed"; EmptyString; "failed"; "cancelled";
                  "expired"; "requires_action"]%string
           /\ exists listed,
                OpenAIAssistant.ListMessage (OpenAIAssistant.client s)
                  (OpenAIAssistant.threadOf s req) 100 "desc"
                = Base.Ok listed
                /\ OpenAIAssistant.resp_Messages resp
                   = map OpenAIAssistant.convertToAssistantMessage
                       (filter (fun m =>
                                  match OpenAIAssistant.msg_RunID m with
                                  | Some id =>
                                      GoStr.gostring_eqb id
                                        (OpenAIAssistant.resp_RunID resp)
                                  | None => false
                                  end) listed)
       | _ => True
       end
    /\ (forall messageID runID listed,
           OpenAIAssistant.retrievalsReturn (OpenAIAssistant.client s) ->
           OpenAIAssistant.CreateMessage (OpenAIAssistant.client s)
             (OpenAIAssistant.threadOf s req)
             (OpenAIAssistant.req_Message req)
           = Base.Ok messageID ->
           OpenAIAssistant.CreateRun (OpenAIAssistant.client s)
             (OpenAIAssistant.threadOf s req)
             (OpenAIAssistant.req_AssistantID req)
           = Base.Ok runID ->
           OpenAIAssistant.ListMessage (OpenAIAssistant.client s)
             (OpenAIAssistant.threadOf s req) 100 "desc"
           = Base.Ok listed ->
           exists resp, r = Base.Ok resp
                        /\ OpenAIAssistant.resp_RunID resp = runID).
Proof.
  unfold OpenAIAssistant.ChatWithAssistant. cbv zeta.
  fold (OpenAIAssistant.threadOf s req).
  fold (OpenAIAssistant.timeoutOf req).
  set (thread := OpenAIAssistant.threadOf s req).
  assert (Hdefault : (OpenAIAssistant.req_TimeoutSeconds req <= 0)%Z ->
                     OpenAIAssistant.pollsWithin
                       (OpenAIAssistant.timeoutOf req) = 3%Z).
  { intros H. unfold OpenAIAssistant.timeoutOf.
    destruct (Z.leb_spec (OpenAIAssistant.req_TimeoutSeconds req) 0); [|lia].
    reflexivity. }
  pose proof (AssistantProps.pollsWithin_nonneg
                (OpenAIAssistant.timeoutOf req)) as Hnn.
  unfold OpenAIAssistant.addMessageToThread, OpenAIAssistant.createRun.
  destruct (OpenAIAssistant.CreateMessage (OpenAIAssistant.client s) thread
              (OpenAIAssistant.req_Message req)) as [mid|e|e] eqn:Em.
  2,3: (eexists; eexists; split; [reflexivity|];
        rewrite Nat.sub_diag; split; [exact Hnn|];
        split; [exact Hdefault|]; split; [exact I|];
        intros ? ? ? _ H; discriminate H).
  destruct (OpenAIAssistant.CreateRun (OpenAIAssistant.client s) thread
              (OpenAIAssistant.req_AssistantID req)) as [rid|e|e] eqn:Er.
  2,3: (eexists; eexists; split; [reflexivity|];
        rewrite Nat.sub_diag; split; [exact Hnn|];
        split; [exact Hdefault|]; split; [exact I|];
        intros ? ? ? _ _ H; discriminate H).
  destruct (AssistantProps.WaitForRunCompletion_spec s thread rid
              (OpenAIAssistant.timeoutOf req) tl)
    as (w & tl' & Hrun & _ & Hpolls & Hw & Hp & _).
  rewrite Hrun.
  destruct w as [[status err]|e|e]; [|contradiction|].
  2:{ eexists. eexists. split; [reflexivity|]. split; [exact Hpolls|].
      split; [exact Hdefault|]. split; [exact I|].
      intros ? ? ? Hret _ _ _. exfalso. apply (Hp Hret e). reflexivity. }
  unfold OpenAIAssistant.getMessagesWithRunID.
  destruct (OpenAIAssistant.ListMessage (OpenAIAssistant.client s) thread 100
              "desc") as [listed|e|e] eqn:El.
  2,3: (eexists; eexists; split; [reflexivity|];
        split; [exact Hpolls|]; split; [exact Hdefault|]; split; [exact I|];
        intros ? ? ? _ _ _ H; discriminate H).
  eexists. eexists. split; [reflexivity|]. split; [exact Hpolls|].
  split; [exact Hdefault|]. split.
  - cbn [OpenAIAssistant.resp_ThreadID OpenAIAssistant.resp_Status
         OpenAIAssistant.resp_Messages OpenAIAssistant.resp_RunID].
    split; [reflexivity|]. split.
    + destruct err as [e|]; simpl in Hw.
      * simpl. tauto.
      * left. symmetry. exact Hw.
    + exists listed. split; [reflexivity|reflexivity].
  - intros messageID runID listed' _ _ Hr _. inversion Hr; subst.
    eexists. split; reflexivity.
Qed.

Lemma X29_witness :
  exists resp tl',
    OpenAIAssistant.ChatWithAssistant AssistantScenario.service
      AssistantScenario.question
      {| OpenAIAssistant.now := 0; OpenAIAssistant.retrievals := 0 |}
    = Some (Base.Ok resp, tl')
    /\ OpenAIAssistant.resp_Status resp = "failed"%string
    /\ OpenAIAssistant.resp_Messages resp = []
    /\ OpenAIAssistant.retrievals tl' = 2%nat.
Proof.
  destruct (X29_ChatWithAssistant_returns_a_failed_run_as_a_response
              AssistantScenario.service AssistantScenario.question
              {| OpenAIAssistant.now := 0; OpenAIAssistant.retrievals := 0 |})
    as (r & tl' & Hrun & _ & _ & _ & Hok).
  destruct (Hok (GoStr.lit "msg_1") (GoStr.lit "run_1")
              [AssistantScenario.reply (Some (GoStr.lit "run_0")) "earlier";
               AssistantScenario.reply None "question"])
    as (resp & -> & _); try reflexivity.
  { intros n threadID runID e H. discriminate H. }
  exists resp, tl'. split; [exact Hrun|].
  vm_compute in Hrun. inversion Hrun. subst. repeat split; reflexivity.
Defined.

(** ** AIHandler.CompareProviders *)

Module CompareProps.
Import GoStr Base ChatStore EnhancedChatService WorldOps.
Import ChatStoreProps EnhancedProps EnhancedRun ChatMore.
Local Open Scope string_scope.
Local Open Scope list_scope.




End CompareProps.


